(** * Launch/attach orchestration of the Cordova tools: a shallow embedding

    The development follows the TypeScript sources: the Ionic dev-server
    readiness detector ([IonicDevServer.startIonicDevServer]), the target
    selection of [MobileTargetManager], the Android attach-channel resolver
    ([AndroidCordovaPlatform.prepareForAttach]) and the target persistence of
    [CordovaDebugSession.resolveAndSaveMobileTarget].

    JavaScript strings are modelled as [string] over 8-bit code units (the
    Latin-1 range); over that range the line terminators of a regular
    expression are LF and CR, and white space is TAB, LF, VT, FF, CR, SPACE and
    NBSP.  Promises are modelled by their settlement (first call wins), timers
    by the table of pending timers of the runtime. *)

From Stdlib Require Import String Ascii ZArith List Bool Lia Arith.
From Stdlib Require DecimalString.
From stdpp Require Import base option list gmap.
Import ListNotations.

(** Concatenation of strings computes on a known head, as that of lists. *)
Arguments String.append !s1 s2 : simpl nomatch.

(** ** Part I. Definitions *)

(** *** JavaScript strings and the regular expressions the sources use *)
Module Js.

Definition charCode (c : ascii) : nat := nat_of_ascii c.

Definition between (lo hi : nat) (c : ascii) : bool :=
  (lo <=? charCode c)%nat && (charCode c <=? hi)%nat.

Definition LF : ascii := "010"%char.
Definition CR : ascii := "013"%char.
Definition dquote : string := String "034"%char EmptyString.

(** LineTerminator of ECMAScript, what [.] refuses and multiline [$] sees. *)
Definition isLineTerminator (c : ascii) : bool :=
  Ascii.eqb c LF || Ascii.eqb c CR.

Definition dot (c : ascii) : bool := negb (isLineTerminator c).

(** The class [\s]. *)
Definition isWhiteSpace (c : ascii) : bool :=
  between 9 13 c || Ascii.eqb c " "%char || Ascii.eqb c "160"%char.

Definition notWhiteSpace (c : ascii) : bool := negb (isWhiteSpace c).

(** The class [\d]. *)
Definition isDigit (c : ascii) : bool := between 48 57 c.

(** The class [\w] and its complement [\W]. *)
Definition isWordChar (c : ascii) : bool :=
  between 97 122 c || between 65 90 c || isDigit c || Ascii.eqb c "_"%char.

Definition notWordChar (c : ascii) : bool := negb (isWordChar c).

Definition lowerChar (c : ascii) : ascii :=
  if between 65 90 c then ascii_of_nat (charCode c + 32) else c.

(** [String.prototype.toLowerCase], on the ASCII letters. *)
Fixpoint toLowerCase (s : string) : string :=
  match s with
  | EmptyString => EmptyString
  | String c s' => String (lowerChar c) (toLowerCase s')
  end.

(** A pattern character under the [i] flag: ASCII letters match either case,
    and no code unit above 127 canonicalizes to an ASCII letter. *)
Definition eqCI (a c : ascii) : bool := Ascii.eqb (lowerChar a) (lowerChar c).

Definition eqCS (a c : ascii) : bool := Ascii.eqb a c.

(** Truthiness of a string value that may be [undefined]. *)
Definition truthy (v : option string) : bool :=
  match v with
  | Some EmptyString => false
  | Some _ => true
  | None => false
  end.

(** [a || b] on string values that may be [undefined]. *)
Definition or_else (a b : option string) : option string :=
  if truthy a then a else b.

(** Template-literal rendering of a value that may be [undefined]. *)
Definition render (v : option string) : string :=
  match v with
  | Some s => s
  | None => "undefined"%string
  end.

Fixpoint startsWith (p s : string) : bool :=
  match p, s with
  | EmptyString, _ => true
  | String a p', String c s' => Ascii.eqb a c && startsWith p' s'
  | String _ _, EmptyString => false
  end.

(** [s.includes(sub)], [s.indexOf(sub) !== -1] and [/sub/.test(s)] for a
    pattern without metacharacters. *)
Fixpoint includes (sub s : string) : bool :=
  startsWith sub s ||
  match s with
  | EmptyString => false
  | String _ s' => includes sub s'
  end.

Fixpoint drop (n : nat) (s : string) : string :=
  match n, s with
  | O, _ => s
  | S n', String _ s' => drop n' s'
  | S _, EmptyString => EmptyString
  end.

Fixpoint take (n : nat) (s : string) : string :=
  match n, s with
  | O, _ => EmptyString
  | S n', String c s' => String c (take n' s')
  | S _, EmptyString => EmptyString
  end.

(** [s.substr(1)]. *)
Definition substr1 (s : string) : string := drop 1 s.

(** The text a match consumed: [s] without its unconsumed suffix [rest]. *)
Definition matched (s rest : string) : string :=
  take (String.length s - String.length rest) s.

(** [s.split(sep)] for a non-empty separator string.  [skip] counts the
    separator characters still to be jumped over, [cur] is the field being
    read, reversed. *)
Fixpoint rev_string (acc s : string) : string :=
  match s with
  | EmptyString => acc
  | String c s' => rev_string (String c acc) s'
  end.

Fixpoint split_go (sep : string) (skip : nat) (cur : string) (s : string)
  : list string :=
  match s with
  | EmptyString => [rev_string EmptyString cur]
  | String c s' =>
      match skip with
      | S n => split_go sep n cur s'
      | O =>
          if startsWith sep s
          then rev_string EmptyString cur
                 :: split_go sep (String.length sep - 1) EmptyString s'
          else split_go sep 0 (String c cur) s'
      end
  end.

Definition split (sep s : string) : list string :=
  split_go sep 0 EmptyString s.

(** [s.split(/[\s\r]+/)]: fields separated by maximal runs of white space; a
    leading or a trailing run yields an empty first or last field. *)
Fixpoint splitWs_go (inRun : bool) (cur : string) (s : string) : list string :=
  match s with
  | EmptyString => [rev_string EmptyString cur]
  | String c s' =>
      if isWhiteSpace c
      then if inRun then splitWs_go true cur s'
           else rev_string EmptyString cur :: splitWs_go true EmptyString s'
      else splitWs_go false (String c cur) s'
  end.

Definition splitWs (s : string) : list string := splitWs_go false EmptyString s.

Fixpoint trimStart (s : string) : string :=
  match s with
  | String c s' => if isWhiteSpace c then trimStart s' else s
  | EmptyString => EmptyString
  end.

(** [s.trim()]. *)
Definition trim (s : string) : string :=
  rev_string EmptyString
    (trimStart (rev_string EmptyString (trimStart s))).

(** [arr.join(sep)]. *)
Fixpoint join (sep : string) (l : list string) : string :=
  match l with
  | [] => EmptyString
  | [x] => x
  | x :: l' => (x ++ sep ++ join sep l')%string
  end.

(** [arr.indexOf(x)], with -1 for an absent element. *)
Fixpoint indexOf_from (i : Z) (x : string) (l : list string) : Z :=
  match l with
  | [] => (-1)%Z
  | y :: l' => if String.eqb y x then i else indexOf_from (i + 1)%Z x l'
  end.

Definition indexOf (l : list string) (x : string) : Z := indexOf_from 0%Z x l.

(** [arr[i]]: [undefined] outside the array, also for the index -1. *)
Definition at_index (l : list string) (i : Z) : option string :=
  if (i <? 0)%Z then None else l !! Z.to_nat i.

(** [n.toString()] for an integer. *)
Definition toStringZ (n : Z) : string :=
  DecimalString.NilZero.string_of_int (Z.to_int n).

(** [format] of vscode-nls for a message with the one placeholder [{0}];
    [skip] counts the placeholder characters still to be passed. *)
Fixpoint format0_go (arg : string) (skip : nat) (fmt : string) : string :=
  match fmt with
  | EmptyString => EmptyString
  | String c fmt' =>
      match skip with
      | S n => format0_go arg n fmt'
      | O =>
          if startsWith "{0}" fmt
          then (arg ++ format0_go arg 2 fmt')%string
          else String c (format0_go arg 0 fmt')
      end
  end.

Definition format0 (fmt arg : string) : string := format0_go arg 0 fmt.

(** **** Backtracking matchers

    A matcher reads a prefix of its input and hands the unread rest to its
    continuation; a continuation that fails makes the matcher try its next
    alternative, as the backtracking of a JavaScript regular expression. *)
Section Matchers.
Context {R : Type}.

Definition orElse (a b : option R) : option R :=
  match a with
  | Some r => Some r
  | None => b
  end.

(** One character of the class [p]. *)
Definition mChar (p : ascii -> bool) (k : string -> option R) (s : string)
  : option R :=
  match s with
  | String c s' => if p c then k s' else None
  | EmptyString => None
  end.

(** The characters of [lit] in turn, each compared by [eq]. *)
Fixpoint mLit (eq : ascii -> ascii -> bool) (lit : string)
  (k : string -> option R) (s : string) : option R :=
  match lit with
  | EmptyString => k s
  | String a lit' => mChar (eq a) (mLit eq lit' k) s
  end.

(** Greedy [p*]: the longest run first, then shorter ones. *)
Fixpoint mStar (p : ascii -> bool) (k : string -> option R) (s : string)
  : option R :=
  match s with
  | String c s' => if p c then orElse (mStar p k s') (k s) else k s
  | EmptyString => k s
  end.

(** Greedy [p+]. *)
Definition mPlus (p : ascii -> bool) (k : string -> option R) : string -> option R :=
  mChar p (mStar p k).

(** Greedy [p?]. *)
Definition mOpt (p : ascii -> bool) (k : string -> option R) (s : string)
  : option R :=
  orElse (mChar p k s) (k s).

(** Greedy [p{0,n}]. *)
Fixpoint mUpTo (n : nat) (p : ascii -> bool) (k : string -> option R)
  (s : string) : option R :=
  match n with
  | O => k s
  | S n' => orElse (mChar p (mUpTo n' p k) s) (k s)
  end.

(** [exec] from index 0: the leftmost start offset at which [m] matches. *)
Fixpoint search (m : string -> option R) (s : string) : option R :=
  orElse (m s)
    match s with
    | String _ s' => search m s'
    | EmptyString => None
    end.

End Matchers.

(** Multiline [$]: at the end of the input or before a line terminator. *)
Definition atLineEnd (s : string) : bool :=
  match s with
  | EmptyString => true
  | String c _ => isLineTerminator c
  end.

(** The matched text of every match of a global regular expression, found as
    the loop [while (match) { ...; match = re.exec(s) }] finds them: after a
    match, the search resumes where it ended.  [m] returns the unread rest of
    a match at the start of its input; [skip] counts the characters of the
    last match still to be passed. *)
Fixpoint execAll (m : string -> option string) (skip : nat) (s : string)
  : list string :=
  match s with
  | EmptyString => []
  | String _ s' =>
      match skip with
      | S n => execAll m n s'
      | O =>
          match m s with
          | Some rest =>
              matched s rest
                :: execAll m (String.length s - String.length rest - 1) s'
          | None => execAll m 0 s'
          end
      end
  end.

(** [s.replace(re, "")] for a global regular expression. *)
Fixpoint removeAll (m : string -> option string) (skip : nat) (s : string)
  : string :=
  match s with
  | EmptyString => EmptyString
  | String c s' =>
      match skip with
      | S n => removeAll m n s'
      | O =>
          match m s with
          | Some rest =>
              if (String.length rest <? String.length s)%nat
              then removeAll m (String.length s - String.length rest - 1) s'
              else String c (removeAll m 0 s')
          | None => String c (removeAll m 0 s')
          end
      end
  end.

(** An [Error] object: its name when one is set, its message, and the [code]
    property that file-system and spawn errors carry. *)
Record JsError := mkError {
  errorName : option string;
  message : string;
  code : option string
}.

Definition newError (msg : string) : JsError := mkError None msg None.

(** What a promise settles to. *)
Inductive Outcome (A : Type) :=
| Resolves (value : A)
| Rejects (err : JsError).
Arguments Resolves {A} value.
Arguments Rejects {A} err.

(** [p.then(f)]. *)
Definition andThen {A B} (p : Outcome A) (f : A -> Outcome B) : Outcome B :=
  match p with
  | Resolves a => f a
  | Rejects e => Rejects e
  end.

(** [p.catch(h)]. *)
Definition orCatch {A} (p : Outcome A) (h : JsError -> Outcome A) : Outcome A :=
  match p with
  | Resolves a => Resolves a
  | Rejects e => h e
  end.

(** [a === b] on string values that may be [undefined]. *)
Definition strictEq (a b : option string) : bool :=
  match a, b with
  | Some x, Some y => String.eqb x y
  | None, None => true
  | _, _ => false
  end.

End Js.

(** *** The Ionic dev-server readiness detector ([startIonicDevServer]) *)
Module IonicDevServer.
Import Js.

(** [enum IonicDevServerStatus]. *)
Inductive IonicDevServerStatus := ServerReady | AppReady.

(** A property of the launch arguments that should hold a number. *)
Inductive JsProp := Absent | NotANumber | Number (n : Z).

(** A number, by what the detector does with a delay: it tests it
    ([n || d]), prints it into a message and hands it to [setTimeout]; it
    does no arithmetic on it.  [falsy] holds of zero and of [NaN]; [printed]
    is [String(n)], as [5000], [1500.5] or [1e+21]. *)
Record JsNumber := mkNumber {
  falsy : bool;
  printed : string
}.

Record LaunchArgs := mkLaunchArgs {
  cwd : string;
  runArguments : option (list string);
  devServerAddress : option string;
  devServerPort : JsProp;
  devServerTimeout : option JsNumber;
  ionicLiveReload : option bool
}.

(** What the promise [serverStarting] is rejected with. *)
Inductive Rejection :=
| RejText (text : string)       (* reject(localize(...)): a bare string *)
| RejError (message : string)   (* reject(new Error(message)) *)
| RejSpawn (code : option string). (* reject(err): the process's own error *)

(** Settlement of a promise: the first [resolve] or [reject] wins. *)
Inductive Settled (A : Type) :=
| Pending
| Fulfilled (value : A)
| Rejected (reason : Rejection).
Arguments Pending {A}.
Arguments Fulfilled {A} value.
Arguments Rejected {A} reason.

(** The two callbacks handed to [setTimeout]. *)
Inductive TimerCallback := ServerReadyTimedOut | AppReadyTimedOut.

(** Second argument of [outputLogger]. *)
Inductive LogArg := NoArg | ArgTrue | ArgChannel (channel : string).

(** The calls the detector makes on its collaborators, in order. *)
Inductive Call :=
| SetTimeout (id : nat) (cb : TimerCallback) (ms : JsNumber)
| ClearTimeout (id : nat)
| Resolve (serverUrls : option (list string))
| Reject (reason : Rejection)
| OutputLogger (message : string) (arg : LogArg).

(** The variables the closures of [startIonicDevServer] share, the pending
    timers of the runtime, and the calls made so far. *)
Record DevServer := mkDevServer {
  serverReady : bool;             (* ionicLivereloadProcessStatus.serverReady *)
  appReady : bool;                (* ionicLivereloadProcessStatus.appReady *)
  serverOut : string;
  serverErr : string;
  rejectTimeout : nat;
  timers : gmap nat TimerCallback;
  nextTimer : nat;
  serverStarting : Settled (option (list string));
  launchPort : JsProp;            (* launchArgs.devServerPort *)
  ionicLivereloadProcess : bool;  (* false once set to null *)
  calls : list Call
}.

(** Events the runtime delivers to the registered callbacks. *)
Inductive Event :=
| StdoutData (data : string)
| StderrData (data : string)
| ProcessError (code : option string)
| ProcessExit
| TimerExpired (id : nat).

(** Handlers read and write the shared variables and may throw (a
    [TypeError]): [None] is a throw, which skips the rest of the handler. *)
Definition M (A : Type) : Type := DevServer -> option A * DevServer.

Definition ret {A} (a : A) : M A := fun st => (Some a, st).

Definition bind {A B} (m : M A) (f : A -> M B) : M B :=
  fun st =>
    match m st with
    | (Some a, st') => f a st'
    | (None, st') => (None, st')
    end.

Notation "x <- m ;; k" := (bind m (fun x => k))
  (at level 100, m at next level, right associativity).
Notation "m ;; k" := (bind m (fun _ => k))
  (at level 100, right associativity).

Definition get : M DevServer := fun st => (Some st, st).

Definition throwTypeError {A} : M A := fun st => (None, st).

Definition when (b : bool) (m : M unit) : M unit := if b then m else ret tt.

Definition record (c : Call) (st : DevServer) : DevServer :=
  mkDevServer (serverReady st) (appReady st) (serverOut st) (serverErr st)
    (rejectTimeout st) (timers st) (nextTimer st) (serverStarting st)
    (launchPort st) (ionicLivereloadProcess st) (calls st ++ [c]).

Definition setTimeout (cb : TimerCallback) (ms : JsNumber) : M nat := fun st =>
  let id := nextTimer st in
  (Some id,
   record (SetTimeout id cb ms)
     (mkDevServer (serverReady st) (appReady st) (serverOut st) (serverErr st)
        (rejectTimeout st) (<[id := cb]> (timers st)) (S id)
        (serverStarting st) (launchPort st) (ionicLivereloadProcess st)
        (calls st))).

Definition clearTimeout (id : nat) : M unit := fun st =>
  (Some tt,
   record (ClearTimeout id)
     (mkDevServer (serverReady st) (appReady st) (serverOut st) (serverErr st)
        (rejectTimeout st) (delete id (timers st)) (nextTimer st)
        (serverStarting st) (launchPort st) (ionicLivereloadProcess st)
        (calls st))).

Definition settle (v : Settled (option (list string))) (st : DevServer)
  : DevServer :=
  mkDevServer (serverReady st) (appReady st) (serverOut st) (serverErr st)
    (rejectTimeout st) (timers st) (nextTimer st)
    match serverStarting st with
    | Pending => v
    | settled => settled
    end
    (launchPort st) (ionicLivereloadProcess st) (calls st).

Definition _resolve (serverUrls : option (list string)) : M unit := fun st =>
  (Some tt, record (Resolve serverUrls) (settle (Fulfilled serverUrls) st)).

Definition reject (reason : Rejection) : M unit := fun st =>
  (Some tt, record (Reject reason) (settle (Rejected reason) st)).

Definition outputLogger (message : string) (arg : LogArg) : M unit := fun st =>
  (Some tt, record (OutputLogger message arg) st).

Definition set_serverReady (b : bool) : M unit := fun st =>
  (Some tt,
   mkDevServer b (appReady st) (serverOut st) (serverErr st)
     (rejectTimeout st) (timers st) (nextTimer st) (serverStarting st)
     (launchPort st) (ionicLivereloadProcess st) (calls st)).

Definition set_appReady (b : bool) : M unit := fun st =>
  (Some tt,
   mkDevServer (serverReady st) b (serverOut st) (serverErr st)
     (rejectTimeout st) (timers st) (nextTimer st) (serverStarting st)
     (launchPort st) (ionicLivereloadProcess st) (calls st)).

Definition set_rejectTimeout (id : nat) : M unit := fun st =>
  (Some tt,
   mkDevServer (serverReady st) (appReady st) (serverOut st) (serverErr st)
     id (timers st) (nextTimer st) (serverStarting st)
     (launchPort st) (ionicLivereloadProcess st) (calls st)).

Definition append_serverOut (data : string) : M unit := fun st =>
  (Some tt,
   mkDevServer (serverReady st) (appReady st) (serverOut st ++ data)%string
     (serverErr st) (rejectTimeout st) (timers st) (nextTimer st)
     (serverStarting st) (launchPort st) (ionicLivereloadProcess st)
     (calls st)).

Definition append_serverErr (data : string) : M unit := fun st =>
  (Some tt,
   mkDevServer (serverReady st) (appReady st) (serverOut st)
     (serverErr st ++ data)%string (rejectTimeout st) (timers st)
     (nextTimer st) (serverStarting st) (launchPort st)
     (ionicLivereloadProcess st) (calls st)).

Definition set_launchPort (p : JsProp) : M unit := fun st =>
  (Some tt,
   mkDevServer (serverReady st) (appReady st) (serverOut st) (serverErr st)
     (rejectTimeout st) (timers st) (nextTimer st) (serverStarting st)
     p (ionicLivereloadProcess st) (calls st)).

Definition set_processNull : M unit := fun st =>
  (Some tt,
   mkDevServer (serverReady st) (appReady st) (serverOut st) (serverErr st)
     (rejectTimeout st) (timers st) (nextTimer st) (serverStarting st)
     (launchPort st) false (calls st)).

(** The timer [id] leaves the table of pending timers as it fires. *)
Definition expire (id : nat) : M unit := fun st =>
  (Some tt,
   mkDevServer (serverReady st) (appReady st) (serverOut st) (serverErr st)
     (rejectTimeout st) (delete id (timers st)) (nextTimer st)
     (serverStarting st) (launchPort st) (ionicLivereloadProcess st)
     (calls st)).

(** **** The regular expressions *)

Definition accept (s : string) : option string := Some s.

Definition test (m : string -> option string) (s : string) : bool :=
  match search m s with
  | Some _ => true
  | None => false
  end.

(** [/error:.*/i], giving [errorMatch[0]]. *)
Definition errorRegex (s : string) : option string :=
  option_map (matched s) (mLit eqCI "error:" (mStar dot accept) s).

(** [/utils-network error while checking/.test(channel)]. *)
Definition skipErrorMatch (channel : string) : bool :=
  includes "utils-network error while checking" channel.

(** The regular expression [SERVER_URL_RE], flags [gmi]: one of
    [dev server running], [Running dev server], [Local]; a colon; any run of
    characters of the line; then the capture group 2, which is [http://], one
    character of the line and a run of characters that are no white space. *)
Definition SERVER_URL_RE (s : string) : option string :=
  let url g :=
    option_map (matched g)
      (mLit eqCI "http://" (mChar dot (mStar notWhiteSpace accept)) g) in
  let tail := mLit eqCI ":" (mStar dot url) in
  orElse (mLit eqCI "dev server running" tail s)
    (orElse (mLit eqCI "Running dev server" tail s)
       (mLit eqCI "Local" tail s)).

(** The regular expression for the external addresses, flags [im]:
    [External:], one white space, then the capture group 1, the rest of the
    line up to the multiline end-of-line anchor. *)
Definition EXTERNAL_RE (s : string) : option string :=
  mLit eqCI "External:"
    (mChar isWhiteSpace
       (fun g =>
          mStar dot
            (fun rest => if atLineEnd rest then Some (matched g rest) else None)
            g))
    s.

(** [addressRegex], flags [gm]: digits, a closing parenthesis, a space and
    the rest of the line, all of it the capture group 1.  The matcher gives
    the unread rest. *)
Definition addressRegex (s : string) : option string :=
  mPlus isDigit (mLit eqCS ") " (mStar dot accept)) s.

(** [iosDeviceAppReadyRegex], flag [i]: either [created bundle at path], or
    [(lldb)], one or more non-word characters, [run], an optional CR, LF and
    [success]. *)
Definition iosDeviceAppReadyRegex (s : string) : option string :=
  orElse (mLit eqCI "created bundle at path" accept s)
    (mLit eqCI "(lldb)"
       (mPlus notWordChar
          (mLit eqCI "run"
             (mOpt (Ascii.eqb CR)
                (mChar (Ascii.eqb LF) (mLit eqCI "success" accept)))))
       s).

(** [/build succeeded/i]. *)
Definition iosSimulatorAppReadyRegex (s : string) : option string :=
  mLit eqCI "build succeeded" accept s.

(** [/launch success|run successful/i]. *)
Definition appReadyRegex (s : string) : option string :=
  orElse (mLit eqCI "launch success" accept s)
    (mLit eqCI "run successful" accept s).

(** The final-byte class [[0-9A-ORZcf-nqry=><]] of [ansiRegex]. *)
Definition ansiFinal (c : ascii) : bool :=
  isDigit c || between 65 79 c || Ascii.eqb c "R"%char || Ascii.eqb c "Z"%char
  || Ascii.eqb c "c"%char || between 102 110 c || Ascii.eqb c "q"%char
  || Ascii.eqb c "r"%char || Ascii.eqb c "y"%char || Ascii.eqb c "="%char
  || Ascii.eqb c ">"%char || Ascii.eqb c "<"%char.

(** The class [[[()#;?]] of [ansiRegex]. *)
Definition ansiIntro (c : ascii) : bool :=
  Ascii.eqb c "["%char || Ascii.eqb c "("%char || Ascii.eqb c ")"%char
  || Ascii.eqb c "#"%char || Ascii.eqb c ";"%char || Ascii.eqb c "?"%char.

(** The greedy repetition of the group made of [;] and up to four digits;
    every round reads a [;], so the number of rounds is bounded by the length
    of the input. *)
Fixpoint ansiParams (fuel : nat) (k : string -> option string) (s : string)
  : option string :=
  match fuel with
  | O => k s
  | S fuel' =>
      orElse
        (mChar (Ascii.eqb ";"%char) (mUpTo 4 isDigit (ansiParams fuel' k)) s)
        (k s)
  end.

(** [ansiRegex], flag [g]: ESC or CSI, a run of intro characters, optionally
    one to four digits followed by the repeated [;] groups, and one final
    character.  The matcher gives the unread rest. *)
Definition ansiRegex (s : string) : option string :=
  mChar (fun c => Ascii.eqb c "027"%char || Ascii.eqb c "155"%char)
    (mStar ansiIntro
       (fun g =>
          orElse
            (mChar isDigit
               (mUpTo 3 isDigit
                  (ansiParams (String.length g) (mChar ansiFinal accept)))
               g)
            (mChar ansiFinal accept g)))
    s.

Definition stripAnsi (url : string) : string := removeAll ansiRegex 0 url.

(** **** The function and its closures *)

(** [localize(key, message, arg)] in the default language. *)
Definition localize (key message arg : string) : string := format0 message arg.

(** [v || d] for a number that may be [undefined]. *)
Definition orDefault (v : option Z) (d : Z) : Z :=
  match v with
  | Some n => if (n =? 0)%Z then d else n
  | None => d
  end.

(** [v || d] for a delay that may be [undefined]. *)
Definition numberOr (v : option JsNumber) (d : JsNumber) : JsNumber :=
  match v with
  | Some n => if falsy n then d else n
  | None => d
  end.

Definition renderBool (v : option bool) : string :=
  match v with
  | Some true => "true"%string
  | Some false => "false"%string
  | None => "undefined"%string
  end.

Definition isSome {A} (o : option A) : bool :=
  match o with
  | Some _ => true
  | None => false
  end.

Definition portMessage : string :=
  ("The value for " ++ dquote ++ "devServerPort" ++ dquote
   ++ " must be a number between 0 and 65535")%string.

Definition multipleAddressesMessage : string :=
  ("Your machine has multiple network addresses. Please specify which one your device or emulator will use to communicate with the dev server by adding a "
   ++ dquote ++ "devServerAddress" ++ dquote ++ ": " ++ dquote ++ "ADDRESS"
   ++ dquote ++ " property to .vscode/launch.json."
   ++ String LF "    To get the list of addresses run "
   ++ dquote ++ "ionic cordova run PLATFORM --livereload" ++ dquote
   ++ " (where PLATFORM is platform name to run) and wait until prompt with this list is appeared.")%string.

Definition invalidAddressMessage : string :=
  ("Invalid address: please provide a valid IP address or hostname for the "
   ++ dquote ++ "devServerAddress" ++ dquote
   ++ " property in launch.json")%string.

Section Detector.
Variable EOL : string.                                  (* os.EOL *)
Variable getPortFromURL : string -> Z.     (* CordovaProjectHelper's *)
Variable isIonicCliVersionGte : string -> string -> bool. (* the same *)
Variable launchArgs : LaunchArgs.

(** The first statements: the address and the port go to the command line
    when the launch configuration has no run arguments of its own. *)
Definition prepareCliArgs (cliArgs : list string) : Rejection + list string :=
  if match runArguments launchArgs with
     | None => true
     | Some l => (length l =? 0)%nat
     end
  then
    let cliArgs1 :=
      if truthy (devServerAddress launchArgs)
      then cliArgs ++ ["--address"%string; render (devServerAddress launchArgs)]
      else cliArgs in
    match devServerPort launchArgs with
    | Absent => inr cliArgs1
    | Number n =>
        if ((0 <=? n) && (n <=? 65535))%Z
        then inr (cliArgs1 ++ ["--port"%string; toStringZ n])
        else inl (RejError portMessage)
    | NotANumber => inl (RejError portMessage)
    end
  else inr cliArgs.

Variable cliArgs : list string.

Definition isServe : bool :=
  match cliArgs with
  | x :: _ => String.eqb x "serve"
  | [] => false
  end.

Definition serverReadyTimeout : JsNumber :=
  numberOr (devServerTimeout launchArgs) (mkNumber false "60000").
Definition appReadyTimeout : JsNumber :=
  numberOr (devServerTimeout launchArgs) (mkNumber false "120000").
Definition isIonic4 : bool := isIonicCliVersionGte (cwd launchArgs) "4.0.0".

Definition getServerErrorMessage (channel : string) : option string :=
  if isIonic4 && skipErrorMatch channel then None
  else
    match search errorRegex channel with
    | Some errorMatch0 =>
        Some (localize "ErrorInTheIonicLiveReloadServer"
                "Error in the Ionic live reload server: {0}"
                (EOL ++ errorMatch0))
    | None => None
    end.

Definition has (x : string) : bool := negb (indexOf cliArgs x =? -1)%Z.

Definition getRegexToResolveAppDefer : string -> option string :=
  let isIosDevice := has "ios" && has "--device" in
  let isIosSimulator := has "ios" && has "emulate" in
  if isIosDevice then iosDeviceAppReadyRegex
  else if isIosSimulator then iosSimulatorAppReadyRegex
  else appReadyRegex.

Definition resolveIfPossible (ready : IonicDevServerStatus)
  (serverUrls : option (list string)) : M unit :=
  st <- get ;;
  match ready with
  | ServerReady =>
      when (negb (serverReady st))
        (clearTimeout (rejectTimeout st) ;;
         set_serverReady true ;;
         outputLogger "Building and deploying app" NoArg ;;
         id <- setTimeout AppReadyTimedOut appReadyTimeout ;;
         set_rejectTimeout id)
  | AppReady =>
      when (serverReady st)
        (clearTimeout (rejectTimeout st) ;;
         set_appReady true ;;
         _resolve serverUrls)
  end.

Definition rejectOnError (channel : string) : M unit :=
  match getServerErrorMessage channel with
  | Some errorMsg => reject (RejError errorMsg)
  | None => ret tt
  end.

(** The list of URLs handed to [resolveIfPossible]: the captured local URL
    and the external ones. *)
Definition collectUrls (url out : string) : list string :=
  url ::
  match search EXTERNAL_RE out with
  | Some externalUrls1 => map trim (split ", " externalUrls1)
  | None => []
  end.

Definition multipleInterfacesMessage (out : string) : string :=
  let addresses := execAll addressRegex 0 out in
  if (0 <? length addresses)%nat
  then (multipleAddressesMessage
        ++ join (EOL ++ " ") (" Available addresses:"%string :: addresses))%string
  else multipleAddressesMessage.

Definition serverOutputHandler (data : string) : M unit :=
  append_serverOut data ;;
  outputLogger data (ArgChannel "stdout") ;;
  st <- get ;;
  let localServerMatchResult := search SERVER_URL_RE (serverOut st) in
  when (negb (serverReady st) && isSome localServerMatchResult)
    (resolveIfPossible ServerReady None) ;;
  st <- get ;;
  when (serverReady st && negb (appReady st))
    (if isServe || test getRegexToResolveAppDefer (serverOut st)
     then
       match localServerMatchResult with
       | None => throwTypeError
       | Some url =>
           let serverUrls := collectUrls url (serverOut st) in
           set_launchPort (Number (getPortFromURL url)) ;;
           resolveIfPossible AppReady (Some serverUrls)
       end
     else ret tt) ;;
  when (includes "Multiple network interfaces detected" (serverOut st))
    (reject (RejError (multipleInterfacesMessage (serverOut st)))) ;;
  rejectOnError (serverOut st).

Definition serverErrorOutputHandler (data : string) : M unit :=
  append_serverErr data ;;
  st <- get ;;
  rejectOnError (serverErr st).

Definition onStderr (data : string) : M unit :=
  when isIonic4 (serverOutputHandler data) ;;
  serverErrorOutputHandler data.

Definition onError (code : option string) : M unit :=
  if match code with
     | Some c => String.eqb c "ENOENT"
     | None => false
     end
  then reject (RejError "Ionic not found, please run 'npm install â€“g ionic' to install it globally")
  else reject (RejSpawn code).

Definition exitMessageFor (err : string) : string :=
  let exitMessage := "The Ionic live reload server exited unexpectedly"%string in
  match getServerErrorMessage err with
  | Some errorMsg =>
      if includes "getaddrinfo ENOTFOUND" errorMsg
         || includes "listen EADDRNOTAVAIL" errorMsg
      then (exitMessage ++ EOL
            ++ localize "InvalidAddress" invalidAddressMessage "")%string
      else (exitMessage ++ EOL ++ errorMsg)%string
  | None => exitMessage
  end.

Definition onExit : M unit :=
  set_processNull ;;
  st <- get ;;
  let exitMessage := exitMessageFor (serverErr st) in
  if negb (serverReady st) && negb (appReady st)
  then outputLogger exitMessage ArgTrue ;; reject (RejError exitMessage)
  else reject (RejError exitMessage).

Definition timedOut (cb : TimerCallback) : Rejection :=
  match cb with
  | ServerReadyTimedOut =>
      RejText (localize "StartingIonicDevServerTimedOut"
                 "Starting the Ionic dev server timed out ({0} ms)"
                 (printed serverReadyTimeout))
  | AppReadyTimedOut =>
      RejText (localize "BuildingAndDeployingTheAppTimedOut"
                 "Building and deploying the app timed out ({0} ms)"
                 (printed appReadyTimeout))
  end.

(** A timer fires only while it is pending; firing runs its callback. *)
Definition onTimer (id : nat) : M unit :=
  st <- get ;;
  match timers st !! id with
  | Some cb => expire id ;; reject (timedOut cb)
  | None => ret tt
  end.

Definition deliver (ev : Event) : M unit :=
  match ev with
  | StdoutData data => serverOutputHandler data
  | StderrData data => onStderr data
  | ProcessError code => onError code
  | ProcessExit => onExit
  | TimerExpired id => onTimer id
  end.

Definition step (st : DevServer) (ev : Event) : DevServer := snd (deliver ev st).

Definition run (events : list Event) (st : DevServer) : DevServer :=
  fold_left step events st.

(** The executor of [serverStarting], up to the registration of the
    handlers. *)
Definition executor : M unit :=
  id <- setTimeout ServerReadyTimedOut serverReadyTimeout ;;
  set_rejectTimeout id ;;
  outputLogger
    (localize "StartingIonicDevServer"
       "Starting Ionic dev server (live reload: {0})"
       (renderBool (ionicLiveReload launchArgs)))
    NoArg.

Definition created : DevServer :=
  mkDevServer false false EmptyString EmptyString 0 ∅ 0 Pending
    (devServerPort launchArgs) true [].

Definition started : DevServer := snd (executor created).

(** The continuation [serverStarting.then(...)]. *)
Definition onFulfilled (ionicDevServerUrls : option (list string))
  : Settled (list string) :=
  match ionicDevServerUrls with
  | None | Some [] =>
      Rejected (RejError "Unable to determine the Ionic dev server address, please try re-launching the debugger")
  | Some urls => Fulfilled (map stripAnsi urls)
  end.

Definition thenUrls (p : Settled (option (list string))) : Settled (list string) :=
  match p with
  | Pending => Pending
  | Fulfilled v => onFulfilled v
  | Rejected r => Rejected r
  end.

End Detector.

(** [startIonicDevServer(launchArgs, cliArgs)], with the events the runtime
    delivers afterwards: the settlement of the promise it returns. *)
Definition startIonicDevServer (EOL : string) (getPortFromURL : string -> Z)
  (isIonicCliVersionGte : string -> string -> bool)
  (launchArgs : LaunchArgs) (cliArgs : list string) (events : list Event)
  : Settled (list string) :=
  match prepareCliArgs launchArgs cliArgs with
  | inl r => Rejected r
  | inr cliArgs' =>
      thenUrls
        (serverStarting
           (run EOL getPortFromURL isIonicCliVersionGte launchArgs cliArgs'
              events (started launchArgs)))
  end.

End IonicDevServer.

(** *** Mobile targets ([IMobileTarget]) *)
Module MobileTarget.

Record IMobileTarget := mkTarget {
  name : option string;
  id : option string;
  isVirtualTarget : bool;
  isOnline : bool
}.

End MobileTarget.

(** *** [MobileTargetManager] *)
Module MobileTargetManager.
Import Js MobileTarget.

Definition couldNotRecognize (target : string) : JsError :=
  newError (format0 "Could not recognize type of the target {0}" target).

(** [isVirtualTarget(target)]: the promise of the [async] method. *)
Definition isVirtualTarget (target : string) : Outcome bool :=
  if includes "device" target then Resolves false
  else if includes "emulator" target then Resolves true
  else Rejects (couldNotRecognize target).

(** [target?.name || target?.id]. *)
Definition label (target : IMobileTarget) : option string :=
  or_else (name target) (MobileTarget.id target).

Section Manager.
(** What the implementation's [collectTargets] stores in [this.targets]. *)
Variable collectTargets : list IMobileTarget.
(** [window.showQuickPick], the interactive chooser. *)
Variable showQuickPick : list (option string) -> option string.

(** [getTargetList(filter)]: the list, and [this.targets] afterwards. *)
Definition getTargetList (targets : option (list IMobileTarget))
  (filter : option (IMobileTarget -> bool))
  : list IMobileTarget * list IMobileTarget :=
  let targets' :=
    match targets with
    | Some ts => ts
    | None => collectTargets
    end in
  (match filter with
   | Some f => List.filter f targets'
   | None => targets'
   end,
   targets').

(** [selectTarget(filter)]: the selected target, and the label lists the
    chooser was shown, in order. *)
Definition selectTarget (targets : option (list IMobileTarget))
  (filter : option (IMobileTarget -> bool))
  : option IMobileTarget * list (list (option string)) :=
  let targetList := fst (getTargetList targets filter) in
  let result0 :=
    match targetList with
    | t :: _ => label t
    | [] => None
    end in
  let '(result, shown) :=
    if (1 <? length targetList)%nat
    then (showQuickPick (map label targetList), [map label targetList])
    else (result0, []) in
  (List.find
     (fun target =>
        strictEq (name target) result || strictEq (MobileTarget.id target) result)
     targetList,
   shown).

End Manager.
End MobileTargetManager.

(** *** [AndroidCordovaPlatform]: attach channel and target resolution *)
Module AndroidCordovaPlatform.
Import Js MobileTarget.

(** **** [prepareForAttach]: the package name *)
Section PackagePromise.
Variable readFile : string -> Outcome string.            (* fs.promises.readFile *)
Variable path_join : string -> string -> string.         (* path.join *)
Variable ANDROID_MANIFEST_PATH : string.
Variable ANDROID_MANIFEST_PATH_8 : string.
(** [elementtree.XML(contents).attrib["package"]]. *)
Variable manifestPackage : string -> Outcome (option string).

Definition isENOENT (err : JsError) : bool := strictEq (code err) (Some "ENOENT"%string).

Definition packagePromise (cwd : string) : Outcome (option string) :=
  andThen
    (orCatch (readFile (path_join cwd ANDROID_MANIFEST_PATH))
       (fun err =>
          if isENOENT err
          then readFile (path_join cwd ANDROID_MANIFEST_PATH_8)
          else Rejects err))
    manifestPackage.

End PackagePromise.

(** **** [prepareForAttach]: the process id and the abstract socket *)

(** The test of the regular expression for a non-empty run of digits,
    anchored at both ends. *)
Fixpoint allDigits (s : string) : bool :=
  match s with
  | EmptyString => true
  | String c s' => isDigit c && allDigits s'
  end.

Definition isNumeric (s : string) : bool :=
  negb (String.eqb s EmptyString) && allDigits s.

(** What one round of a [for] loop over lines does. *)
Inductive LineResult :=
| Continue
| Return (value : option string)
| Throw (err : JsError).

Definition firstIs (c : ascii) (s : string) : bool :=
  match s with
  | String c' _ => Ascii.eqb c' c
  | EmptyString => false
  end.

Section FindAbstractName.
Variable runAdbCommand : list string -> Outcome string.
Variable pidofNotFoundError : string.   (* CordovaDebugSession.pidofNotFoundError *)
Variable PS_FIELDS_SPLITTER_RE : string -> list string. (* split by it *)
Variable appPackageName : option string.
Variable targetDevice : string.
(** The [TypeError] of [length] read on a path field that is [undefined],
    with the message of the engine. *)
Variable typeError : JsError.

Definition pidofCommandArguments : list string :=
  ["-s"; targetDevice; "shell"; "pidof"; render appPackageName]%string.
Definition getPidCommandArguments : list string :=
  ["-s"; targetDevice; "shell"; "ps"]%string.
Definition getSocketsCommandArguments : list string :=
  ["-s"; targetDevice; "shell"; "cat /proc/net/unix"]%string.

(** The body of the loop over the lines of [ps]. *)
Definition psLine (nameIdx pidIdx : Z) (line : string) : LineResult :=
  let fields :=
    List.filter (fun field => negb (String.eqb field EmptyString))
      (PS_FIELDS_SPLITTER_RE (trim line)) in
  if (Z.of_nat (length fields) <? nameIdx)%Z then Continue
  else if strictEq (at_index fields nameIdx) appPackageName
       then Return (at_index fields pidIdx)
       else Continue.

Fixpoint forLines (body : string -> LineResult) (lines : list string)
  : Outcome (option string) :=
  match lines with
  | [] => Resolves None
  | line :: lines' =>
      match body line with
      | Continue => forLines body lines'
      | Return v => Resolves v
      | Throw e => Rejects e
      end
  end.

Definition parsePs (psResult : string) : Outcome (option string) :=
  let lines := split (String LF EmptyString) psResult in
  let keys := PS_FIELDS_SPLITTER_RE (hd EmptyString lines) in
  let nameIdx := indexOf keys "NAME" in
  let pidIdx := indexOf keys "PID" in
  forLines (psLine nameIdx pidIdx) (tl lines).

(** The body of the loop over the lines of [/proc/net/unix]. *)
Definition socketLine (flagsIdx stIdx pathIdx : Z) (pid : option string)
  (line : string) : LineResult :=
  let fields := splitWs line in
  if (length fields <? 8)%nat then Continue
  else if negb (strictEq (at_index fields flagsIdx) (Some "00010000"%string))
          || negb (strictEq (at_index fields stIdx) (Some "01"%string))
  then Continue
  else
    match at_index fields pathIdx with
    | None => Throw typeError
    | Some pathField =>
        if (String.length pathField <? 1)%nat || negb (firstIs "@" pathField)
        then Continue
        else if negb (includes "_devtools_remote" pathField) then Continue
        else if String.eqb pathField ("@webview_devtools_remote_" ++ render pid)
        then Return (Some (substr1 pathField))
        else if String.eqb pathField
                  ("@" ++ render appPackageName ++ "_devtools_remote")
        then Return (Some (substr1 pathField))
        else Continue
    end.

Definition parseSockets (pid : option string) (getSocketsResult : string)
  : Outcome (option string) :=
  let lines := split (String LF EmptyString) getSocketsResult in
  let keys := splitWs (hd EmptyString lines) in
  let flagsIdx := indexOf keys "Flags" in
  let stIdx := indexOf keys "St" in
  let pathIdx := indexOf keys "Path" in
  forLines (socketLine flagsIdx stIdx pathIdx pid) (tl lines).

(** The first two links of the chain: [pidof], and on the marker error the
    listing of processes. *)
Definition findPid : Outcome (option string) :=
  orCatch
    (andThen (runAdbCommand pidofCommandArguments)
       (fun pid =>
          if truthy (Some pid) && isNumeric (trim pid)
          then Resolves (Some (trim pid))
          else Rejects (newError pidofNotFoundError)))
    (fun err =>
       if negb (String.eqb (message err) pidofNotFoundError)
       then Resolves None
       else andThen (runAdbCommand getPidCommandArguments) parsePs).

Definition findAbstractNameFunction : Outcome (option string) :=
  andThen findPid
    (fun pid =>
       andThen (runAdbCommand getSocketsCommandArguments) (parseSockets pid)).

End FindAbstractName.

(** **** The retry around [findAbstractNameFunction] *)

Inductive RetryStep :=
| Attempt (iteration : nat)
| Delay (ms : Z).

(** [CANCELLATION_ERROR_NAME]. *)
Definition CANCELLATION_ERROR_NAME : string := "tokenCanceled".

Definition cancelError : JsError :=
  mkError (Some CANCELLATION_ERROR_NAME) CANCELLATION_ERROR_NAME None.

Section Retry.
Context {A : Type}.
Variable func : nat -> Outcome A.        (* the attempt made at each iteration *)
Variable condition : A -> bool.
Variable delay : Z.
Variable failure : string.
(** The token's [isCancellationRequested], as read after each attempt. *)
Variable isCancellationRequested : nat -> bool.

(** Modelled from the spec: the retry loop of [retryAsync] (extension
    helpers), which the platform imports and the sources do not hold.  An
    attempt that settles with a value the condition accepts ends the retry
    with that value; any other attempt is followed, unless cancellation was
    requested (then the cancellation error is surfaced), by the fixed delay
    and the next attempt, up to the attempt count; past it the given failure
    is surfaced.  [remaining] counts the attempts left after this one. *)
Fixpoint retryAsync_from (remaining iteration : nat)
  : Outcome A * list RetryStep :=
  let retry :=
    if isCancellationRequested iteration then (Rejects cancelError, [])
    else
      match remaining with
      | O => (Rejects (newError failure), [])
      | S remaining' =>
          let '(r, steps) := retryAsync_from remaining' (S iteration) in
          (r, Delay delay :: steps)
      end in
  let '(r, steps) :=
    match func iteration with
    | Resolves result => if condition result then (Resolves result, []) else retry
    | Rejects _ => retry
    end in
  (r, Attempt iteration :: steps).

End Retry.

(** Modelled from the spec: [retryAsync(func, condition, maxRetries,
    iteration, delay, failure, cancellationToken)], with its arguments in the
    order of the call in [prepareForAttach]. *)
Definition retryAsync {A} (func : nat -> Outcome A) (condition : A -> bool)
  (maxRetries iteration : nat) (delay : Z) (failure : string)
  (isCancellationRequested : nat -> bool) : Outcome A * list RetryStep :=
  retryAsync_from func condition delay failure isCancellationRequested
    (maxRetries - iteration) iteration.

(** The call of [retryAsync] in [prepareForAttach]; [runAdbCommand i] answers
    the commands of the attempt [i]. *)
Definition findAbstractName (runAdbCommand : nat -> list string -> Outcome string)
  (pidofNotFoundError : string) (PS_FIELDS_SPLITTER_RE : string -> list string)
  (appPackageName : option string) (targetDevice : string)
  (typeError : JsError) (isCancellationRequested : nat -> bool)
  : Outcome (option string) * list RetryStep :=
  retryAsync
    (fun i =>
       findAbstractNameFunction (runAdbCommand i) pidofNotFoundError
         PS_FIELDS_SPLITTER_RE appPackageName targetDevice typeError)
    truthy 5 1 5000 "Unable to find 'localabstract' name of Cordova app"
    isCancellationRequested.

(** **** [resolveAndroidTarget] *)

Record Resolution := mkResolution {
  returned : Outcome (option IMobileTarget);
  configTarget : option string;            (* configArgs.target afterwards *)
  updateLaunchScenario : list (option string) (* the targets written, in order *)
}.

Section ResolveAndroidTarget.
Variable getOnlineTargets : list IMobileTarget.     (* adbHelper.getOnlineTargets() *)
Variable isVirtualTargetOf : string -> Outcome bool. (* the manager's isVirtualTarget *)
Variable selectAndPrepareTarget :
  (IMobileTarget -> bool) -> Outcome (option IMobileTarget).

Definition getFirstOnlineAndroidTarget (target : option string) : Resolution :=
  match getOnlineTargets with
  | firstDevice :: _ =>
      mkResolution (Resolves (Some firstDevice)) (MobileTarget.id firstDevice) []
  | [] => mkResolution (Resolves None) target []
  end.

Definition sameClass (target device : IMobileTarget) : bool :=
  Bool.eqb (isVirtualTarget target) (isVirtualTarget device).

Definition saveResult (isAttachScenario : bool) (target : IMobileTarget)
  : list (option string) :=
  if isAttachScenario
  then
    let onlineDevices := getOnlineTargets in
    if (1 <? length (List.filter (sameClass target) onlineDevices))%nat
    then [name target]
    else []
  else [name target].

Definition resolveAndroidTarget (target : option string)
  (isAttachScenario : bool) : Resolution :=
  if truthy target
  then
    let isAnyEmulator := String.eqb (toLowerCase (render target)) "emulator" in
    let isAnyDevice := String.eqb (toLowerCase (render target)) "device" in
    match isVirtualTargetOf (render target) with
    | Rejects e => mkResolution (Rejects e) target []
    | Resolves isVirtualTarget' =>
        match
          selectAndPrepareTarget
            (fun t =>
               let conditionForAttachScenario :=
                 if isAttachScenario then isOnline t else true in
               let conditionForNotAnyTarget :=
                 if isAnyEmulator || isAnyDevice then true
                 else strictEq (name t) target
                      || strictEq (MobileTarget.id t) target in
               let conditionForVirtualTarget :=
                 Bool.eqb isVirtualTarget' (isVirtualTarget t) in
               conditionForVirtualTarget && conditionForNotAnyTarget
               && conditionForAttachScenario)
        with
        | Rejects e => mkResolution (Rejects e) target []
        | Resolves (Some targetDevice) =>
            mkResolution (Resolves (Some targetDevice))
              (MobileTarget.id targetDevice)
              (if isAnyEmulator || isAnyDevice
               then saveResult isAttachScenario targetDevice
               else [])
        | Resolves None =>
            if isAttachScenario && (isAnyEmulator || isAnyDevice)
            then getFirstOnlineAndroidTarget target
            else mkResolution (Resolves None) target []
        end
    end
  else
    match getFirstOnlineAndroidTarget target with
    | mkResolution (Resolves None) t u =>
        mkResolution
          (Rejects (newError "The 'target' parameter in the debug configuration is undefined, and there are no any online debuggable targets"))
          t u
    | r => r
    end.

End ResolveAndroidTarget.
(** **** [getCommandLineArgsForAndroidTarget] and [launchApp] *)

(** [error.message || error], as the logger renders it: an error without a
    message is rendered by its name. *)
Definition messageOrError (error : JsError) : string :=
  if negb (String.eqb (message error) EmptyString) then message error
  else match errorName error with
       | Some name => name
       | None => "Error"%string
       end.

Definition NO_LIVERELOAD_WARNING : string :=
  "Warning: Ionic live reload is currently only supported for Ionic 1 projects. Continuing deployment without Ionic live reload...".

(** [l && l.length] for an array that may be [undefined]. *)
Definition nonEmpty (l : option (list string)) : bool :=
  match l with
  | Some (_ :: _) => true
  | _ => false
  end.

Definition elements (l : option (list string)) : list string :=
  match l with
  | Some xs => xs
  | None => []
  end.

(** What [getCommandLineArgsForAndroidTarget] leaves: the arguments it
    returns, [launchArgs.target] afterwards, the targets written to the
    launch scenario, and the messages logged, each with its error flag. *)
Record TargetArgs := mkTargetArgs {
  targetArgs : list string;
  launchTarget : option string;
  savedTargets : list (option string);
  targetLog : list (string * bool)
}.

(** What [launchApp] leaves: the settlement of its promise, the command line
    built, whether the Ionic dev server was started with it, and the state
    left by [getCommandLineArgsForAndroidTarget]. *)
Record Launch := mkLaunch {
  launched : Outcome unit;
  commandLine : list string;
  devServerStarted : bool;
  targetAfterLaunch : option string;
  launchLog : list (string * bool)
}.

Section LaunchApp.
Variable getOnlineTargets : list IMobileTarget.
Variable isVirtualTargetOf : string -> Outcome bool.
Variable selectAndPrepareTarget :
  (IMobileTarget -> bool) -> Outcome (option IMobileTarget).
(** [CordovaProjectHelper.isIonicAngularProjectByProjectType(projectType)]. *)
Variable isIonicAngularProject : bool.
(** [this.ionicDevServer.startIonicDevServer(launchArgs, args)]. *)
Variable startIonicDevServer : list string -> Outcome (list string).
(** [cordovaRunCommand(command, args, ...)]: the standard output and the
    standard error of the command. *)
Variable cordovaRunCommand : list string -> Outcome (string * string).

(** The closure [useDefaultCLI]: [launchArgs.target] afterwards. *)
Definition useDefaultCLI : option string :=
  match getOnlineTargets with
  | firstDevice :: _ => MobileTarget.id firstDevice
  | [] => Some "emulator"%string
  end.

Definition getCommandLineArgsForAndroidTarget (target : option string)
  : TargetArgs :=
  let resolution :=
    resolveAndroidTarget getOnlineTargets isVirtualTargetOf
      selectAndPrepareTarget target false in
  let continue := ("Continue using standard CLI workflow."%string, false) in
  match returned resolution with
  | Resolves (Some target') =>
      mkTargetArgs
        ["--verbose"%string;
         if isVirtualTarget target' then "--emulator"%string
         else "--device"%string;
         ("--target=" ++ render (MobileTarget.id target'))%string]
        (configTarget resolution) (updateLaunchScenario resolution) []
  | Resolves None =>
      mkTargetArgs ["--verbose"%string] useDefaultCLI
        (updateLaunchScenario resolution)
        [(("Could not find debugable target '"
           ++ render (configTarget resolution) ++ "'.")%string, true);
         continue]
  | Rejects error =>
      mkTargetArgs ["--verbose"%string] useDefaultCLI
        (updateLaunchScenario resolution)
        [(messageOrError error, true); continue]
  end.

(** The test of the run: the standard output holds [ERROR], or the standard
    error holds [error:] in any case of its letters (each pattern goes on
    with the rest of the line, which every text supplies). *)
Definition errorMatch (runOutput stderr : string) : bool :=
  IonicDevServer.test (mLit eqCS "ERROR" (mStar dot IonicDevServer.accept))
    runOutput
  || IonicDevServer.test (mLit eqCI "error:" (mStar dot IonicDevServer.accept))
       stderr.

(** [launchApp(launchArgs, projectType, runArguments)], for the target, the
    run arguments and the live-reload flag of the launch arguments. *)
Definition launchApp (target : option string)
  (launchRunArguments : option (list string)) (ionicLiveReload : bool)
  (runArguments : option (list string)) : Launch :=
  let args0 := ["run"; "android"]%string in
  let '(args, target', log) :=
    if nonEmpty launchRunArguments
    then (args0 ++ elements launchRunArguments, target, [])
    else if nonEmpty runArguments
    then (args0 ++ elements runArguments, target, [])
    else
      let t := getCommandLineArgsForAndroidTarget target in
      let args1 := args0 ++ targetArgs t in
      if ionicLiveReload
      then if isIonicAngularProject
           then (args1 ++ ["--livereload"%string], launchTarget t, targetLog t)
           else (args1, launchTarget t,
                 targetLog t ++ [(NO_LIVERELOAD_WARNING, false)])
      else (args1, launchTarget t, targetLog t) in
  if (-1 <? indexOf args "--livereload")%Z
  then
    mkLaunch (andThen (startIonicDevServer args) (fun _ => Resolves tt))
      args true target' log
  else
    match cordovaRunCommand args with
    | Rejects error => mkLaunch (Rejects error) args false target' log
    | Resolves (runOutput, stderr) =>
        if errorMatch runOutput stderr
        then mkLaunch (Rejects (newError "Error running android")) args false
               target' log
        else mkLaunch (Resolves tt) args false target'
               (log ++ [("App successfully launched"%string, false)])
    end.

End LaunchApp.

(** **** [prepareForAttach]: the device, and the whole chain *)

(** A promise that may stay pending for ever. *)
Inductive Promise (A : Type) :=
| NeverSettles
| Settles (outcome : Outcome A).
Arguments NeverSettles {A}.
Arguments Settles {A} outcome.

(** What the executor of [resolveTagetPromise] leaves: the promise, the error
    thrown inside the [async] executor (which rejects the promise of the
    executor, not the promise under construction), and the messages logged
    as errors. *)
Record TargetPromise := mkTargetPromise {
  targetPromise : Promise (option string);
  thrownInExecutor : option JsError;
  loggedErrors : list string
}.

(** What [prepareForAttach] leaves: its promise, the device and the port
    recorded in [adbPortForwardingInfo], if they are, and the messages
    logged, each with its error flag. *)
Record Attach := mkAttach {
  attached : Promise unit;
  adbPortForwardingInfo : option (option string * string);
  attachLog : list (string * bool)
}.

Section PrepareForAttach.
Variable devices : Outcome string.   (* runAdbCommand(["devices"]) *)
(** [resolveAndroidTarget(attachArgs, true)], awaited after the devices. *)
Variable resolution : Resolution.

Definition resolveTagetPromise : TargetPromise :=
  match devices with
  | Rejects error =>
      mkTargetPromise NeverSettles
        (Some
           (if strictEq (code error) (Some "ENOENT"%string)
            then newError "Unable to find adb. Please ensure it is in your PATH and re-open Visual Studio Code"
            else error))
        []
  | Resolves devicesOutput =>
      match returned resolution with
      | Rejects error => mkTargetPromise (Settles (Rejects error)) None []
      | Resolves None =>
          mkTargetPromise
            (Settles
               (Rejects
                  (newError
                     ("Unable to find target "
                      ++ render (configTarget resolution)))))
            None [devicesOutput]
      | Resolves (Some result) =>
          mkTargetPromise (Settles (Resolves (MobileTarget.id result))) None []
      end
  end.

Variable packageName : Outcome (option string).   (* [packagePromise] *)
(** Whether [packagePromise] settles before [resolveTagetPromise]. *)
Variable packageFirst : bool.
(** The retry around [findAbstractNameFunction], for the package and the
    device. *)
Variable abstractNameOf :
  option string -> option string -> Outcome (option string).
Variable runAdbCommand : list string -> Outcome string.
Variable port : string.              (* attachArgs.port, rendered *)

Definition forwardSocketCommandArguments (targetDevice abstractName : option string)
  : list string :=
  ["-s"; render targetDevice; "forward"; "tcp:" ++ port;
   "localabstract:" ++ render abstractName]%string.

(** [prepareForAttach(attachArgs)]. *)
Definition prepareForAttach : Attach :=
  let errors := map (fun text => (text, true)) (loggedErrors resolveTagetPromise) in
  match packageName, targetPromise resolveTagetPromise with
  | Rejects error, NeverSettles => mkAttach (Settles (Rejects error)) None errors
  | Rejects error, Settles (Resolves _) =>
      mkAttach (Settles (Rejects error)) None errors
  | Rejects error, Settles (Rejects error') =>
      mkAttach (Settles (Rejects (if packageFirst then error else error')))
        None errors
  | Resolves _, NeverSettles => mkAttach NeverSettles None errors
  | Resolves _, Settles (Rejects error') =>
      mkAttach (Settles (Rejects error')) None errors
  | Resolves appPackageName, Settles (Resolves targetDevice) =>
      match abstractNameOf appPackageName targetDevice with
      | Rejects error => mkAttach (Settles (Rejects error)) None errors
      | Resolves abstractName =>
          let log := errors ++ [("Forwarding debug port"%string, false)] in
          match
            runAdbCommand
              (forwardSocketCommandArguments targetDevice abstractName)
          with
          | Rejects error => mkAttach (Settles (Rejects error)) None log
          | Resolves _ =>
              mkAttach (Settles (Resolves tt)) (Some (targetDevice, port)) log
          end
      end
  end.

End PrepareForAttach.

End AndroidCordovaPlatform.

(** *** [CordovaDebugSession.resolveAndSaveMobileTarget] *)
Module CordovaDebugSession.
Import Js MobileTarget.

Record RequestArgs := mkArgs {
  cwd : string;
  platform : option string;
  target : option string
}.

Section ResolveAndSave.
(** The mobile platform's methods. *)
Variable getTargetFromRunArgs : option string.
Variable resolveMobileTarget :
  string -> option (IMobileTarget -> bool) -> Outcome (option IMobileTarget).
Variable getTargetsCountByFilter : (IMobileTarget -> bool) -> Z.

(** The promise of the method, with the targets it has
    [updateLaunchScenario] write, in order. *)
Definition resolveAndSaveMobileTarget (args : RequestArgs)
  (isAttachRequest : bool) : Outcome (list (option string)) :=
  if truthy (target args) && negb (truthy getTargetFromRunArgs)
  then
    let isAnyTarget :=
      String.eqb (toLowerCase (render (target args))) "emulator"
      || String.eqb (toLowerCase (render (target args))) "device" in
    let additionalFilter :=
      if isAttachRequest then Some isOnline else None in
    andThen (resolveMobileTarget (render (target args)) additionalFilter)
      (fun resultTarget =>
         match resultTarget with
         | Some rt =>
             if isAnyTarget
             then
               let targetsCount :=
                 getTargetsCountByFilter
                   (fun t => Bool.eqb (isVirtualTarget t) (isVirtualTarget rt)) in
               if (1 <? targetsCount)%Z
               then
                 Resolves
                   [if strictEq (platform args) (Some "android"%string)
                    then name rt
                    else MobileTarget.id rt]
               else Resolves []
             else Resolves []
         | None => Resolves []
         end)
  else Resolves [].

End ResolveAndSave.
(** [enum TargetType] and [enum PlatformType]. *)
Module TargetType.
Definition Emulator : string := "emulator".
Definition Device : string := "device".
Definition Chrome : string := "chrome".
Definition Edge : string := "edge".
End TargetType.

Module PlatformType.
Definition Android : string := "android".
Definition IOS : string := "ios".
Definition Windows : string := "windows".
Definition Serve : string := "serve".
Definition AmazonFireos : string := "amazon_fireos".
Definition Blackberry10 : string := "blackberry10".
Definition Firefoxos : string := "firefoxos".
Definition Ubuntu : string := "ubuntu".
Definition Wp8 : string := "wp8".
Definition Browser : string := "browser".
End PlatformType.

(** **** The logger of the debug console *)

(** The optional second argument of a [DebugConsoleLogger]: left out, a
    boolean, or the name of a category. *)
Inductive ErrorArg :=
| NoError
| ErrorFlag (flag : bool)
| Category (name : string).

(** [new OutputEvent(output, category)]. *)
Record OutputEvent := mkOutputEvent {
  output : string;
  category : string
}.

(** The field [outputLogger]: the event it sends. *)
Definition outputLogger (message : string) (error : ErrorArg) : OutputEvent :=
  let category0 := "console"%string in
  let category1 :=
    match error with
    | ErrorFlag true => "stderr"%string
    | _ => category0
    end in
  let category2 :=
    match error with
    | Category name => name
    | _ => category1
    end in
  let newLine :=
    if String.eqb category2 "stdout" || String.eqb category2 "stderr"
    then EmptyString
    else String LF EmptyString in
  mkOutputEvent (message ++ newLine) category2.

(** **** [getTargetType] *)

Definition getTargetType (target : string) : string :=
  if IonicDevServer.test (mLit eqCI "emulator" IonicDevServer.accept) target
  then TargetType.Emulator
  else if IonicDevServer.test (mLit eqCI "chrom" IonicDevServer.accept) target
       then TargetType.Chrome
       else TargetType.Device.

(** **** [initializeSettings] *)

(** What [initializeSettings] does besides writing [args.target] and its
    flag, in order. *)
Inductive SettingsEffect :=
| GetWorkspaceManagerByProjectRootPath (cwd : string)
| LoggerSetup (verbose : bool)     (* Logger.LogLevel.Verbose, or Log *)
| SetCdpProxyLogLevel (custom : bool) (* LogLevel.Custom, or None *)
| NvmSupport
| Output (event : OutputEvent).

(** [initializeSettings(args)]: the flag [isSettingsInitialized] and the
    arguments afterwards, and the effects.  [trace] and [runtimeVersion] are
    the truthiness of these arguments. *)
Definition initializeSettings (isSettingsInitialized : bool)
  (trace runtimeVersion : bool) (args : RequestArgs)
  : bool * RequestArgs * list SettingsEffect :=
  if negb isSettingsInitialized
  then
    let effects :=
      [GetWorkspaceManagerByProjectRootPath (cwd args); LoggerSetup trace;
       SetCdpProxyLogLevel trace]
      ++ (if runtimeVersion then [NvmSupport] else []) in
    if negb (truthy (target args))
    then
      let target' :=
        if strictEq (platform args) (Some PlatformType.Browser)
        then "chrome"%string
        else TargetType.Emulator in
      (true, mkArgs (cwd args) (platform args) (Some target'),
       effects
       ++ [Output
             (outputLogger
                ("Parameter target is not set - " ++ target' ++ " will be used")
                NoError)])
    else (true, args, effects)
  else (isSettingsInitialized, args, []).

(** **** [showError] *)

(** [error.name], which an [Error] without a name of its own inherits. *)
Definition nameOf (error : JsError) : string :=
  match errorName error with
  | Some name => name
  | None => "Error"%string
  end.

(** [showError(error, response)]: the format of the error response it
    sends, if it sends one. *)
Definition showError (error : JsError) : option string :=
  if String.eqb (nameOf error) "tokenCanceled" then None
  else
    let errorString :=
      if negb (String.eqb (message error) EmptyString) then message error
      else if negb (String.eqb (nameOf error) EmptyString) then nameOf error
           else "Error"%string in
    Some errorString.

(** **** [resolvePlatform] *)

(** The classes of the platform objects. *)
Inductive AbstractPlatform := BrowserPlatform | AndroidPlatform | IosPlatform.

Section ResolvePlatform.
Variable isSimulateTarget : option string -> bool. (* SimulateHelper's *)
(** What comes before the choice: the three promises awaited together and
    the helpers that build the options; a rejection or a throw there is the
    outcome of the method. *)
Variable platformOptions : Outcome unit.

(** [resolvePlatform(args)]: the class of the platform it constructs. *)
Definition resolvePlatform (args : RequestArgs) : Outcome AbstractPlatform :=
  andThen platformOptions
    (fun _ =>
       if isSimulateTarget (target args) then Resolves BrowserPlatform
       else
         let case p := strictEq (platform args) (Some p) in
         if case PlatformType.Android then Resolves AndroidPlatform
         else if case PlatformType.IOS then Resolves IosPlatform
         else if case PlatformType.Serve || case PlatformType.Windows
                 || case PlatformType.AmazonFireos || case PlatformType.Blackberry10
                 || case PlatformType.Firefoxos || case PlatformType.Ubuntu
                 || case PlatformType.Wp8 || case PlatformType.Browser
         then Resolves BrowserPlatform
         else Rejects
                (newError
                   (format0 "Unknown Platform: {0}" (render (platform args))))).

End ResolvePlatform.

End CordovaDebugSession.

(** *** [CordovaPlatformResolver] *)
Module CordovaPlatformResolver.
Import Js.

(** [enum PlatformType], as this file declares it. *)
Module PlatformType.
Definition Android : string := "android".
Definition IOS : string := "ios".
Definition Windows : string := "windows".
Definition Serve : string := "serve".
Definition AmazonFireos : string := "amazon_fireos".
Definition Blackberry10 : string := "blackberry10".
Definition Firefoxos : string := "firefoxos".
Definition Ubuntu : string := "ubuntu".
Definition Wp8 : string := "wp8".
Definition Browser : string := "browser".
End PlatformType.

(** The classes of the platform objects [resolveCordovaPlatform] constructs. *)
Inductive GeneralCordovaPlatform :=
| BrowserCordovaPlatform
| AndroidCordovaPlatform
| IOSCordovaPlatform.

Section Resolver.
Variable isSimulateTarget : string -> bool.   (* SimulateHelper's *)

(** [resolveCordovaPlatform(platformString, targetString, platformDeps)]:
    the class of the object returned, or the error thrown. *)
Definition resolveCordovaPlatform (platformString targetString : string)
  : JsError + GeneralCordovaPlatform :=
  let case p := String.eqb platformString p in
  if case PlatformType.Android
  then if isSimulateTarget targetString
       then inr BrowserCordovaPlatform
       else inr AndroidCordovaPlatform
  else if case PlatformType.IOS
  then if isSimulateTarget targetString
       then inr BrowserCordovaPlatform
       else inr IOSCordovaPlatform
  else if case PlatformType.Windows
  then if isSimulateTarget targetString
       then inr BrowserCordovaPlatform
       else inl (newError
                   ("Debugging " ++ platformString
                    ++ " platform is not supported."))
  else if case PlatformType.Serve
  then inr BrowserCordovaPlatform
  else if case PlatformType.AmazonFireos
          || case PlatformType.Blackberry10
          || case PlatformType.Firefoxos
          || case PlatformType.Ubuntu
          || case PlatformType.Wp8
          || case PlatformType.Browser
  then inr BrowserCordovaPlatform
  else inl (newError (format0 "Unknown Platform: {0}" platformString)).

End Resolver.
End CordovaPlatformResolver.

(** *** [IOSCordovaPlatform] *)
Module IOSCordovaPlatform.
Import Js.

(** [this.NO_LIVERELOAD_WARNING], of [GeneralCordovaPlatform]. *)
Definition NO_LIVERELOAD_WARNING : string :=
  AndroidCordovaPlatform.NO_LIVERELOAD_WARNING.

(** **** [addBuildFlagToArgs] *)

(** [arr.findIndex(p)], with -1 when no element satisfies [p]. *)
Fixpoint findIndex_from (i : Z) (p : string -> bool) (l : list string) : Z :=
  match l with
  | [] => (-1)%Z
  | y :: l' => if p y then i else findIndex_from (i + 1)%Z p l'
  end.

Definition findIndex (p : string -> bool) (l : list string) : Z :=
  findIndex_from 0%Z p l.

(** [addBuildFlagToArgs(runArgs)]: the array it returns, which is the array
    it was given, changed in place. *)
Definition addBuildFlagToArgs (runArgs : list string) : list string :=
  let hasBuildFlag :=
    (-1 <? findIndex (fun arg => includes "--buildFlag" arg) runArgs)%Z in
  if negb hasBuildFlag
  then "--buildFlag=-UseModernBuildSystem=0"%string :: runArgs
  else runArgs.

(** **** [checkIfTargetIsiOSSimulator] *)

Definition invalidTarget : JsError :=
  newError "Invalid target. Please, check target parameter value in your debug configuration and make sure it's a valid iPhone device identifier. Proceed to https://aka.ms/AA3xq86 for more information.".

(** [s.replace(re, empty)] for a pattern without metacharacters and without
    the global flag: the first occurrence is removed. *)
Fixpoint removeFirst (lit s : string) : string :=
  if startsWith lit s then drop (String.length lit) s
  else match s with
       | String c s' => String c (removeFirst lit s')
       | EmptyString => EmptyString
       end.

Definition tab : string := String "009"%char EmptyString.

(** The lookahead for a comma: it reads nothing. *)
Definition beforeComma (k : string -> option string) (s : string)
  : option string :=
  match s with
  | String c _ => if Ascii.eqb c ","%char then k s else None
  | EmptyString => None
  end.

(** [value.match(re)[0]] for a global regular expression: the text of the
    leftmost match, and [None] for the [null] of no match. *)
Fixpoint firstMatch (m : string -> option string) (s : string)
  : option string :=
  match m s with
  | Some rest => Some (matched s rest)
  | None =>
      match s with
      | String _ s' => firstMatch m s'
      | EmptyString => None
      end
  end.

(** The callback of [map] over the lines of the list: any characters of a
    line followed by a comma, the first tab taken out. *)
Definition emulatorOf (value : string) : option string :=
  match firstMatch (mStar dot (beforeComma Some)) value with
  | None => None
  | Some text => Some (removeFirst tab text)
  end.

(** The list of the emulators, out of the output of the list command. *)
Definition emulators (output0 : string) : list (option string) :=
  map emulatorOf
    (split (String LF EmptyString)
       (removeFirst "Available iOS Simulators:" output0)).

(** [arr.indexOf(x)] for a string in an array of strings and [null]s. *)
Fixpoint indexOfEntry_from (i : Z) (x : string) (l : list (option string))
  : Z :=
  match l with
  | [] => (-1)%Z
  | y :: l' =>
      if strictEq y (Some x) then i else indexOfEntry_from (i + 1)%Z x l'
  end.

Definition indexOfEntry (l : list (option string)) (x : string) : Z :=
  indexOfEntry_from 0%Z x l.

(** What a function that is not [async] does: it throws, or it returns its
    promise. *)
Inductive Checked :=
| Throws (error : JsError)
| Returns (promise : Outcome unit).

Definition listCommand : list string := ["emulate"; "ios"; "--list"]%string.

(** The pattern of a banner between asterisks: asterisks, other characters,
    asterisks. *)
Definition isAsterisk (c : ascii) : bool := Ascii.eqb c "*"%char.

Definition banner : string -> option string :=
  mPlus isAsterisk
    (mPlus (fun c => negb (isAsterisk c)) (mPlus isAsterisk Some)).

(** How the promise of [launchApp] settles, if it does: a rejection carries
    an [Error] or a bare string. *)
Inductive Settlement :=
| Unsettled
| Fulfilled
| RejectedWith (error : JsError)
| RejectedWithText (text : string).

Definition settlement {A} (p : Outcome A) : Settlement :=
  match p with
  | Resolves _ => Fulfilled
  | Rejects error => RejectedWith error
  end.

(** The promise of [startIonicDevServer], as [launchApp] gets it: pending
    while the server shows no readiness, fulfilled with the addresses of the
    server, or rejected, with an [Error] or, by the detector when one of its
    deadlines expires, with a bare string. *)
Inductive DevServerStart :=
| StartPending
| Started (urls : list string)
| StartFailed (error : JsError)
| StartFailedWithText (text : string).

(** [promise.then(() => void 0)] on the promise of the dev server. *)
Definition voided (promise : DevServerStart) : Settlement :=
  match promise with
  | StartPending => Unsettled
  | Started _ => Fulfilled
  | StartFailed error => RejectedWith error
  | StartFailedWithText text => RejectedWithText text
  end.

(** What [launchApp] leaves: the settlement of its promise, the argument
    lists given to [cordovaRunCommand], in order, the arguments given to
    [startIonicDevServer], the port given to [startDebugProxy], and the
    messages logged, each with its error flag. *)
Record Launch := mkLaunch {
  launched : Settlement;
  commands : list (list string);
  devServerArgs : option (list string);
  debugProxyPort : option Z;
  launchLog : list (string * bool)
}.

Section LaunchApp.
Variable osPlatform : string.        (* os.platform() *)
(** The [TypeError] of [toLowerCase] read on a target that is [undefined]. *)
Variable typeError : JsError.
(** [CordovaProjectHelper.isIonicAngularProjectByProjectType(projectType)]. *)
Variable isIonicAngularProject : bool.
(** [this.ionicDevServer.startIonicDevServer(launchArgs, args)]. *)
Variable startIonicDevServer : list string -> DevServerStart.
(** [cordovaRunCommand(command, args, ...)], by the rank of the call: the
    standard output and the standard error of the command. *)
Variable cordovaRunCommand : nat -> list string -> Outcome (string * string).
(** [CordovaIosDeviceLauncher.startDebugProxy(iosDebugProxyPort)]. *)
Variable startDebugProxy : Z -> Outcome unit.

Definition checkIfTargetIsiOSSimulator (target : string) : Checked :=
  if String.eqb target CordovaDebugSession.TargetType.Emulator
  then Throws invalidTarget
  else
    Returns
      (andThen
         (andThen (cordovaRunCommand 0 listCommand)
            (fun output =>
               Resolves
                 (0 <=? indexOfEntry (emulators (fst output)) target)%Z))
         (fun result : bool =>
            if result then Rejects invalidTarget else Resolves tt)).

(** [launchApp(launchArgs, projectType, runArguments)], for the target, the
    run arguments, the live-reload flag and the proxy port of the launch
    arguments. *)
Definition launchApp (target : option string)
  (launchRunArguments : option (list string)) (ionicLiveReload : bool)
  (iosDebugProxyPort : option Z) (runArguments : option (list string))
  : Launch :=
  if negb (String.eqb osPlatform "darwin")
  then
    mkLaunch (RejectedWithText "Unable to launch iOS on non-mac machines")
      [] None None []
  else
    let log0 := [("Launching app (This may take a while)..."%string, false)] in
    let iosDebugProxyPort' := IonicDevServer.orDefault iosDebugProxyPort 9221 in
    match target with
    | None => mkLaunch (RejectedWith typeError) [] None None log0
    | Some target =>
        if String.eqb (toLowerCase target) CordovaDebugSession.TargetType.Device
        then
          let args0 := ["run"; "ios"; "--device"]%string in
          let '(args, log) :=
            if AndroidCordovaPlatform.nonEmpty launchRunArguments
            then
              (args0
               ++ addBuildFlagToArgs
                    (AndroidCordovaPlatform.elements launchRunArguments),
               log0)
            else if AndroidCordovaPlatform.nonEmpty runArguments
            then
              (args0
               ++ addBuildFlagToArgs
                    (AndroidCordovaPlatform.elements runArguments),
               log0)
            else
              let args1 := args0 ++ addBuildFlagToArgs [] in
              if ionicLiveReload
              then if isIonicAngularProject
                   then (args1 ++ ["--livereload"; "--external"]%string, log0)
                   else (args1, log0 ++ [(NO_LIVERELOAD_WARNING, false)])
              else (args1, log0) in
          if (-1 <? indexOf args "--livereload")%Z
          then
            mkLaunch (voided (startIonicDevServer args)) [] (Some args)
              None log
          else
            let log' :=
              log ++ [("Installing and launching app on device"%string, false)] in
            match cordovaRunCommand 0 args with
            | Rejects error => mkLaunch (RejectedWith error) [args] None None log'
            | Resolves _ =>
                mkLaunch (settlement (startDebugProxy iosDebugProxyPort'))
                  [args] None (Some iosDebugProxyPort') log'
            end
        else
          let target' :=
            if String.eqb (toLowerCase target)
                 CordovaDebugSession.TargetType.Emulator
            then CordovaDebugSession.TargetType.Emulator
            else target in
          match checkIfTargetIsiOSSimulator target' with
          | Throws error => mkLaunch (RejectedWith error) [] None None log0
          | Returns (Rejects error) =>
              mkLaunch (RejectedWith error) [listCommand] None None log0
          | Returns (Resolves _) =>
              let args0 :=
                ["emulate"%string; "ios"%string]
                ++ (if isIonicAngularProject then ["--"%string] else []) in
              let '(args, log) :=
                if AndroidCordovaPlatform.nonEmpty launchRunArguments
                then
                  (args0
                   ++ addBuildFlagToArgs
                        (AndroidCordovaPlatform.elements launchRunArguments),
                   log0)
                else if AndroidCordovaPlatform.nonEmpty runArguments
                then
                  (args0
                   ++ addBuildFlagToArgs
                        (AndroidCordovaPlatform.elements runArguments),
                   log0)
                else
                  let args1 :=
                    args0 ++ addBuildFlagToArgs []
                    ++ (if String.eqb target'
                             CordovaDebugSession.TargetType.Emulator
                        then [("--target=" ++ target')%string]
                        else []) in
                  if ionicLiveReload
                  then if isIonicAngularProject
                       then (args1 ++ ["--livereload"%string], log0)
                       else (args1, log0 ++ [(NO_LIVERELOAD_WARNING, false)])
                  else (args1, log0) in
              if (-1 <? indexOf args "--livereload")%Z
              then
                mkLaunch (voided (startIonicDevServer args)) [listCommand]
                  (Some args) None log
              else
                match cordovaRunCommand 1 args with
                | Resolves _ =>
                    mkLaunch Fulfilled [listCommand; args] None None log
                | Rejects err =>
                    if String.eqb target'
                         CordovaDebugSession.TargetType.Emulator
                    then
                      match cordovaRunCommand 2 listCommand with
                      | Resolves output =>
                          mkLaunch (RejectedWith err)
                            [listCommand; args; listCommand] None None
                            (log
                             ++ [("Unable to run with given target."%string,
                                  true);
                                 (removeAll banner 0 (fst output), true)])
                      | Rejects err' =>
                          mkLaunch (RejectedWith err')
                            [listCommand; args; listCommand] None None log
                      end
                    else
                      mkLaunch (RejectedWith err) [listCommand; args] None
                        None log
                end
          end
    end.

End LaunchApp.

End IOSCordovaPlatform.

(** ** Part II. Notions of the statements and of the proofs *)

Import Js.

(** *** Strings *)

(** [sub] occurs in [s]. *)
Definition occursIn (sub s : string) : Prop :=
  exists a b, s = (a ++ sub ++ b)%string.

(** *** Saving the resolved target *)

(** The requested target is one of the generic [emulator] and [device]. *)
Definition isAnyTarget (target : option string) : bool :=
  String.eqb (toLowerCase (render target)) "emulator"
  || String.eqb (toLowerCase (render target)) "device".

(** *** The socket table *)

(** The header line of [/proc/net/unix]. *)
Definition procNetUnixHeader : string :=
  "Num       RefCount Protocol Flags    Type St Inode Path".

(** *** The retry around the discovery of the socket *)

(** An attempt that yields no match: it is rejected, or it resolves to a
    value the condition refuses. *)
Definition noMatch {A} (condition : A -> bool) (o : Outcome A) : Prop :=
  match o with
  | Resolves v => condition v = false
  | Rejects _ => True
  end.

(** [count + 1] attempts from the iteration [first] on, a delay between each
    two. *)
Definition schedule (delay : Z) (first count : nat)
  : list AndroidCordovaPlatform.RetryStep :=
  AndroidCordovaPlatform.Attempt first
    :: flat_map
         (fun i => [AndroidCordovaPlatform.Delay delay;
                    AndroidCordovaPlatform.Attempt i])
         (seq (S first) count).

(** *** Regular expressions on a growing text *)

(** A matcher that succeeds on a text succeeds on its extensions. *)
Definition monotone {R} (k : string -> option R) : Prop :=
  forall s t, is_Some (k s) -> is_Some (k (s ++ t)%string).

(** *** The readiness detector: its handlers as state transformers *)

(** The state a handler leaves. *)
Definition exec (m : IonicDevServer.M unit) (st : IonicDevServer.DevServer)
  : IonicDevServer.DevServer := snd (m st).

(** A promise settled by [p] and then, if still pending, by [q]. *)
Definition orSettled {A} (p q : IonicDevServer.Settled A)
  : IonicDevServer.Settled A :=
  match p with
  | IonicDevServer.Pending => q
  | _ => p
  end.

(** The concatenation of the chunks received. *)
Definition joined (chunks : list string) : string :=
  fold_right String.append EmptyString chunks.

(** *** The choice of the platform *)

(** The platforms Cordova serves in a browser, and those the resolvers ask
    the simulation helper about. *)
Definition servedPlatforms : list string :=
  ["serve"; "amazon_fireos"; "blackberry10"; "firefoxos"; "ubuntu"; "wp8";
   "browser"]%string.

(** The class of the session's platform that stands for a class of the
    resolver's. *)
Definition sessionPlatform (p : CordovaPlatformResolver.GeneralCordovaPlatform)
  : CordovaDebugSession.AbstractPlatform :=
  match p with
  | CordovaPlatformResolver.BrowserCordovaPlatform =>
      CordovaDebugSession.BrowserPlatform
  | CordovaPlatformResolver.AndroidCordovaPlatform =>
      CordovaDebugSession.AndroidPlatform
  | CordovaPlatformResolver.IOSCordovaPlatform =>
      CordovaDebugSession.IosPlatform
  end.

Section DetectorFacts.
Import IonicDevServer.
Variable EOL : string.
Variable getPortFromURL : string -> Z.
Variable isIonicCliVersionGte : string -> string -> bool.
Variable launchArgs : LaunchArgs.
Variable cliArgs : list string.
Local Notation "'deliver'" :=
  (IonicDevServer.deliver EOL getPortFromURL isIonicCliVersionGte launchArgs cliArgs).
Local Notation "'step'" :=
  (IonicDevServer.step EOL getPortFromURL isIonicCliVersionGte launchArgs cliArgs).
Local Notation "'run'" :=
  (IonicDevServer.run EOL getPortFromURL isIonicCliVersionGte launchArgs cliArgs).
Local Notation "'errorMessage'" :=
  (getServerErrorMessage EOL isIonicCliVersionGte launchArgs).
Local Notation "'ionic4'" := (isIonic4 isIonicCliVersionGte launchArgs).

(** The stages of [serverOutputHandler]. *)
Definition afterOutput (data : string) (st : DevServer) : DevServer :=
  exec (append_serverOut data ;; outputLogger data (ArgChannel "stdout")) st.

Definition afterServerCheck (st : DevServer) : DevServer :=
  if negb (serverReady st) && isSome (search SERVER_URL_RE (serverOut st))
  then exec (resolveIfPossible launchArgs ServerReady None) st
  else st.

Definition appReadyShown (out : string) : bool :=
  isServe cliArgs || test (getRegexToResolveAppDefer cliArgs) out.

Definition afterAppCheck (st : DevServer) : DevServer :=
  if serverReady st && negb (appReady st) && appReadyShown (serverOut st)
  then
    match search SERVER_URL_RE (serverOut st) with
    | Some url =>
        exec (set_launchPort (Number (getPortFromURL url)) ;;
              resolveIfPossible launchArgs AppReady
                (Some (collectUrls url (serverOut st)))) st
    | None => st
    end
  else st.

Definition afterMultiCheck (st : DevServer) : DevServer :=
  if includes "Multiple network interfaces detected" (serverOut st)
  then exec (reject (RejError (multipleInterfacesMessage EOL (serverOut st)))) st
  else st.

Definition afterErrorCheck (channel : string) (st : DevServer) : DevServer :=
  exec (rejectOnError EOL isIonicCliVersionGte launchArgs channel) st.

Definition afterStdout (data : string) (st : DevServer) : DevServer :=
  let st3 := afterAppCheck (afterServerCheck (afterOutput data st)) in
  afterErrorCheck (serverOut st3) (afterMultiCheck st3).

Definition afterErrOutput (data : string) (st : DevServer) : DevServer :=
  afterErrorCheck (serverErr st ++ data) (exec (append_serverErr data) st).

Definition afterStderr (data : string) (st : DevServer) : DevServer :=
  afterErrOutput data (if ionic4 then afterStdout data st else st).

Definition afterExit (st : DevServer) : DevServer :=
  let exitMessage :=
    exitMessageFor EOL isIonicCliVersionGte launchArgs (serverErr st) in
  exec (reject (RejError exitMessage))
    (if negb (serverReady st) && negb (appReady st)
     then exec (set_processNull ;; outputLogger exitMessage ArgTrue) st
     else exec set_processNull st).

Definition afterTimer (id : nat) (st : DevServer) : DevServer :=
  match timers st !! id with
  | Some cb => exec (reject (timedOut launchArgs cb)) (exec (expire id) st)
  | None => st
  end.

(** **** Invariants of the reachable states *)

(** The pending timers: the server-ready timer (id 0) until the server is
    ready, then the app-ready timer (id 1) until the app is ready, each
    possibly fired already. *)
Definition timersOk (st : DevServer) : Prop :=
  if serverReady st
  then rejectTimeout st = 1 /\ nextTimer st = 2
       /\ (if appReady st then timers st = ∅
           else timers st = {[1 := AppReadyTimedOut]} \/ timers st = ∅)
  else rejectTimeout st = 0 /\ nextTimer st = 1
       /\ (timers st = {[0 := ServerReadyTimedOut]} \/ timers st = ∅).

Definition Inv (st : DevServer) : Prop :=
  (appReady st = true -> serverReady st = true)
  /\ (serverReady st = true ->
      isSome (search SERVER_URL_RE (serverOut st)) = true)
  /\ (forall v, serverStarting st = Fulfilled v -> appReady st = true)
  /\ (appReady st = true -> serverStarting st <> Pending)
  /\ timersOk st.

(** The state after the handler of an event. *)
Definition after (ev : Event) (st : DevServer) : DevServer :=
  match ev with
  | StdoutData data => afterStdout data st
  | StderrData data => afterStderr data st
  | ProcessError code => exec (onError code) st
  | ProcessExit => afterExit st
  | TimerExpired id => afterTimer id st
  end.

(** **** What the handlers change *)

Definition urlsOf (out : string) : list string :=
  match search SERVER_URL_RE out with
  | Some url => collectUrls url out
  | None => []
  end.

(** The output [out] accumulated in the state [st] shows the server ready
    for the first time. *)
Definition becomesServerReady (st : DevServer) (out : string) : bool :=
  negb (serverReady st) && isSome (search SERVER_URL_RE out).

(** The output [out] accumulated in the state [st] shows the app ready for
    the first time, the server being ready. *)
Definition becomesAppReady (st : DevServer) (out : string) : bool :=
  (serverReady st || isSome (search SERVER_URL_RE out))
  && negb (appReady st) && appReadyShown out
  && isSome (search SERVER_URL_RE out).

(** The rejections the fatal patterns of [out] cause, in order. *)
Definition errorPart (channel : string) : list Rejection :=
  match errorMessage channel with
  | Some errorMsg => [RejError errorMsg]
  | None => []
  end.

Definition fatal (out : string) : list Rejection :=
  (if includes "Multiple network interfaces detected" out
   then [RejError (multipleInterfacesMessage EOL out)]
   else [])
  ++ errorPart out.

Definition rejectAll (rs : list Rejection) (p : Settled (option (list string)))
  : Settled (option (list string)) :=
  fold_left (fun p r => orSettled p (Rejected r)) rs p.

Definition serverCalls (st : DevServer) (out : string) : list Call :=
  if becomesServerReady st out
  then [ClearTimeout (rejectTimeout st);
        OutputLogger "Building and deploying app" NoArg;
        SetTimeout (nextTimer st) AppReadyTimedOut (appReadyTimeout launchArgs)]
  else [].

Definition appCalls (st : DevServer) (out : string) : list Call :=
  if becomesAppReady st out
  then [ClearTimeout (if becomesServerReady st out then nextTimer st
                      else rejectTimeout st);
        Resolve (Some (urlsOf out))]
  else [].

Definition stdoutCalls (st : DevServer) (data : string) : list Call :=
  let out := (serverOut st ++ data)%string in
  OutputLogger data (ArgChannel "stdout")
    :: serverCalls st out ++ appCalls st out ++ map Reject (fatal out).

(** The rejection of the handler of the process's [error] event. *)
Definition spawnRejection (code : option string) : Rejection :=
  if match code with
     | Some c => String.eqb c "ENOENT"
     | None => false
     end
  then RejError "Ionic not found, please run 'npm install â€“g ionic' to install it globally"
  else RejSpawn code.

Definition exitCalls (st : DevServer) : list Call :=
  let exitMessage :=
    exitMessageFor EOL isIonicCliVersionGte launchArgs (serverErr st) in
  (if negb (serverReady st) && negb (appReady st)
   then [OutputLogger exitMessage ArgTrue]
   else [])
  ++ [Reject (RejError exitMessage)].

Definition timerCalls (id : nat) (st : DevServer) : list Call :=
  match timers st !! id with
  | Some cb => [Reject (timedOut launchArgs cb)]
  | None => []
  end.

(** The calls the handler of an event makes. *)
Definition emitted (ev : Event) (st : DevServer) : list Call :=
  match ev with
  | StdoutData data => stdoutCalls st data
  | StderrData data =>
      (if ionic4 then stdoutCalls st data else [])
      ++ map Reject (errorPart (serverErr st ++ data))
  | ProcessError code => [Reject (spawnRejection code)]
  | ProcessExit => exitCalls st
  | TimerExpired id => timerCalls id st
  end.

(** Whether the handler of an event hands the output to
    [serverOutputHandler]. *)
Definition readsOutput (ev : Event) : option string :=
  match ev with
  | StdoutData data => Some data
  | StderrData data => if ionic4 then Some data else None
  | _ => None
  end.

(** **** The calls on the timers *)

Definition isTimerCall (c : Call) : bool :=
  match c with
  | SetTimeout _ _ _ | ClearTimeout _ => true
  | _ => false
  end.

(** The calls on the timers at the transition to [ServerReady], and at the
    transition to [AppReady]. *)
Definition serverReadyTimerCalls : list Call :=
  [ClearTimeout 0; SetTimeout 1 AppReadyTimedOut (appReadyTimeout launchArgs)].

Definition appReadyTimerCalls : list Call := [ClearTimeout 1].

(** The calls on the timers up to a state, by its flags. *)
Definition timerHistory (st : DevServer) : list Call :=
  SetTimeout 0 ServerReadyTimedOut (serverReadyTimeout launchArgs)
    :: (if serverReady st then serverReadyTimerCalls else [])
    ++ (if appReady st then appReadyTimerCalls else []).

(** **** The settlement of the promise *)

(** The reasons the handler of an event calls [reject] with, in order. *)
Definition rejections (ev : Event) (st : DevServer) : list Rejection :=
  match ev with
  | StdoutData data => fatal (serverOut st ++ data)
  | StderrData data =>
      (if ionic4 then fatal (serverOut st ++ data) else [])
      ++ errorPart (serverErr st ++ data)
  | ProcessError code => [spawnRejection code]
  | ProcessExit =>
      [RejError (exitMessageFor EOL isIonicCliVersionGte launchArgs (serverErr st))]
  | TimerExpired id =>
      match timers st !! id with
      | Some cb => [timedOut launchArgs cb]
      | None => []
      end
  end.

(** The value the handler of an event calls [_resolve] with, if it does. *)
Definition fulfilment (ev : Event) (st : DevServer)
  : Settled (option (list string)) :=
  match readsOutput ev with
  | Some data =>
      if becomesAppReady st (serverOut st ++ data)
      then Fulfilled (Some (urlsOf (serverOut st ++ data)))
      else Pending
  | None => Pending
  end.

(** **** The benign message of the network probe *)

Definition benign : string := "utils-network error while checking".

(** **** The addresses of the message about several interfaces *)

Fixpoint allChars (p : ascii -> bool) (s : string) : bool :=
  match s with
  | EmptyString => true
  | String c s' => p c && allChars p s'
  end.

(** A line made of digits, a closing parenthesis, a space and any text. *)
Definition numbered (line : string) : Prop :=
  exists digits rest,
    line = (digits ++ ") " ++ rest)%string
    /\ digits <> EmptyString
    /\ allChars isDigit digits = true
    /\ allChars dot rest = true.

(** The text [before] ends a line, or is empty. *)
Definition lineStart (before : string) : Prop :=
  before = EmptyString
  \/ exists before' c,
       before = (before' ++ String c EmptyString)%string
       /\ isLineTerminator c = true.

(** The state after the chunks have arrived on the standard output. *)
Definition received (chunks : list string) : DevServer :=
  run (map StdoutData chunks) (started launchArgs).

(** The chunks that [serverOutputHandler] has read when the events have
    been delivered, in order. *)
Definition chunksRead (events : list Event) : list string :=
  flat_map
    (fun ev =>
       match readsOutput ev with
       | Some data => [data]
       | None => []
       end)
    events.

(** The reasons [reject] has been called with, in the order of the calls. *)
Fixpoint rejected (cs : list Call) : list Rejection :=
  match cs with
  | [] => []
  | Reject r :: cs' => r :: rejected cs'
  | _ :: cs' => rejected cs'
  end.

(** **** What the debug console and the caller see *)

(** The texts the detector has logged on the channel [channel], in order. *)
Definition loggedOn (channel : string) (cs : list Call) : list string :=
  flat_map
    (fun c =>
       match c with
       | OutputLogger message (ArgChannel ch) =>
           if String.eqb ch channel then [message] else []
       | _ => []
       end)
    cs.

(** The message of the guard in the continuation of [serverStarting]. *)
Definition unableToDetermine : string :=
  "Unable to determine the Ionic dev server address, please try re-launching the debugger".

(** The first character of the message of a rejection with an [Error]. *)
Definition initial (r : Rejection) : option ascii :=
  match r with
  | RejError (String c _) => Some c
  | _ => None
  end.

(** The two characters that start an escape sequence for [ansiRegex]. *)
Definition isEscape (c : ascii) : bool :=
  Ascii.eqb c "027"%char || Ascii.eqb c "155"%char.

(** The argument the detector hands to the logger, as the logger of the
    debug session reads it. *)
Definition errorArg (arg : LogArg) : CordovaDebugSession.ErrorArg :=
  match arg with
  | NoArg => CordovaDebugSession.NoError
  | ArgTrue => CordovaDebugSession.ErrorFlag true
  | ArgChannel channel => CordovaDebugSession.Category channel
  end.

(** The events the logger of the debug session sends for the calls of the
    detector, in order. *)
Definition consoleEvents (cs : list Call) : list CordovaDebugSession.OutputEvent :=
  flat_map
    (fun c =>
       match c with
       | OutputLogger message arg =>
           [CordovaDebugSession.outputLogger message (errorArg arg)]
       | _ => []
       end)
    cs.

Definition onCategory (name : string) (event : CordovaDebugSession.OutputEvent)
  : bool :=
  String.eqb (CordovaDebugSession.category event) name.

(** ** Part III. Properties *)

(** *** Strings *)

Lemma append_empty_r (s : string) : (s ++ "")%string = s.
Proof. induction s as [|c s IH]; simpl; [reflexivity | now rewrite IH]. Qed.

Lemma append_assoc' (a b c : string) :
  ((a ++ b) ++ c)%string = (a ++ b ++ c)%string.
Proof. induction a as [|x a IH]; simpl; [reflexivity | now rewrite IH]. Qed.

Lemma length_append' (a b : string) :
  String.length (a ++ b) = String.length a + String.length b.
Proof. induction a as [|x a IH]; simpl; [reflexivity | now rewrite IH]. Qed.

Lemma startsWith_spec (p s : string) :
  startsWith p s = true <-> exists b, s = (p ++ b)%string.
Proof.
  revert s. induction p as [|a p IH]; intros s; simpl.
  - split; [intros _; now exists s | reflexivity].
  - destruct s as [|c s].
    + split; [discriminate | intros [b Hb]; discriminate].
    + rewrite andb_true_iff, IH, Ascii.eqb_eq. split.
      * intros [-> [b ->]]. now exists b.
      * intros [b Hb]. injection Hb as -> ->. split; [reflexivity | now exists b].
Qed.

Lemma includes_spec (sub s : string) :
  includes sub s = true <-> occursIn sub s.
Proof.
  unfold occursIn. induction s as [|c s IH].
  - simpl. rewrite orb_false_r, startsWith_spec. split.
    + intros [b Hb]. now exists EmptyString, b.
    + intros [a [b Hab]]. destruct a; simpl in Hab.
      * now exists b.
      * discriminate.
  - cbn [includes]. rewrite orb_true_iff, startsWith_spec, IH. split.
    + intros [[b Hb] | [a [b Hab]]].
      * now exists EmptyString, b.
      * exists (String c a), b. simpl. now rewrite Hab.
    + intros [a [b Hab]]. destruct a as [|x a]; simpl in Hab.
      * left. now exists b.
      * right. injection Hab as _ Hs. now exists a, b.
Qed.

Lemma includes_false (sub s : string) :
  includes sub s = false <-> ~ occursIn sub s.
Proof.
  rewrite <- includes_spec. destruct (includes sub s); split; intros H;
    try reflexivity; try discriminate; try (intros E; discriminate).
  exfalso. now apply H.
Qed.

(** *** Matches survive the growth of the input

    A regular expression without anchors that matches a text matches every
    extension of it, possibly with other captures: the accumulated output of
    the dev server only grows, so a pattern it has shown stays shown. *)

Lemma orElse_is_Some {R} (a b : option R) :
  is_Some (orElse a b) <-> is_Some a \/ is_Some b.
Proof.
  destruct a as [x|]; simpl.
  - split; [intros _; left; eauto | intros _; eauto].
  - split; [now right | intros [[x Hx] | H]; [discriminate | exact H]].
Qed.

Lemma monotone_orElse {R} (f g : string -> option R) :
  monotone f -> monotone g -> monotone (fun s => orElse (f s) (g s)).
Proof.
  intros Hf Hg s t H. apply orElse_is_Some in H. apply orElse_is_Some.
  destruct H as [H | H]; [left; now apply Hf | right; now apply Hg].
Qed.

Lemma monotone_mChar {R} (p : ascii -> bool) (k : string -> option R) :
  monotone k -> monotone (mChar p k).
Proof.
  intros Hk [|c s] t; simpl; [intros [x Hx]; discriminate |].
  destruct (p c); [apply Hk | intros [x Hx]; discriminate].
Qed.

Lemma monotone_mLit {R} (eq : ascii -> ascii -> bool) (lit : string)
  (k : string -> option R) :
  monotone k -> monotone (mLit eq lit k).
Proof.
  intros Hk. induction lit as [|a lit IH]; simpl; [exact Hk |].
  now apply monotone_mChar.
Qed.

Lemma mStar_is_Some {R} (p : ascii -> bool) (k : string -> option R) (s : string) :
  is_Some (k s) -> is_Some (mStar p k s).
Proof.
  intros H. destruct s as [|c s]; simpl; [exact H |].
  destruct (p c); [apply orElse_is_Some; now right | exact H].
Qed.

Lemma monotone_mStar {R} (p : ascii -> bool) (k : string -> option R) :
  monotone k -> monotone (mStar p k).
Proof.
  intros Hk s. induction s as [|c s IH]; intros t H.
  - simpl in H. apply mStar_is_Some. now apply (Hk EmptyString t).
  - simpl in *. destruct (p c).
    + apply orElse_is_Some in H. apply orElse_is_Some.
      destruct H as [H | H]; [left; now apply IH | right].
      now apply (Hk (String c s) t).
    + now apply (Hk (String c s) t).
Qed.

Lemma monotone_search {R} (m : string -> option R) :
  monotone m -> monotone (search m).
Proof.
  intros Hm s. induction s as [|c s IH]; intros t H.
  - simpl in H. apply orElse_is_Some in H as [H | [x Hx]]; [| discriminate].
    apply (Hm EmptyString t) in H. simpl in H.
    destruct t; simpl; apply orElse_is_Some; now left.
  - simpl in *. apply orElse_is_Some in H. apply orElse_is_Some.
    destruct H as [H | H]; [left; now apply (Hm (String c s) t) | right; now apply IH].
Qed.

Lemma monotone_accept : monotone IonicDevServer.accept.
Proof. intros s t _. now exists (s ++ t)%string. Qed.

Lemma option_map_is_Some {A B} (f : A -> B) (o : option A) :
  is_Some (option_map f o) <-> is_Some o.
Proof.
  destruct o; simpl; split; intros [x Hx]; eauto; discriminate.
Qed.

Lemma monotone_SERVER_URL_RE : monotone IonicDevServer.SERVER_URL_RE.
Proof.
  unfold IonicDevServer.SERVER_URL_RE.
  assert (Hurl : monotone
            (fun g => option_map (matched g)
               (mLit eqCI "http://"
                  (mChar dot (mStar notWhiteSpace IonicDevServer.accept)) g))).
  { intros s t H. apply option_map_is_Some in H. apply option_map_is_Some.
    revert s t H. apply monotone_mLit, monotone_mChar, monotone_mStar,
      monotone_accept. }
  repeat apply monotone_orElse;
    apply monotone_mLit, monotone_mLit, monotone_mStar, Hurl.
Qed.

Lemma isSome_is_Some {A} (o : option A) :
  IonicDevServer.isSome o = true <-> is_Some o.
Proof.
  destruct o; simpl; split; intros H; eauto; try discriminate.
  destruct H; discriminate.
Qed.

Lemma server_url_stays (out data : string) :
  IonicDevServer.isSome (search IonicDevServer.SERVER_URL_RE out) = true ->
  IonicDevServer.isSome (search IonicDevServer.SERVER_URL_RE (out ++ data)) = true.
Proof.
  rewrite !isSome_is_Some.
  apply (monotone_search _ monotone_SERVER_URL_RE).
Qed.

(** *** The readiness detector *)

Ltac unfold_handlers :=
  cbv beta iota zeta delta
    [IonicDevServer.step IonicDevServer.deliver serverOutputHandler
     serverErrorOutputHandler onStderr onError onExit onTimer
     resolveIfPossible rejectOnError exec
     bind ret get when throwTypeError
     setTimeout clearTimeout _resolve reject outputLogger record settle expire
     set_serverReady set_appReady set_rejectTimeout append_serverOut
     append_serverErr set_launchPort set_processNull
     serverReady appReady serverOut serverErr rejectTimeout timers nextTimer
     serverStarting launchPort ionicLivereloadProcess calls
     fst snd isSome negb andb orb].

Ltac case_step :=
  match goal with
  | |- context [match ?x with _ => _ end] =>
      match x with
      | context [match _ with _ => _ end] => fail 1
      | _ => is_var x; destruct x
      | _ => destruct x eqn:?
      end
  end.

Ltac crunch := unfold_handlers; repeat (case_step; unfold_handlers).

(** The handler of the output does not throw once the URL of the server has
    been seen, and is the composition of its stages. *)
Lemma deliver_stdout (st : DevServer) (data : string) :
  (serverReady st = true ->
   isSome (search SERVER_URL_RE (serverOut st ++ data)) = true) ->
  deliver (StdoutData data) st = (Some tt, afterStdout data st).
Proof.
  destruct st as [sr ar out err rt tm nt ss lp pr cs].
  unfold afterStdout, afterErrorCheck, afterMultiCheck, afterAppCheck,
    afterServerCheck, afterOutput, appReadyShown.
  cbn [serverReady serverOut]. intros H.
  destruct sr; [specialize (H eq_refl) |]; crunch; simplify_eq; reflexivity.
Qed.

Lemma deliver_stderr (st : DevServer) (data : string) :
  (serverReady st = true ->
   isSome (search SERVER_URL_RE (serverOut st ++ data)) = true) ->
  deliver (StderrData data) st = (Some tt, afterStderr data st).
Proof.
  intros H. unfold afterStderr. cbn [IonicDevServer.deliver].
  unfold onStderr, when, bind. destruct ionic4.
  - change (serverOutputHandler EOL getPortFromURL isIonicCliVersionGte launchArgs
              cliArgs data st)
      with (deliver (StdoutData data) st).
    rewrite (deliver_stdout st data H).
    unfold afterErrOutput, afterErrorCheck.
    destruct (afterStdout data st) as [sr ar out err rt tm nt ss lp pr cs].
    crunch; reflexivity.
  - unfold afterErrOutput, afterErrorCheck.
    destruct st as [sr ar out err rt tm nt ss lp pr cs]. crunch; reflexivity.
Qed.

Ltac open_inv :=
  unfold Inv, timersOk;
  cbn [serverReady appReady serverOut serverErr rejectTimeout timers
       nextTimer serverStarting];
  intros (Ha & Hb & Hc & Hd & He);
  repeat match goal with
         | b : bool |- _ =>
             match type of He with
             | context [if b then _ else _] => destruct b
             end
         end;
  try (specialize (Ha eq_refl); discriminate Ha);
  destruct He as (-> & -> & He); try destruct He as [-> | ->]; try subst.

Ltac close_inv :=
  simplify_eq;
  repeat match goal with
         | H : true = true -> _ |- _ => specialize (H eq_refl)
         | H : false = true -> _ |- _ => clear H
         | H : forall v, Fulfilled ?x = Fulfilled v -> false = true |- _ =>
             discriminate (H _ eq_refl)
         | H : Pending <> Pending |- _ => now contradiction H
         | H : isSome None = true |- _ => discriminate H
         end;
  repeat split; intros; try discriminate; try congruence;
  rewrite ?delete_empty, ?delete_singleton_eq, ?insert_empty;
  eauto.

Lemma Inv_started : Inv (started launchArgs).
Proof.
  unfold started, executor, created, Inv, timersOk. unfold_handlers.
  close_inv.
Qed.

Lemma Inv_afterOutput (data : string) (st : DevServer) :
  Inv st -> Inv (afterOutput data st).
Proof.
  destruct st as [sr ar out err rt tm nt ss lp pr cs]. unfold afterOutput.
  open_inv; unfold Inv, timersOk; unfold_handlers; close_inv;
    try (now apply server_url_stays).
Qed.

Lemma Inv_afterServerCheck (st : DevServer) :
  Inv st -> Inv (afterServerCheck st).
Proof.
  destruct st as [sr ar out err rt tm nt ss lp pr cs]. unfold afterServerCheck.
  open_inv; unfold Inv, timersOk; crunch; close_inv.
Qed.

Lemma Inv_afterAppCheck (st : DevServer) :
  Inv st -> Inv (afterAppCheck st).
Proof.
  destruct st as [sr ar out err rt tm nt ss lp pr cs]. unfold afterAppCheck.
  open_inv; unfold Inv, timersOk; crunch; close_inv.
Qed.

Lemma Inv_reject (r : Rejection) (st : DevServer) :
  Inv st -> Inv (exec (reject r) st).
Proof.
  destruct st as [sr ar out err rt tm nt ss lp pr cs].
  open_inv; unfold Inv, timersOk; crunch; close_inv.
Qed.

Lemma Inv_afterMultiCheck (st : DevServer) :
  Inv st -> Inv (afterMultiCheck st).
Proof.
  unfold afterMultiCheck. intros H.
  destruct (includes _ _); [now apply Inv_reject | exact H].
Qed.

Lemma Inv_afterErrorCheck (channel : string) (st : DevServer) :
  Inv st -> Inv (afterErrorCheck channel st).
Proof.
  unfold afterErrorCheck, rejectOnError. intros H.
  destruct (errorMessage channel); [now apply Inv_reject | exact H].
Qed.

Lemma Inv_afterStdout (data : string) (st : DevServer) :
  Inv st -> Inv (afterStdout data st).
Proof.
  intros H. unfold afterStdout.
  now apply Inv_afterErrorCheck, Inv_afterMultiCheck, Inv_afterAppCheck,
    Inv_afterServerCheck, Inv_afterOutput.
Qed.

Lemma Inv_afterErrOutput (data : string) (st : DevServer) :
  Inv st -> Inv (afterErrOutput data st).
Proof.
  intros H. unfold afterErrOutput. apply Inv_afterErrorCheck. revert H.
  destruct st as [sr ar out err rt tm nt ss lp pr cs].
  unfold Inv, timersOk. unfold_handlers. tauto.
Qed.

Lemma Inv_afterStderr (data : string) (st : DevServer) :
  Inv st -> Inv (afterStderr data st).
Proof.
  intros H. unfold afterStderr. apply Inv_afterErrOutput.
  destruct ionic4; [now apply Inv_afterStdout | exact H].
Qed.

Lemma Inv_afterError (code : option string) (st : DevServer) :
  Inv st -> Inv (exec (onError code) st).
Proof.
  intros H. unfold onError.
  destruct (match code with Some c => _ | None => _ end);
    now apply Inv_reject.
Qed.

Lemma Inv_afterExit (st : DevServer) : Inv st -> Inv (afterExit st).
Proof.
  intros H. unfold afterExit. apply Inv_reject. revert H.
  destruct st as [sr ar out err rt tm nt ss lp pr cs].
  unfold Inv, timersOk.
  cbn [serverReady appReady].
  destruct (negb sr && negb ar); unfold_handlers; tauto.
Qed.

Lemma timers_fired (st : DevServer) (id : nat) (cb : TimerCallback) :
  Inv st -> timers st !! id = Some cb ->
  delete id (timers st) = ∅
  /\ id = rejectTimeout st
  /\ cb = (if serverReady st then AppReadyTimedOut else ServerReadyTimedOut)
  /\ appReady st = false.
Proof.
  intros (Ha & _ & _ & _ & He). revert He. unfold timersOk.
  destruct (serverReady st).
  - intros (-> & _ & H). destruct (appReady st).
    + rewrite H, lookup_empty. discriminate.
    + destruct H as [-> | ->]; [| rewrite lookup_empty; discriminate].
      intros [-> ->]%lookup_singleton_Some.
      now rewrite delete_singleton_eq.
  - intros (-> & _ & [-> | ->]); [| rewrite lookup_empty; discriminate].
    intros [-> ->]%lookup_singleton_Some. rewrite delete_singleton_eq.
    repeat split. destruct (appReady st); [| reflexivity].
    now specialize (Ha eq_refl).
Qed.

Lemma Inv_afterTimer (id : nat) (st : DevServer) :
  Inv st -> Inv (afterTimer id st).
Proof.
  intros H. unfold afterTimer.
  destruct (timers st !! id) as [cb|] eqn:Hid; [| exact H].
  apply Inv_reject.
  destruct (timers_fired st id cb H Hid) as (Hdel & _ & _ & Har).
  revert H Hdel Har. destruct st as [sr ar out err rt tm nt ss lp pr cs].
  unfold Inv, timersOk. unfold_handlers. intros (Ha & Hb & Hc & Hd & He) -> ->.
  repeat split; try tauto; try discriminate.
  destruct sr; intuition.
Qed.

(** No handler throws in a reachable state. *)
Lemma deliver_after (ev : Event) (st : DevServer) :
  Inv st -> deliver ev st = (Some tt, after ev st).
Proof.
  intros H.
  assert (Hurl : forall data, serverReady st = true ->
            isSome (search SERVER_URL_RE (serverOut st ++ data)) = true).
  { intros data Hs. apply server_url_stays. now apply H. }
  destruct ev as [data|data|code| |id]; cbn [after].
  - apply deliver_stdout, Hurl.
  - apply deliver_stderr, Hurl.
  - destruct st as [sr ar out err rt tm nt ss lp pr cs]. crunch; reflexivity.
  - unfold afterExit. destruct st as [sr ar out err rt tm nt ss lp pr cs].
    crunch; reflexivity.
  - unfold afterTimer. destruct st as [sr ar out err rt tm nt ss lp pr cs].
    crunch; reflexivity.
Qed.

Lemma step_after (ev : Event) (st : DevServer) :
  Inv st -> step st ev = after ev st.
Proof.
  intros H. unfold IonicDevServer.step. now rewrite deliver_after.
Qed.

Lemma Inv_after (ev : Event) (st : DevServer) : Inv st -> Inv (after ev st).
Proof.
  destruct ev; cbn [after];
    auto using Inv_afterStdout, Inv_afterStderr, Inv_afterError,
      Inv_afterExit, Inv_afterTimer.
Qed.

Lemma Inv_run (events : list Event) (st : DevServer) :
  Inv st -> Inv (run events st).
Proof.
  revert st. induction events as [|ev events IH]; intros st H; [exact H |].
  cbn [IonicDevServer.run fold_left]. apply IH.
  rewrite step_after by exact H. now apply Inv_after.
Qed.

Lemma run_snoc (events : list Event) (ev : Event) (st : DevServer) :
  run (events ++ [ev]) st = step (run events st) ev.
Proof. unfold IonicDevServer.run. now rewrite fold_left_app. Qed.

Lemma run_app (events more : list Event) (st : DevServer) :
  run (events ++ more) st = run more (run events st).
Proof. unfold IonicDevServer.run. now rewrite fold_left_app. Qed.

Lemma afterStdout_fields (st : DevServer) (data : string) :
  let out := (serverOut st ++ data)%string in
  let st' := afterStdout data st in
  serverOut st' = out
  /\ serverErr st' = serverErr st
  /\ serverReady st' = serverReady st || isSome (search SERVER_URL_RE out)
  /\ appReady st' = appReady st || becomesAppReady st out
  /\ serverStarting st'
     = rejectAll (fatal out)
         (orSettled (serverStarting st)
            (if becomesAppReady st out then Fulfilled (Some (urlsOf out))
             else Pending))
  /\ calls st' = calls st ++ stdoutCalls st data.
Proof.
  destruct st as [sr ar out err rt tm nt ss lp pr cs].
  unfold afterStdout, afterErrorCheck, afterMultiCheck, afterAppCheck,
    afterServerCheck, afterOutput, appReadyShown, stdoutCalls, serverCalls,
    appCalls, becomesAppReady, becomesServerReady, fatal, errorPart, rejectAll,
    urlsOf, orSettled, appReadyShown.
  cbn [serverReady serverOut appReady serverStarting calls rejectTimeout nextTimer].
  destruct sr, ar; crunch; simplify_eq; cbn [app map fold_left];
    rewrite <- ?app_assoc; repeat split; reflexivity.
Qed.

Lemma exec_reject_fields (r : Rejection) (st : DevServer) :
  let st' := exec (reject r) st in
  serverReady st' = serverReady st /\ appReady st' = appReady st
  /\ serverOut st' = serverOut st /\ serverErr st' = serverErr st
  /\ timers st' = timers st
  /\ serverStarting st' = orSettled (serverStarting st) (Rejected r)
  /\ calls st' = calls st ++ [Reject r].
Proof.
  destruct st as [sr ar out err rt tm nt ss lp pr cs]. unfold orSettled.
  crunch; repeat split; reflexivity.
Qed.

Lemma afterErrOutput_fields (data : string) (st : DevServer) :
  let st' := afterErrOutput data st in
  serverReady st' = serverReady st /\ appReady st' = appReady st
  /\ serverOut st' = serverOut st
  /\ serverErr st' = (serverErr st ++ data)%string
  /\ serverStarting st'
     = rejectAll (errorPart (serverErr st ++ data)) (serverStarting st)
  /\ calls st' = calls st ++ map Reject (errorPart (serverErr st ++ data)).
Proof.
  destruct st as [sr ar out err rt tm nt ss lp pr cs].
  unfold afterErrOutput, afterErrorCheck, rejectAll, errorPart, orSettled.
  cbn [serverErr].
  crunch; cbn [app map fold_left]; rewrite ?app_nil_r; repeat split; reflexivity.
Qed.

Lemma afterError_eq (code : option string) (st : DevServer) :
  exec (onError code) st = exec (reject (spawnRejection code)) st.
Proof.
  unfold onError, spawnRejection.
  now destruct (match code with Some c => _ | None => _ end).
Qed.

Lemma afterExit_fields (st : DevServer) :
  let st' := afterExit st in
  serverReady st' = serverReady st /\ appReady st' = appReady st
  /\ serverOut st' = serverOut st /\ serverErr st' = serverErr st
  /\ timers st' = timers st
  /\ serverStarting st'
     = orSettled (serverStarting st)
         (Rejected
            (RejError
               (exitMessageFor EOL isIonicCliVersionGte launchArgs (serverErr st))))
  /\ calls st' = calls st ++ exitCalls st.
Proof.
  destruct st as [sr ar out err rt tm nt ss lp pr cs].
  unfold afterExit, exitCalls, orSettled. cbn [serverReady appReady serverErr].
  destruct sr, ar; crunch; cbn [app]; rewrite <- ?app_assoc;
    repeat split; reflexivity.
Qed.

Lemma afterTimer_fields (id : nat) (st : DevServer) :
  let st' := afterTimer id st in
  serverReady st' = serverReady st /\ appReady st' = appReady st
  /\ serverOut st' = serverOut st /\ serverErr st' = serverErr st
  /\ timers st' = match timers st !! id with
                  | Some _ => delete id (timers st)
                  | None => timers st
                  end
  /\ serverStarting st'
     = match timers st !! id with
       | Some cb => orSettled (serverStarting st) (Rejected (timedOut launchArgs cb))
       | None => serverStarting st
       end
  /\ calls st' = calls st ++ timerCalls id st.
Proof.
  unfold afterTimer, timerCalls. destruct (timers st !! id) as [cb|].
  - destruct st as [sr ar out err rt tm nt ss lp pr cs]. unfold orSettled.
    crunch; repeat split; reflexivity.
  - rewrite app_nil_r. repeat split; reflexivity.
Qed.

Lemma after_calls (ev : Event) (st : DevServer) :
  calls (after ev st) = calls st ++ emitted ev st.
Proof.
  destruct ev as [data|data|code| |id]; cbn [after emitted].
  - apply afterStdout_fields.
  - unfold afterStderr.
    destruct (afterErrOutput_fields data (if ionic4 then afterStdout data st else st))
      as (_ & _ & _ & _ & _ & ->).
    destruct ionic4.
    + destruct (afterStdout_fields st data) as (_ & -> & _ & _ & _ & ->).
      now rewrite app_assoc.
    + reflexivity.
  - rewrite afterError_eq. apply exec_reject_fields.
  - apply afterExit_fields.
  - apply afterTimer_fields.
Qed.

Lemma after_flags (ev : Event) (st : DevServer) :
  serverReady (after ev st)
  = match readsOutput ev with
    | Some data =>
        serverReady st || isSome (search SERVER_URL_RE (serverOut st ++ data))
    | None => serverReady st
    end
  /\ appReady (after ev st)
     = match readsOutput ev with
       | Some data => appReady st || becomesAppReady st (serverOut st ++ data)
       | None => appReady st
       end.
Proof.
  destruct ev as [data|data|code| |id]; cbn [after readsOutput].
  - split; apply afterStdout_fields.
  - unfold afterStderr.
    destruct (afterErrOutput_fields data (if ionic4 then afterStdout data st else st))
      as (-> & -> & _).
    destruct ionic4; [split; apply afterStdout_fields | now split].
  - rewrite afterError_eq. split; apply exec_reject_fields.
  - split; apply afterExit_fields.
  - split; apply afterTimer_fields.
Qed.

Lemma after_serverOut (ev : Event) (st : DevServer) :
  serverOut (after ev st)
  = match readsOutput ev with
    | Some data => (serverOut st ++ data)%string
    | None => serverOut st
    end.
Proof.
  destruct ev as [data|data|code| |id]; cbn [after readsOutput].
  - apply afterStdout_fields.
  - unfold afterStderr.
    destruct (afterErrOutput_fields data (if ionic4 then afterStdout data st else st))
      as (_ & _ & -> & _).
    destruct ionic4; [apply afterStdout_fields | reflexivity].
  - rewrite afterError_eq. apply exec_reject_fields.
  - apply afterExit_fields.
  - apply afterTimer_fields.
Qed.

Lemma timer_ids (st : DevServer) :
  Inv st ->
  rejectTimeout st = (if serverReady st then 1 else 0)
  /\ nextTimer st = (if serverReady st then 2 else 1).
Proof.
  intros (_ & _ & _ & _ & He). revert He. unfold timersOk.
  destruct (serverReady st); tauto.
Qed.

Lemma filter_Reject (p : Call -> bool) (rs : list Rejection) :
  (forall r, p (Reject r) = false) -> List.filter p (map Reject rs) = [].
Proof.
  intros Hp. induction rs as [|r rs IH]; simpl; [reflexivity |].
  now rewrite Hp.
Qed.

Lemma becomesAppReady_flags (st : DevServer) (out : string) :
  becomesAppReady st out = true ->
  appReady st = false /\ isSome (search SERVER_URL_RE out) = true.
Proof.
  unfold becomesAppReady. intros H.
  apply andb_true_iff in H as [H Hm]. apply andb_true_iff in H as [H _].
  apply andb_true_iff in H as [_ H]. apply negb_true_iff in H. auto.
Qed.

Lemma stdoutCalls_timers (st : DevServer) (data : string) :
  Inv st ->
  let out := (serverOut st ++ data)%string in
  List.filter isTimerCall (stdoutCalls st data)
  = (if becomesServerReady st out then serverReadyTimerCalls else [])
    ++ (if becomesAppReady st out then appReadyTimerCalls else []).
Proof.
  intros H out. destruct (timer_ids st H) as [Hrt Hnt].
  unfold stdoutCalls. fold out. cbn [List.filter isTimerCall].
  rewrite !List.filter_app, filter_Reject, app_nil_r by reflexivity.
  unfold serverCalls, appCalls, serverReadyTimerCalls, appReadyTimerCalls.
  rewrite Hrt, Hnt.
  destruct (becomesAppReady st out) eqn:Ha.
  - apply becomesAppReady_flags in Ha as [_ Hm].
    unfold becomesServerReady. rewrite Hm.
    now destruct (serverReady st).
  - unfold becomesServerReady.
    now destruct (serverReady st), (isSome (search SERVER_URL_RE out)).
Qed.

Lemma emitted_timers (ev : Event) (st : DevServer) :
  Inv st ->
  List.filter isTimerCall (emitted ev st)
  = match readsOutput ev with
    | Some data =>
        (if becomesServerReady st (serverOut st ++ data)
         then serverReadyTimerCalls else [])
        ++ (if becomesAppReady st (serverOut st ++ data)
            then appReadyTimerCalls else [])
    | None => []
    end.
Proof.
  intros H. destruct ev as [data|data|code| |id]; cbn [emitted readsOutput].
  - now apply stdoutCalls_timers.
  - rewrite List.filter_app, filter_Reject, app_nil_r by reflexivity.
    destruct ionic4; [now apply stdoutCalls_timers | reflexivity].
  - reflexivity.
  - unfold exitCalls. now destruct (negb _ && negb _).
  - unfold timerCalls. now destruct (timers st !! id).
Qed.

Lemma timerHistory_after (ev : Event) (st : DevServer) :
  Inv st ->
  timerHistory st ++ List.filter isTimerCall (emitted ev st)
  = timerHistory (after ev st).
Proof.
  intros H. rewrite (emitted_timers ev st H). unfold timerHistory.
  destruct (after_flags ev st) as [-> ->].
  destruct H as (Ha & _).
  destruct (readsOutput ev) as [data|]; [| now rewrite app_nil_r].
  pose proof (becomesAppReady_flags st (serverOut st ++ data)) as Hb.
  unfold becomesServerReady.
  destruct (serverReady st), (appReady st),
    (isSome (search SERVER_URL_RE (serverOut st ++ data))),
    (becomesAppReady st (serverOut st ++ data));
    try reflexivity; try (now destruct Hb); try (now specialize (Ha eq_refl)).
Qed.

Lemma timerHistory_run (events : list Event) :
  List.filter isTimerCall (calls (run events (started launchArgs)))
  = timerHistory (run events (started launchArgs)).
Proof.
  induction events as [|ev events IH] using rev_ind; [reflexivity |].
  pose proof (Inv_run events _ Inv_started) as H.
  rewrite run_snoc, step_after, after_calls, List.filter_app, IH by exact H.
  now apply timerHistory_after.
Qed.

Lemma transition_server (ev : Event) (st : DevServer) :
  (serverReady st = false /\ serverReady (after ev st) = true)
  <-> exists data, readsOutput ev = Some data
                   /\ becomesServerReady st (serverOut st ++ data) = true.
Proof.
  destruct (after_flags ev st) as [-> _]. unfold becomesServerReady.
  destruct (readsOutput ev) as [data|].
  - split.
    + intros [-> H]. exists data. auto.
    + intros (d & [= <-] & H). apply andb_true_iff in H as [H1 H2].
      apply negb_true_iff in H1. rewrite H1. auto.
  - split; [intros [-> H]; discriminate | intros (d & H & _); discriminate].
Qed.

Lemma transition_app (ev : Event) (st : DevServer) :
  (appReady st = false /\ appReady (after ev st) = true)
  <-> exists data, readsOutput ev = Some data
                   /\ becomesAppReady st (serverOut st ++ data) = true.
Proof.
  destruct (after_flags ev st) as [_ ->].
  destruct (readsOutput ev) as [data|].
  - split.
    + intros [-> H]. exists data. auto.
    + intros (d & [= <-] & H).
      destruct (becomesAppReady_flags _ _ H) as [-> _]. auto.
  - split; [intros [-> H]; discriminate | intros (d & H & _); discriminate].
Qed.

Lemma emitted_timer_call (ev : Event) (st : DevServer) (c : Call) :
  Inv st -> isTimerCall c = true ->
  In c (emitted ev st)
  <-> (In c serverReadyTimerCalls
       /\ serverReady st = false /\ serverReady (after ev st) = true)
      \/ (In c appReadyTimerCalls
          /\ appReady st = false /\ appReady (after ev st) = true).
Proof.
  intros H Hc.
  rewrite transition_server, transition_app.
  transitivity (In c (List.filter isTimerCall (emitted ev st))).
  { rewrite filter_In. tauto. }
  rewrite (emitted_timers ev st H).
  destruct (readsOutput ev) as [data|].
  - rewrite in_app_iff. split.
    + intros [Hin | Hin].
      * left. destruct (becomesServerReady _ _) eqn:E; [| destruct Hin].
        split; [exact Hin | now exists data].
      * right. destruct (becomesAppReady _ _) eqn:E; [| destruct Hin].
        split; [exact Hin | now exists data].
    + intros [(Hin & d & [= <-] & ->) | (Hin & d & [= <-] & ->)]; auto.
  - split; [intros [] |].
    intros [(_ & d & Hd & _) | (_ & d & Hd & _)]; discriminate.
Qed.

Lemma timedOut_text (cb : TimerCallback) :
  timedOut launchArgs cb
  = RejText
      (match cb with
       | ServerReadyTimedOut =>
           "Starting the Ionic dev server timed out ("
           ++ printed (serverReadyTimeout launchArgs) ++ " ms)"
       | AppReadyTimedOut =>
           "Building and deploying the app timed out ("
           ++ printed (appReadyTimeout launchArgs) ++ " ms)"
       end)%string.
Proof. destruct cb; reflexivity. Qed.

(** C7.  In every reachable state the calls made on the timers are: the
    arming of the server-ready timer; if the server is ready, its disarming
    and the arming of the app-ready timer; if the app is ready, the disarming
    of the app-ready timer.  The handler of an event disarms the
    server-ready timer exactly when it makes the server ready, arms a timer
    (the app-ready one) only then, and disarms the app-ready timer exactly
    when it makes the app ready.  Once the app is ready no timer is pending
    and an expiry changes nothing.  A pending timer is the one of the
    current phase; its expiry rejects, a pending promise with it, with a
    text naming the phase and the delay, never with an [Error] or with the
    error of the process as a tool-reported failure does.  The delay the
    timers are armed with and the texts print is the one configured,
    [devServerTimeout], for both phases; it is 60000 for the server and
    120000 for the app when none is configured, or zero is. *)
Theorem C7_readiness_timeouts (events : list Event) (ev : Event) :
  let st := run events (started launchArgs) in
  let st' := step st ev in
  let deadline default :=
    match devServerTimeout launchArgs with
    | Some n => if falsy n then mkNumber false default else n
    | None => mkNumber false default
    end in
  let serverDeadline := deadline "60000"%string in
  let appDeadline := deadline "120000"%string in
  List.filter isTimerCall (calls st)
  = SetTimeout 0 ServerReadyTimedOut serverDeadline
      :: (if serverReady st
          then [ClearTimeout 0; SetTimeout 1 AppReadyTimedOut appDeadline]
          else [])
      ++ (if appReady st then [ClearTimeout 1] else [])
  /\ calls st' = calls st ++ emitted ev st
  /\ (In (ClearTimeout 0) (emitted ev st)
      <-> serverReady st = false /\ serverReady st' = true)
  /\ (forall id cb ms,
        In (SetTimeout id cb ms) (emitted ev st)
        <-> SetTimeout id cb ms = SetTimeout 1 AppReadyTimedOut appDeadline
            /\ serverReady st = false /\ serverReady st' = true)
  /\ (In (ClearTimeout 1) (emitted ev st)
      <-> appReady st = false /\ appReady st' = true)
  /\ (appReady st = true ->
      timers st = ∅ /\ forall id, step st (TimerExpired id) = st)
  /\ (forall id cb, timers st !! id = Some cb ->
        id = (if serverReady st then 1 else 0)
        /\ cb = (if serverReady st then AppReadyTimedOut
                 else ServerReadyTimedOut)
        /\ calls (step st (TimerExpired id))
           = calls st ++ [Reject (timedOut launchArgs cb)]
        /\ timers (step st (TimerExpired id)) = ∅
        /\ (serverStarting st = Pending ->
            serverStarting (step st (TimerExpired id))
            = Rejected (timedOut launchArgs cb)))
  /\ timedOut launchArgs ServerReadyTimedOut
     = RejText ("Starting the Ionic dev server timed out ("
                ++ printed serverDeadline ++ " ms)")
  /\ timedOut launchArgs AppReadyTimedOut
     = RejText ("Building and deploying the app timed out ("
                ++ printed appDeadline ++ " ms)")
  /\ (forall n, devServerTimeout launchArgs = Some n -> falsy n = false ->
      serverDeadline = n /\ appDeadline = n)
  /\ (forall cb message, timedOut launchArgs cb <> RejError message)
  /\ (forall cb code, timedOut launchArgs cb <> RejSpawn code).
Proof.
  intros st st' deadline serverDeadline appDeadline.
  pose proof (Inv_run events _ Inv_started) as H. fold st in H.
  assert (Hstep : forall e, step st e = after e st)
    by (intros e; now apply step_after).
  subst st'. rewrite Hstep.
  split; [exact (timerHistory_run events) |].
  split; [apply after_calls |].
  split.
  { rewrite (emitted_timer_call ev st (ClearTimeout 0) H eq_refl).
    unfold serverReadyTimerCalls, appReadyTimerCalls. simpl.
    split; [intros [[[_ | [? | []]] ?] | [[? | []] _]]; try discriminate; tauto
           | tauto]. }
  split.
  { intros id cb ms. rewrite (emitted_timer_call ev st (SetTimeout id cb ms) H eq_refl).
    unfold serverReadyTimerCalls, appReadyTimerCalls. simpl.
    split; [intros [[[? | [? | []]] ?] | [[? | []] _]]; try discriminate; auto
           | intros [-> ?]; tauto]. }
  split.
  { rewrite (emitted_timer_call ev st (ClearTimeout 1) H eq_refl).
    unfold serverReadyTimerCalls, appReadyTimerCalls. simpl.
    split; [intros [[[? | [? | []]] ?] | [[? | []] ?]]; try discriminate; tauto
           | tauto]. }
  split.
  { intros Har.
    assert (Ht : timers st = ∅).
    { destruct H as (Ha & _ & _ & _ & He). revert He. unfold timersOk.
      rewrite Har, (Ha Har). tauto. }
    split; [exact Ht |]. intros id. rewrite Hstep. cbn [after].
    unfold afterTimer. now rewrite Ht, lookup_empty. }
  split.
  { intros id cb Hid. rewrite Hstep. cbn [after].
    destruct (timers_fired st id cb H Hid) as (Hdel & -> & -> & _).
    destruct (timer_ids st H) as [-> _].
    destruct (afterTimer_fields (if serverReady st then 1 else 0) st)
      as (_ & _ & _ & _ & Ht & Hp & Hc).
    destruct (timer_ids st H) as [Hrt _]. rewrite Hrt in Hid, Hdel.
    rewrite Hid in Ht, Hp. unfold timerCalls in Hc. rewrite Hid in Hc.
    repeat split; try assumption; try (now rewrite Ht).
    intros Hpend. now rewrite Hp, Hpend. }
  split; [apply (timedOut_text ServerReadyTimedOut) |].
  split; [apply (timedOut_text AppReadyTimedOut) |].
  split.
  { intros n Hn Hf. subst serverDeadline appDeadline deadline. cbv beta.
    now rewrite Hn, Hf. }
  split; intros cb x; now rewrite timedOut_text.
Qed.

Lemma rejectAll_settled (rs : list Rejection)
  (p : Settled (option (list string))) :
  p <> Pending -> rejectAll rs p = p.
Proof.
  revert p. induction rs as [|r rs IH]; intros p Hp; [reflexivity |].
  cbn [rejectAll fold_left]. fold (rejectAll rs (orSettled p (Rejected r))).
  destruct p; [now contradiction Hp | |]; apply IH; discriminate.
Qed.

Lemma rejectAll_pending (rs : list Rejection) :
  rejectAll rs Pending
  = match rs with
    | [] => Pending
    | r :: _ => Rejected r
    end.
Proof.
  destruct rs as [|r rs]; [reflexivity |].
  cbn [rejectAll fold_left]. fold (rejectAll rs (Rejected r)).
  now apply rejectAll_settled.
Qed.

Lemma rejectAll_app (rs rs' : list Rejection)
  (p : Settled (option (list string))) :
  rejectAll (rs ++ rs') p = rejectAll rs' (rejectAll rs p).
Proof. unfold rejectAll. apply fold_left_app. Qed.

Lemma after_promise (ev : Event) (st : DevServer) :
  serverStarting (after ev st)
  = rejectAll (rejections ev st) (orSettled (serverStarting st) (fulfilment ev st)).
Proof.
  assert (Hp : forall p : Settled (option (list string)), orSettled p Pending = p)
    by (now intros []).
  unfold fulfilment.
  destruct ev as [data|data|code| |id]; cbn [after rejections readsOutput].
  - apply afterStdout_fields.
  - unfold afterStderr.
    destruct (afterErrOutput_fields data (if ionic4 then afterStdout data st else st))
      as (_ & _ & _ & _ & -> & _).
    rewrite rejectAll_app. destruct ionic4.
    + destruct (afterStdout_fields st data) as (_ & -> & _ & _ & -> & _).
      reflexivity.
    + now rewrite Hp.
  - rewrite afterError_eq, Hp. apply exec_reject_fields.
  - rewrite Hp. apply afterExit_fields.
  - rewrite Hp.
    destruct (afterTimer_fields id st) as (_ & _ & _ & _ & _ & -> & _).
    now destruct (timers st !! id).
Qed.

Lemma in_map_Reject (r : Rejection) (rs : list Rejection) :
  In (Reject r) (map Reject rs) <-> In r rs.
Proof.
  rewrite in_map_iff. split; [intros (x & [= ->] & H); exact H | eauto].
Qed.

Lemma emitted_rejections (ev : Event) (st : DevServer) (r : Rejection) :
  In (Reject r) (emitted ev st) <-> In r (rejections ev st).
Proof.
  assert (Hs : forall data, In (Reject r) (stdoutCalls st data)
                            <-> In r (fatal (serverOut st ++ data))).
  { intros data. unfold stdoutCalls, serverCalls, appCalls. cbn [In].
    rewrite !in_app_iff, in_map_Reject.
    destruct (becomesServerReady _ _), (becomesAppReady _ _); cbn [In];
      intuition discriminate. }
  destruct ev as [data|data|code| |id]; cbn [emitted rejections].
  - apply Hs.
  - rewrite !in_app_iff, in_map_Reject.
    destruct ionic4; [now rewrite Hs | reflexivity].
  - cbn [In]. intuition congruence.
  - unfold exitCalls. rewrite in_app_iff.
    destruct (negb _ && negb _); cbn [In]; intuition congruence.
  - unfold timerCalls. destruct (timers st !! id); cbn [In]; intuition congruence.
Qed.

Lemma occursIn_app_r (sub a b : string) :
  occursIn sub b -> occursIn sub (a ++ b).
Proof.
  intros (x & y & ->). exists (a ++ x)%string, y. now rewrite append_assoc'.
Qed.

Lemma occursIn_app_l (sub a b : string) :
  occursIn sub a -> occursIn sub (a ++ b).
Proof.
  intros (x & y & ->). exists x, (y ++ b)%string.
  now rewrite !append_assoc'.
Qed.

Lemma errorMessage_ionic4 (channel : string) :
  ionic4 = true -> occursIn benign channel -> errorMessage channel = None.
Proof.
  intros H4 Hb. apply includes_spec in Hb. unfold getServerErrorMessage.
  fold ionic4. unfold skipErrorMatch. fold benign. now rewrite H4, Hb.
Qed.

Lemma errorMessage_earlier (channel : string) :
  ionic4 = false ->
  errorMessage channel
  = option_map
      (fun errorMatch0 =>
         ("Error in the Ionic live reload server: " ++ EOL ++ errorMatch0)%string)
      (search errorRegex channel).
Proof.
  intros H4. unfold getServerErrorMessage. fold ionic4. rewrite H4.
  cbn [andb]. destruct (search errorRegex channel) as [m|]; [| reflexivity].
  unfold localize, format0. simpl. now rewrite append_empty_r.
Qed.

(** C2, as amended.  With a tool version of at least 4.0.0 an output that
    holds the message of the network probe yields no error message, on
    either stream, and the handlers of the output reject for no other reason
    than several network interfaces; a promise they find pending is not
    rejected unless those are reported.  With an earlier version the message
    plays no part: the error message is the one of the first match of the
    error pattern, if there is one, and then the handler rejects with it, a
    pending promise too unless the same chunk makes the app ready or reports
    several interfaces; the message of the probe alone holds no match. *)
Theorem C2_network_probe_message (events : list Event) (data : string) :
  let st := run events (started launchArgs) in
  let out := (serverOut st ++ data)%string in
  let several := includes "Multiple network interfaces detected" out in
  (ionic4 = true -> occursIn benign data ->
   errorMessage out = None
   /\ errorMessage (serverErr st ++ data) = None
   /\ forall ev, ev = StdoutData data \/ ev = StderrData data ->
        (forall r, In (Reject r) (emitted ev st) ->
           several = true
           /\ r = RejError (multipleInterfacesMessage EOL out))
        /\ (several = false ->
            forall r, serverStarting (step st ev) = Rejected r ->
                      serverStarting st = Rejected r))
  /\ (ionic4 = false ->
      errorMessage out
      = option_map
          (fun errorMatch0 =>
             ("Error in the Ionic live reload server: " ++ EOL ++ errorMatch0)%string)
          (search errorRegex out)
      /\ forall errorMatch0, search errorRegex out = Some errorMatch0 ->
           let failure :=
             RejError ("Error in the Ionic live reload server: " ++ EOL
                       ++ errorMatch0) in
           In (Reject failure) (emitted (StdoutData data) st)
           /\ (serverStarting st = Pending -> several = false ->
               appReady (step st (StdoutData data)) = false ->
               serverStarting (step st (StdoutData data)) = Rejected failure))
  /\ search errorRegex benign = None.
Proof.
  intros st out several.
  pose proof (Inv_run events _ Inv_started) as H. fold st in H.
  split; [| split; [| reflexivity]].
  - intros H4 Hb.
    assert (Ho : errorMessage out = None)
      by (apply errorMessage_ionic4; [exact H4 | now apply occursIn_app_r]).
    assert (He : errorMessage (serverErr st ++ data) = None)
      by (apply errorMessage_ionic4; [exact H4 | now apply occursIn_app_r]).
    split; [exact Ho | split; [exact He |]].
    intros ev Hev.
    assert (Hrs : rejections ev st
                  = if several then [RejError (multipleInterfacesMessage EOL out)]
                    else []).
    { destruct Hev as [-> | ->]; cbn [rejections]; rewrite ?H4;
        unfold fatal, errorPart; fold out; fold several; rewrite Ho, ?He;
        now destruct several. }
    split.
    + intros r Hr. apply emitted_rejections in Hr. rewrite Hrs in Hr.
      destruct several; [| destruct Hr].
      destruct Hr as [<- | []]. auto.
    + intros Hs r. rewrite step_after, after_promise, Hrs, Hs by exact H.
      cbn [rejectAll fold_left]. unfold fulfilment.
      destruct (serverStarting st); cbn [orSettled]; try congruence.
      destruct (readsOutput ev); [destruct (becomesAppReady _ _) |];
        discriminate.
  - intros H4. split; [now apply errorMessage_earlier |].
    intros m Hm failure.
    assert (He : errorPart out = [failure]).
    { unfold errorPart. now rewrite (errorMessage_earlier out H4), Hm. }
    split.
    + apply emitted_rejections. cbn [rejections]. unfold fatal. fold out.
      rewrite He, in_app_iff. right. now left.
    + intros Hp Hs Hno. revert Hno.
      rewrite step_after, after_promise by exact H.
      destruct (after_flags (StdoutData data) st) as [_ ->].
      cbn [readsOutput rejections]. unfold fulfilment. cbn [readsOutput].
      fold out. unfold fatal. fold several. rewrite Hs, He, Hp.
      intros Hno. apply orb_false_iff in Hno as [_ ->]. reflexivity.
Qed.

Lemma mChar_Some {R} (p : ascii -> bool) (k : string -> option R)
  (s : string) (r : R) :
  mChar p k s = Some r ->
  exists c s', s = String c s' /\ p c = true /\ k s' = Some r.
Proof.
  destruct s as [|c s]; simpl; [discriminate |].
  destruct (p c) eqn:E; [| discriminate]. eauto.
Qed.

Lemma mStar_Some {R} (p : ascii -> bool) (k : string -> option R)
  (s : string) (r : R) :
  mStar p k s = Some r ->
  exists s1 s2, s = (s1 ++ s2)%string /\ allChars p s1 = true /\ k s2 = Some r.
Proof.
  induction s as [|c s IH]; simpl.
  - intros H. now exists EmptyString, EmptyString.
  - destruct (p c) eqn:E.
    + destruct (mStar p k s) as [r'|] eqn:Hs; simpl.
      * intros [= <-]. destruct (IH eq_refl) as (s1 & s2 & -> & H1 & H2).
        exists (String c s1), s2. simpl. now rewrite E.
      * intros H. now exists EmptyString, (String c s).
    + intros H. now exists EmptyString, (String c s).
Qed.

Lemma mLit_eqCS_Some {R} (lit : string) (k : string -> option R)
  (s : string) (r : R) :
  mLit eqCS lit k s = Some r ->
  exists s', s = (lit ++ s')%string /\ k s' = Some r.
Proof.
  revert s. induction lit as [|a lit IH]; intros s; simpl.
  - intros H. now exists s.
  - intros H. apply mChar_Some in H as (c & s' & -> & Hc & H).
    apply Ascii.eqb_eq in Hc as <-. destruct (IH _ H) as (s'' & -> & Hk).
    now exists s''.
Qed.

Lemma mStar_greedy {R} (p : ascii -> bool) (k : string -> option R)
  (s1 s2 : string) :
  allChars p s1 = true -> is_Some (k s2) ->
  match s2 with
  | String c _ => p c = false
  | EmptyString => True
  end ->
  mStar p k (s1 ++ s2) = k s2.
Proof.
  intros H1 [r Hr] H2. induction s1 as [|c s1 IH]; simpl in *.
  - destruct s2 as [|c s2]; simpl; [reflexivity | now rewrite H2].
  - apply andb_true_iff in H1 as [-> H1]. rewrite (IH H1), Hr. reflexivity.
Qed.

Lemma allChars_app (p : ascii -> bool) (a b : string) :
  allChars p (a ++ b) = allChars p a && allChars p b.
Proof.
  induction a as [|c a IH]; simpl; [reflexivity |].
  now rewrite IH, andb_assoc.
Qed.

Lemma allChars_weaken (p q : ascii -> bool) (s : string) :
  (forall c, p c = true -> q c = true) ->
  allChars p s = true -> allChars q s = true.
Proof.
  intros Hpq. induction s as [|c s IH]; simpl; [reflexivity |].
  intros [Hc Hs]%andb_true_iff. now rewrite (Hpq c Hc), (IH Hs).
Qed.

Lemma digit_is_dot (c : ascii) : isDigit c = true -> dot c = true.
Proof.
  destruct c as [[] [] [] [] [] [] [] []]; vm_compute; congruence.
Qed.

(** What a match of [addressRegex] reads: a line of the numbered form. *)
Lemma addressRegex_Some (s rest : string) :
  addressRegex s = Some rest ->
  exists m, s = (m ++ rest)%string /\ m <> EmptyString /\ allChars dot m = true.
Proof.
  unfold addressRegex, mPlus. intros H.
  apply mChar_Some in H as (c & s' & -> & Hc & H).
  apply mStar_Some in H as (ds & s2 & -> & Hds & H).
  apply mLit_eqCS_Some in H as (s3 & -> & H).
  apply mStar_Some in H as (body & s4 & -> & Hbody & [= ->]).
  exists (String c (ds ++ ") " ++ body)). split; [| split].
  - simpl. now rewrite !append_assoc'.
  - discriminate.
  - cbn [allChars]. rewrite (digit_is_dot c Hc), allChars_app.
    rewrite (allChars_weaken _ _ ds digit_is_dot Hds).
    change (") " ++ body)%string with (String ")" (String " " body)).
    cbn [allChars]. now rewrite Hbody.
Qed.

Lemma addressRegex_line (line after : string) :
  numbered line -> atLineEnd after = true ->
  addressRegex (line ++ after) = Some after.
Proof.
  intros (ds & rest & -> & Hne & Hds & Hrest) Hafter.
  destruct ds as [|d ds]; [now contradiction Hne |].
  simpl in Hds. apply andb_true_iff in Hds as [Hd Hds].
  unfold addressRegex, mPlus. simpl. rewrite Hd.
  rewrite !append_assoc'.
  rewrite mStar_greedy; [| exact Hds | | reflexivity].
  - simpl. unfold eqCS. simpl. rewrite mStar_greedy; try assumption.
    + reflexivity.
    + now exists after.
    + destruct after as [|c after]; [exact I |]. simpl in Hafter.
      unfold dot. now rewrite Hafter.
  - simpl. unfold eqCS. simpl. rewrite mStar_greedy; try assumption.
    + now exists after.
    + now exists after.
    + destruct after as [|c after]; [exact I |]. simpl in Hafter.
      unfold dot. now rewrite Hafter.
Qed.

Lemma take_app_length (m rest : string) :
  take (String.length m) (m ++ rest) = m.
Proof. induction m as [|c m IH]; simpl; [reflexivity | now rewrite IH]. Qed.

Lemma matched_app (m rest : string) : matched (m ++ rest) rest = m.
Proof.
  unfold matched. rewrite length_append'.
  replace (String.length m + String.length rest - String.length rest)
    with (String.length m) by lia.
  apply take_app_length.
Qed.

Lemma no_terminator_prefix (m rest before c after : string) (lt : ascii) :
  (m ++ rest)%string = (before ++ String lt after)%string ->
  allChars dot m = true -> isLineTerminator lt = true ->
  String.length m <= String.length before.
Proof.
  revert before. induction m as [|x m IH]; intros before; simpl; [lia |].
  destruct before as [|y before]; simpl.
  - intros [= -> _] [Hx _]%andb_true_iff Hlt. unfold dot in Hx.
    rewrite Hlt in Hx. discriminate.
  - intros [= _ H] [_ Hm]%andb_true_iff Hlt.
    specialize (IH before H Hm Hlt). lia.
Qed.

Lemma lineStart_tail (a : ascii) (before : string) :
  lineStart (String a before) -> lineStart before.
Proof.
  intros [H | (b & c & H & Hc)]; [discriminate |].
  destruct b as [|x b]; simpl in H; injection H as _ ->.
  - now left.
  - right. now exists b, c.
Qed.

(** The loop over the matches of [addressRegex] finds every numbered line:
    every text that starts a line, has the numbered form and runs to the end
    of its line. *)
Lemma execAll_finds (line after : string) :
  numbered line -> atLineEnd after = true ->
  forall before skip,
    lineStart before -> skip = 0 \/ skip < String.length before ->
    In line (execAll addressRegex skip (before ++ line ++ after)).
Proof.
  intros Hline Hafter.
  pose proof (addressRegex_line line after Hline Hafter) as Hm.
  induction before as [|a before IH]; intros skip Hstart Hskip.
  - assert (skip = 0) as -> by (simpl in Hskip; lia).
    change (EmptyString ++ line ++ after)%string with (line ++ after)%string.
    destruct (line ++ after)%string as [|c s] eqn:E.
    + destruct Hline as (ds & rest & -> & Hne & _).
      destruct ds; [now contradiction Hne | discriminate].
    + cbn [execAll]. rewrite Hm, <- E, matched_app. now left.
  - pose proof (lineStart_tail a before Hstart) as Htail.
    change (String a before ++ line ++ after)%string
      with (String a (before ++ line ++ after)).
    cbn [execAll]. destruct skip as [|n].
    + destruct (addressRegex (String a (before ++ line ++ after)))
        as [rest|] eqn:Hmatch.
      * right. apply IH; [exact Htail |]. right.
        destruct (addressRegex_Some _ _ Hmatch) as (m & Hs & Hne & Hdot).
        destruct Hstart as [H | (b & c & Hb & Hc)]; [discriminate |].
        assert (Hlen : String.length m <= String.length b).
        { apply (no_terminator_prefix m rest b EmptyString (line ++ after) c);
            try assumption.
          rewrite <- Hs.
          change (String a (before ++ line ++ after))
            with (String a before ++ line ++ after)%string.
          now rewrite Hb, append_assoc'. }
        assert (String.length (String a before) = String.length b + 1)
          by (rewrite Hb, length_append'; reflexivity).
        rewrite Hs, length_append'. simpl in H.
        destruct m; [now contradiction Hne |]. simpl in *. lia.
      * apply IH; [exact Htail | now left].
    + apply IH; [exact Htail |]. right. simpl in Hskip. lia.
Qed.

Lemma join_occurs (sep a : string) (l : list string) :
  In a l -> occursIn a (join sep l).
Proof.
  induction l as [|x l IH]; [intros [] |].
  intros [-> | Hin].
  - destruct l as [|y l]; simpl.
    + exists EmptyString, EmptyString. now rewrite append_empty_r.
    + now exists EmptyString, (sep ++ join sep (y :: l))%string.
  - destruct l as [|y l]; [destruct Hin |].
    change (join sep (x :: y :: l))
      with (x ++ sep ++ join sep (y :: l))%string.
    now apply occursIn_app_r, occursIn_app_r, IH.
Qed.

Lemma address_in_message (out a : string) :
  In a (execAll addressRegex 0 out) ->
  occursIn a (multipleInterfacesMessage EOL out).
Proof.
  intros Hin. unfold multipleInterfacesMessage.
  destruct (execAll addressRegex 0 out) as [|x l] eqn:E; [destruct Hin |].
  cbn [length Nat.ltb Nat.leb]. apply occursIn_app_r, join_occurs.
  now right.
Qed.

Lemma flags_stay (events : list Event) (st : DevServer) :
  Inv st ->
  (serverReady st = true -> serverReady (run events st) = true)
  /\ (appReady st = true -> appReady (run events st) = true).
Proof.
  revert st. induction events as [|ev events IH]; intros st H; [tauto |].
  cbn [IonicDevServer.run fold_left]. rewrite step_after by exact H.
  destruct (IH (after ev st) (Inv_after ev st H)) as [IHs IHa].
  destruct (after_flags ev st) as [Hs Ha].
  split; intros Hst; [apply IHs; rewrite Hs | apply IHa; rewrite Ha];
    rewrite Hst; now destruct (readsOutput ev).
Qed.

Lemma calls_grow (events : list Event) (st : DevServer) (c : Call) :
  Inv st -> In c (calls st) -> In c (calls (run events st)).
Proof.
  revert st. induction events as [|ev events IH]; intros st H Hin; [exact Hin |].
  cbn [IonicDevServer.run fold_left]. rewrite step_after by exact H.
  apply IH; [now apply Inv_after |].
  rewrite after_calls. apply in_app_iff. now left.
Qed.

Lemma settled_stays (events : list Event) (st : DevServer) :
  Inv st -> serverStarting st <> Pending ->
  serverStarting (run events st) = serverStarting st.
Proof.
  revert st. induction events as [|ev events IH]; intros st H Hp; [reflexivity |].
  change (run (ev :: events) st) with (run events (step st ev)).
  rewrite step_after by exact H.
  assert (Hs : serverStarting (after ev st) = serverStarting st).
  { rewrite after_promise.
    destruct (serverStarting st); [now contradiction Hp | |];
      cbn [orSettled]; apply rejectAll_settled; discriminate. }
  rewrite IH; [exact Hs | now apply Inv_after | now rewrite Hs].
Qed.

(** C8, as amended.  Take a chunk that the output handler reads: a chunk of
    the standard output, or, under a tool of version 4 or later, a chunk of
    the standard error.  When the output accumulated with it holds the
    message about several network interfaces, the handler of the chunk calls
    [reject] with an error whose message holds, verbatim, every match of the
    address pattern in the output accumulated so far, and so every numbered
    line of it.  A promise the handler finds pending is rejected with this
    error, and stays so whatever follows, unless the same chunk makes the
    app ready, which fulfils it; a promise settled before stays as it
    was. *)
Theorem C8_multiple_interfaces (events : list Event) (ev : Event)
  (data : string) :
  let st := run events (started launchArgs) in
  let out := (serverOut st ++ data)%string in
  let st' := step st ev in
  let failure := RejError (multipleInterfacesMessage EOL out) in
  readsOutput ev = Some data ->
  includes "Multiple network interfaces detected" out = true ->
  (ev = StdoutData data \/ (ionic4 = true /\ ev = StderrData data))
  /\ serverOut st' = out
  /\ In (Reject failure) (emitted ev st)
  /\ In (Reject failure) (calls st')
  /\ (serverStarting st = Pending -> appReady st' = false ->
      serverStarting st' = Rejected failure
      /\ forall more, serverStarting (run more st') = Rejected failure)
  /\ (serverStarting st = Pending -> appReady st' = true ->
      serverStarting st' = Fulfilled (Some (urlsOf out)))
  /\ (serverStarting st <> Pending -> serverStarting st' = serverStarting st)
  /\ (forall a, In a (execAll addressRegex 0 out) ->
      occursIn a (multipleInterfacesMessage EOL out))
  /\ (forall before line after,
        out = (before ++ line ++ after)%string ->
        lineStart before -> atLineEnd after = true -> numbered line ->
        In line (execAll addressRegex 0 out)
        /\ occursIn line (multipleInterfacesMessage EOL out)).
Proof.
  intros st out st' failure Hreads Hseveral.
  pose proof (Inv_run events _ Inv_started) as H. fold st in H.
  assert (Hev : ev = StdoutData data \/ (ionic4 = true /\ ev = StderrData data)).
  { destruct ev as [d|d|code| |id]; cbn [readsOutput] in Hreads;
      try discriminate.
    - injection Hreads as ->. now left.
    - destruct ionic4; [| discriminate]. injection Hreads as ->. now right. }
  assert (Hrej : exists rest, rejections ev st = failure :: rest).
  { destruct Hev as [-> | [E ->]]; cbn [rejections]; rewrite ?E; unfold fatal;
      fold out; rewrite Hseveral; eexists; reflexivity. }
  destruct Hrej as [rest Hrej].
  assert (Hem : In (Reject failure) (emitted ev st)).
  { apply emitted_rejections. rewrite Hrej. now left. }
  assert (Hflag : appReady (after ev st) = appReady st || becomesAppReady st out).
  { destruct (after_flags ev st) as [_ ->]. now rewrite Hreads. }
  assert (Hfail : serverStarting st = Pending -> appReady (after ev st) = false ->
                  serverStarting (after ev st) = Rejected failure).
  { intros Hp Hn. rewrite Hflag in Hn. apply orb_false_iff in Hn as [_ Hb].
    rewrite after_promise, Hrej, Hp. unfold fulfilment. rewrite Hreads.
    fold out. rewrite Hb. cbn [orSettled]. now rewrite rejectAll_pending. }
  subst st'. rewrite step_after by exact H.
  split; [exact Hev |].
  split; [now rewrite after_serverOut, Hreads |].
  split; [exact Hem |].
  split; [rewrite after_calls; apply in_app_iff; now right |].
  split.
  { intros Hp Hn. split; [now apply Hfail |]. intros more.
    rewrite settled_stays; [now apply Hfail | now apply Inv_after |].
    rewrite (Hfail Hp Hn). discriminate. }
  split.
  { intros Hp Ha. rewrite Hflag in Ha.
    assert (Hb : becomesAppReady st out = true).
    { destruct (appReady st) eqn:Har; [| exact Ha].
      destruct H as (_ & _ & _ & Hd & _). now contradiction (Hd Har). }
    rewrite after_promise, Hp. unfold fulfilment. rewrite Hreads. fold out.
    rewrite Hb. cbn [orSettled]. apply rejectAll_settled. discriminate. }
  split.
  { intros Hp. rewrite after_promise.
    destruct (serverStarting st); [now contradiction Hp | |];
      cbn [orSettled]; apply rejectAll_settled; discriminate. }
  split; [apply address_in_message |].
  intros before line after Hout Hstart Hafter Hline.
  assert (Hin : In line (execAll addressRegex 0 out)).
  { rewrite Hout. apply execAll_finds; auto. }
  split; [exact Hin | now apply address_in_message].
Qed.

(** **** Runs over chunks of output *)

Lemma joined_app (a b : list string) :
  joined (a ++ b) = (joined a ++ joined b)%string.
Proof.
  induction a as [|x a IH]; simpl; [reflexivity |].
  now rewrite IH, append_assoc'.
Qed.

Lemma joined_snoc (chunks : list string) (data : string) :
  joined (chunks ++ [data]) = (joined chunks ++ data)%string.
Proof. rewrite joined_app. simpl. now rewrite append_empty_r. Qed.

Lemma Inv_received (chunks : list string) : Inv (received chunks).
Proof. apply Inv_run, Inv_started. Qed.

Lemma received_snoc (chunks : list string) (data : string) :
  received (chunks ++ [data]) = after (StdoutData data) (received chunks).
Proof.
  unfold received. rewrite map_app.
  change (map StdoutData [data]) with [StdoutData data].
  rewrite run_snoc. apply step_after, Inv_received.
Qed.

Lemma received_out (chunks : list string) :
  serverOut (received chunks) = joined chunks.
Proof.
  induction chunks as [|data chunks IH] using rev_ind; [reflexivity |].
  rewrite received_snoc, after_serverOut, joined_snoc, IH. reflexivity.
Qed.

Lemma received_flags (chunks : list string) (data : string) :
  serverReady (received (chunks ++ [data]))
  = serverReady (received chunks)
    || isSome (search SERVER_URL_RE (joined (chunks ++ [data])))
  /\ appReady (received (chunks ++ [data]))
     = appReady (received chunks)
       || becomesAppReady (received chunks) (joined (chunks ++ [data])).
Proof.
  rewrite received_snoc, joined_snoc, <- received_out.
  apply (after_flags (StdoutData data)).
Qed.

Lemma emitted_resolve (ev : Event) (st : DevServer) (v : option (list string)) :
  In (Resolve v) (emitted ev st)
  <-> exists data,
        readsOutput ev = Some data
        /\ becomesAppReady st (serverOut st ++ data) = true
        /\ v = Some (urlsOf (serverOut st ++ data)).
Proof.
  assert (Hr : forall rs, ~ In (Resolve v) (map Reject rs)).
  { intros rs (x & Hx & _)%in_map_iff. discriminate. }
  assert (Hs : forall data,
            In (Resolve v) (stdoutCalls st data)
            <-> becomesAppReady st (serverOut st ++ data) = true
                /\ v = Some (urlsOf (serverOut st ++ data))).
  { intros data. unfold stdoutCalls. cbn [In]. rewrite !in_app_iff. split.
    - intros [Hx | [Hx | [Hx | Hx]]]; [discriminate | | | now apply Hr in Hx].
      + unfold serverCalls in Hx. destruct (becomesServerReady _ _);
          [| destruct Hx].
        destruct Hx as [Hx | [Hx | [Hx | []]]]; discriminate.
      + unfold appCalls in Hx. destruct (becomesAppReady _ _); [| destruct Hx].
        destruct Hx as [Hx | [Hx | []]]; [discriminate |].
        injection Hx as <-. auto.
    - intros [Hb ->]. right. right. left. unfold appCalls. rewrite Hb.
      right. now left. }
  destruct ev as [data|data|code| |id]; cbn [emitted readsOutput].
  - rewrite Hs. split; [intros [? ?]; now exists data |].
    now intros (d & [= <-] & ? & ?).
  - rewrite in_app_iff. destruct ionic4.
    + rewrite Hs. split.
      * intros [[? ?] | Hx]; [now exists data | now apply Hr in Hx].
      * intros (d & [= <-] & ? & ?). now left.
    + split; [intros [[] | Hx]; now apply Hr in Hx |].
      intros (d & Hd & _). discriminate.
  - split; [intros [Hx | []]; discriminate | intros (d & Hd & _); discriminate].
  - unfold exitCalls. rewrite in_app_iff. split.
    + destruct (negb _ && negb _); cbn [In]; intuition discriminate.
    + intros (d & Hd & _). discriminate.
  - unfold timerCalls. split.
    + destruct (timers st !! id); cbn [In]; intuition discriminate.
    + intros (d & Hd & _). discriminate.
Qed.

Lemma resolve_only_when_ready (events : list Event)
  (v : option (list string)) :
  let st := run events (started launchArgs) in
  In (Resolve v) (calls st) -> appReady st = true /\ serverReady st = true.
Proof.
  intros st. subst st.
  assert (Hgoal : In (Resolve v) (calls (run events (started launchArgs))) ->
                  appReady (run events (started launchArgs)) = true).
  { induction events as [|ev events IH] using rev_ind.
    - cbn. intros [Hx | [Hx | []]]; discriminate.
    - pose proof (Inv_run events _ Inv_started) as H.
      rewrite run_snoc, step_after, after_calls by exact H.
      destruct (after_flags ev (run events (started launchArgs))) as [_ ->].
      intros [Hin | Hin]%in_app_iff.
      + rewrite (IH Hin). now destruct (readsOutput ev).
      + apply emitted_resolve in Hin as (data & -> & -> & _).
        apply orb_true_r. }
  intros Hin. split; [now apply Hgoal |].
  now apply (Inv_run events _ Inv_started), Hgoal.
Qed.

Lemma firstn_snoc_le {A} (j : nat) (l : list A) (x : A) :
  j <= length l -> firstn j (l ++ [x]) = firstn j l.
Proof.
  intros Hj. rewrite firstn_app.
  replace (j - length l) with 0 by lia. simpl. apply app_nil_r.
Qed.

(** While the app is not ready and no fatal pattern has shown, the promise
    is pending. *)
Lemma pending_before (chunks : list string) :
  appReady (received chunks) = false ->
  (forall j, j <= length chunks -> fatal (joined (firstn j chunks)) = []) ->
  serverStarting (received chunks) = Pending.
Proof.
  induction chunks as [|data chunks IH] using rev_ind; [reflexivity |].
  destruct (received_flags chunks data) as [_ ->].
  intros [Har Hb]%orb_false_iff Hfatal.
  rewrite received_snoc, after_promise. cbn [rejections].
  unfold fulfilment. cbn [readsOutput].
  rewrite received_out, <- joined_snoc, Hb.
  specialize (Hfatal (length (chunks ++ [data])) (le_n _)) as Hlast.
  rewrite firstn_all in Hlast. rewrite Hlast, IH; [reflexivity | exact Har |].
  intros j Hj. rewrite <- (firstn_snoc_le j chunks data Hj).
  apply Hfatal. rewrite length_app. simpl. lia.
Qed.

(** Once the app is ready, [_resolve] has been called with the URLs captured
    in the output accumulated up to some chunk, and the promise is fulfilled
    with them if no fatal pattern had shown before that chunk. *)
Lemma resolved_with_urls (chunks : list string) :
  appReady (received chunks) = true ->
  exists k,
    1 <= k <= length chunks
    /\ isSome (search SERVER_URL_RE (joined (firstn k chunks))) = true
    /\ In (Resolve (Some (urlsOf (joined (firstn k chunks)))))
         (calls (received chunks))
    /\ ((forall j, j < k -> fatal (joined (firstn j chunks)) = []) ->
        serverStarting (received chunks)
        = Fulfilled (Some (urlsOf (joined (firstn k chunks))))).
Proof.
  induction chunks as [|data chunks IH] using rev_ind; [discriminate |].
  destruct (received_flags chunks data) as [_ ->].
  rewrite length_app. cbn [length].
  destruct (appReady (received chunks)) eqn:Har.
  - intros _. destruct (IH eq_refl) as (k & Hk & Hm & Hin & Hp).
    exists k. rewrite (firstn_snoc_le k chunks data) by lia.
    split; [lia | split; [exact Hm | split]].
    + rewrite received_snoc, after_calls. apply in_app_iff. now left.
    + intros Hfatal.
      assert (Hs : serverStarting (received chunks)
                   = Fulfilled (Some (urlsOf (joined (firstn k chunks))))).
      { apply Hp. intros j Hj.
        rewrite <- (firstn_snoc_le j chunks data) by lia. now apply Hfatal. }
      rewrite received_snoc, after_promise, Hs. cbn [orSettled].
      apply rejectAll_settled. discriminate.
  - cbn [orb]. intros Hb. exists (length chunks + 1).
    replace (length chunks + 1) with (length (chunks ++ [data]))
      by (rewrite length_app; reflexivity).
    rewrite firstn_all.
    split; [rewrite length_app; simpl; lia |].
    split; [now apply becomesAppReady_flags in Hb |].
    assert (Hf : fulfilment (StdoutData data) (received chunks)
                 = Fulfilled (Some (urlsOf (joined (chunks ++ [data]))))).
    { unfold fulfilment. cbn [readsOutput].
      now rewrite received_out, <- joined_snoc, Hb. }
    split.
    + rewrite received_snoc, after_calls. apply in_app_iff. right.
      apply emitted_resolve. exists data.
      rewrite received_out, <- joined_snoc. auto.
    + intros Hfatal. rewrite received_snoc, after_promise, Hf.
      rewrite pending_before; [| exact Har |].
      * cbn [orSettled]. apply rejectAll_settled. discriminate.
      * intros j Hj. rewrite <- (firstn_snoc_le j chunks data Hj).
        apply Hfatal. rewrite length_app. simpl. lia.
Qed.

Lemma server_ready_shown (chunks : list string) :
  isSome (search SERVER_URL_RE (joined chunks)) = true ->
  serverReady (received chunks) = true.
Proof.
  destruct chunks as [|data chunks _] using rev_ind; [discriminate |].
  intros Hm. destruct (received_flags chunks data) as [-> _].
  rewrite Hm. apply orb_true_r.
Qed.

Lemma urlsOf_nonempty (out : string) :
  isSome (search SERVER_URL_RE out) = true -> urlsOf out <> [].
Proof.
  unfold urlsOf, collectUrls.
  destruct (search SERVER_URL_RE out); [discriminate | discriminate].
Qed.

Lemma thenUrls_fulfilled (urls : list string) :
  urls <> [] ->
  thenUrls (Fulfilled (Some urls)) = Fulfilled (map stripAnsi urls).
Proof. destruct urls; [congruence | reflexivity]. Qed.

(** **** Runs over events of any kind *)

Lemma orSettled_pending {A} (p : Settled A) : orSettled p Pending = p.
Proof. now destruct p. Qed.

Lemma rejected_app (a b : list Call) :
  rejected (a ++ b) = rejected a ++ rejected b.
Proof.
  induction a as [|c a IH]; [reflexivity |].
  destruct c; cbn [app rejected]; now rewrite IH.
Qed.

Lemma rejected_map (rs : list Rejection) : rejected (map Reject rs) = rs.
Proof. induction rs as [|r rs IH]; cbn [map rejected]; congruence. Qed.

(** The handler of an event calls [reject] with the reasons of
    [rejections], in their order. *)
Lemma rejected_emitted (ev : Event) (st : DevServer) :
  rejected (emitted ev st) = rejections ev st.
Proof.
  assert (Hs : forall data,
            rejected (stdoutCalls st data) = fatal (serverOut st ++ data)).
  { intros data. unfold stdoutCalls, serverCalls, appCalls.
    destruct (becomesServerReady _ _), (becomesAppReady _ _);
      cbn [app rejected]; apply rejected_map. }
  destruct ev as [data|data|code| |id]; cbn [emitted rejections].
  - apply Hs.
  - rewrite rejected_app, rejected_map. destruct ionic4; [now rewrite Hs |].
    reflexivity.
  - reflexivity.
  - unfold exitCalls. now destruct (negb _ && negb _).
  - unfold timerCalls. now destruct (timers st !! id).
Qed.

Lemma chunksRead_snoc (events : list Event) (ev : Event) :
  chunksRead (events ++ [ev])
  = chunksRead events
    ++ match readsOutput ev with
       | Some data => [data]
       | None => []
       end.
Proof.
  unfold chunksRead. rewrite flat_map_app. cbn [flat_map].
  now rewrite app_nil_r.
Qed.

Lemma run_after (events : list Event) (ev : Event) :
  run (events ++ [ev]) (started launchArgs)
  = after ev (run events (started launchArgs)).
Proof. rewrite run_snoc. apply step_after, Inv_run, Inv_started. Qed.

(** The output accumulated is the chunks read, one after the other. *)
Lemma run_out (events : list Event) :
  serverOut (run events (started launchArgs)) = joined (chunksRead events).
Proof.
  induction events as [|ev events IH] using rev_ind; [reflexivity |].
  rewrite run_after, after_serverOut, chunksRead_snoc, IH.
  destruct (readsOutput ev); [now rewrite joined_snoc | now rewrite app_nil_r].
Qed.

(** The server is ready exactly when the output accumulated shows its
    address. *)
Lemma run_serverReady (events : list Event) :
  serverReady (run events (started launchArgs))
  = isSome (search SERVER_URL_RE (joined (chunksRead events))).
Proof.
  induction events as [|ev events IH] using rev_ind; [reflexivity |].
  rewrite run_after, chunksRead_snoc.
  destruct (after_flags ev (run events (started launchArgs))) as [-> _].
  rewrite run_out, IH.
  destruct (readsOutput ev) as [data|]; [| now rewrite app_nil_r].
  rewrite joined_snoc.
  destruct (isSome (search SERVER_URL_RE (joined (chunksRead events))))
    eqn:Hshown; [| reflexivity].
  cbn [orb]. symmetry. now apply server_url_stays.
Qed.

(** The app is ready as soon as the server is and the output accumulated
    shows the app ready. *)
Lemma ready_when_shown (events : list Event) :
  let st := run events (started launchArgs) in
  serverReady st = true -> appReadyShown (serverOut st) = true ->
  appReady st = true.
Proof.
  cbv zeta.
  induction events as [|ev events IH] using rev_ind; [discriminate |].
  pose proof (Inv_run (events ++ [ev]) _ Inv_started) as (_ & Hurl & _).
  revert Hurl. rewrite run_after, after_serverOut.
  destruct (after_flags ev (run events (started launchArgs))) as [-> ->].
  destruct (readsOutput ev) as [data|]; [| intros _; exact IH].
  intros Hurl Hready Hshown.
  unfold becomesAppReady. rewrite Hready, Hshown, (Hurl Hready).
  now destruct (appReady (run events (started launchArgs))).
Qed.

(** The event at which the app gets ready. *)
Lemma first_ready (events : list Event) :
  appReady (run events (started launchArgs)) = true ->
  exists before ev after,
    events = before ++ ev :: after
    /\ appReady (run before (started launchArgs)) = false
    /\ appReady (run (before ++ [ev]) (started launchArgs)) = true.
Proof.
  induction events as [|ev events IH] using rev_ind; [discriminate |].
  intros Hready.
  destruct (appReady (run events (started launchArgs))) eqn:Hbefore.
  - destruct (IH eq_refl) as (before & ev' & after & -> & Hf & Ht).
    exists before, ev', (after ++ [ev]).
    split; [now rewrite <- app_assoc | auto].
  - exists events, ev, []. auto.
Qed.

(** While the app is not ready, the promise is pending until the first call
    of [reject], and rejected with its reason from then on. *)
Lemma promise_before_ready (events : list Event) :
  let st := run events (started launchArgs) in
  appReady st = false ->
  serverStarting st
  = match rejected (calls st) with
    | [] => Pending
    | r :: _ => Rejected r
    end.
Proof.
  cbv zeta.
  induction events as [|ev events IH] using rev_ind; [reflexivity |].
  rewrite run_after.
  destruct (after_flags ev (run events (started launchArgs))) as [_ ->].
  intros Hready.
  assert (Hbefore : appReady (run events (started launchArgs)) = false).
  { destruct (readsOutput ev); [| exact Hready].
    now apply orb_false_iff in Hready. }
  assert (Hf : fulfilment ev (run events (started launchArgs)) = Pending).
  { unfold fulfilment. destruct (readsOutput ev); [| reflexivity].
    apply orb_false_iff in Hready as [_ ->]. reflexivity. }
  rewrite after_promise, after_calls, rejected_app, rejected_emitted, Hf,
    orSettled_pending, (IH Hbefore).
  destruct (rejected (calls (run events (started launchArgs)))) as [|r rs].
  - apply rejectAll_pending.
  - apply rejectAll_settled. discriminate.
Qed.

(** C1, as amended.  In every reachable state the app is ready only if the
    server is, the promise is fulfilled only if both are, [_resolve] has been
    called only if both are, and no handler throws; [resolveIfPossible]
    does nothing for [AppReady] while the [serverReady] flag is unset.  Take
    events of any kind (chunks of either stream, an error or the exit of
    the process, expiries of timers) such that the output the handler has
    read shows the server-ready pattern by the end of [pre] and the app-ready
    pattern by the end of [pre ++ mid].  Then both flags are set in the end,
    and one event of [pre ++ mid], a chunk the handler reads, is the one at
    which the app gets ready: its handler calls [_resolve] with the URLs
    captured in the output accumulated with that chunk, and there are some.
    When [reject] has not been called before that event, the promise is
    fulfilled with these URLs, and the promise returned with them stripped
    of ANSI sequences; otherwise the promise stays rejected, and so does the
    promise returned, with the reason of the first call of [reject]. *)
Theorem C1_readiness_order (events pre mid post : list Event) :
  let st := run events (started launchArgs) in
  let final := run (pre ++ mid ++ post) (started launchArgs) in
  ((appReady st = true -> serverReady st = true)
   /\ (forall v, serverStarting st = Fulfilled v ->
       appReady st = true /\ serverReady st = true)
   /\ (forall v, In (Resolve v) (calls st) ->
       appReady st = true /\ serverReady st = true)
   /\ (forall st0 urls, serverReady st0 = false ->
       exec (resolveIfPossible launchArgs AppReady urls) st0 = st0)
   /\ (forall ev, fst (deliver ev st) = Some tt))
  /\ (isSome (search SERVER_URL_RE (joined (chunksRead pre))) = true ->
      appReadyShown (joined (chunksRead (pre ++ mid))) = true ->
      serverReady final = true /\ appReady final = true
      /\ serverStarting final <> Pending
      /\ exists before ev rest data,
           let ready := run (before ++ [ev]) (started launchArgs) in
           let urls := urlsOf (joined (chunksRead (before ++ [ev]))) in
           pre ++ mid = before ++ ev :: rest
           /\ readsOutput ev = Some data
           /\ appReady (run before (started launchArgs)) = false
           /\ appReady ready = true
           /\ serverOut ready = joined (chunksRead (before ++ [ev]))
           /\ urls <> []
           /\ In (Resolve (Some urls))
                (emitted ev (run before (started launchArgs)))
           /\ In (Resolve (Some urls)) (calls final)
           /\ match rejected (calls (run before (started launchArgs))) with
              | [] =>
                  serverStarting final = Fulfilled (Some urls)
                  /\ thenUrls (serverStarting final)
                     = Fulfilled (map stripAnsi urls)
              | r :: _ =>
                  serverStarting final = Rejected r
                  /\ thenUrls (serverStarting final) = Rejected r
              end).
Proof.
  intros st final.
  pose proof (Inv_run events _ Inv_started) as H. fold st in H.
  split.
  - destruct H as (Ha & Hb & Hc & Hd & He).
    split; [exact Ha |].
    split; [intros v Hv; split; [| apply Ha]; now apply (Hc v) |].
    split; [apply resolve_only_when_ready |].
    split.
    + intros [sr ar out err rt tm nt ss lp pr cs] urls. cbn [serverReady].
      intros ->. reflexivity.
    + intros ev. rewrite deliver_after; [reflexivity |].
      repeat split; assumption.
  - intros Hserver Happ.
    pose proof (Inv_run pre _ Inv_started) as Ipre.
    pose proof (Inv_run (pre ++ mid) _ Inv_started) as Ipm.
    assert (Hs1 : serverReady (run (pre ++ mid) (started launchArgs)) = true).
    { rewrite run_app. apply flags_stay; [exact Ipre |].
      now rewrite run_serverReady. }
    assert (Ha1 : appReady (run (pre ++ mid) (started launchArgs)) = true).
    { apply ready_when_shown; [exact Hs1 | now rewrite run_out]. }
    destruct (first_ready _ Ha1) as (before & ev & rest & Hsplit & Hf & Ht).
    pose proof (Inv_run before _ Inv_started) as Ib.
    pose proof (Inv_run (before ++ [ev]) _ Inv_started) as Ir.
    assert (Hfinal : final = run (rest ++ post)
                               (run (before ++ [ev]) (started launchArgs))).
    { subst final. rewrite app_assoc, Hsplit, <- run_app.
      f_equal. rewrite <- !app_assoc. reflexivity. }
    destruct (flags_stay (rest ++ post) _ Ir) as [Fs Fa].
    assert (Hnp : serverStarting (run (before ++ [ev]) (started launchArgs))
                  <> Pending) by now apply Ir.
    assert (Hkeep : serverStarting final
                    = serverStarting
                        (run (before ++ [ev]) (started launchArgs))).
    { rewrite Hfinal. now apply settled_stays. }
    split; [rewrite Hfinal; apply Fs; now apply Ir |].
    split; [rewrite Hfinal; now apply Fa |].
    split; [now rewrite Hkeep |].
    revert Ht Hnp Hkeep Hfinal. rewrite run_after.
    destruct (after_flags ev (run before (started launchArgs))) as [_ Hflag].
    intros Ht Hnp Hkeep Hfinal. rewrite Hflag in Ht.
    destruct (readsOutput ev) as [data|] eqn:Hreads; [| congruence].
    rewrite Hf in Ht. cbn [orb] in Ht.
    exists before, ev, rest, data. cbv zeta.
    assert (Hout : (serverOut (run before (started launchArgs)) ++ data)%string
                   = joined (chunksRead (before ++ [ev]))).
    { now rewrite chunksRead_snoc, Hreads, joined_snoc, run_out. }
    rewrite run_after, <- Hout.
    assert (Hres : In (Resolve
                         (Some (urlsOf
                                  (serverOut (run before (started launchArgs))
                                   ++ data))))
                     (emitted ev (run before (started launchArgs)))).
    { apply emitted_resolve. now exists data. }
    split; [exact Hsplit |]. split; [exact Hreads |]. split; [exact Hf |].
    split; [now rewrite Hflag, Hf, Ht |].
    split; [now rewrite after_serverOut, Hreads |].
    assert (Hurls : urlsOf (serverOut (run before (started launchArgs)) ++ data)
                    <> []).
    { apply urlsOf_nonempty. now apply becomesAppReady_flags in Ht. }
    split; [exact Hurls |].
    split; [exact Hres |].
    split.
    { rewrite Hfinal. apply calls_grow; [now apply Inv_after |].
      rewrite after_calls. apply in_app_iff. now right. }
    rewrite Hkeep, after_promise, (promise_before_ready before Hf).
    unfold fulfilment. rewrite Hreads, Ht.
    destruct (rejected (calls (run before (started launchArgs)))) as [|r rs];
      cbn [orSettled].
    + rewrite rejectAll_settled by discriminate.
      split; [reflexivity | now apply thenUrls_fulfilled].
    + rewrite rejectAll_settled by discriminate. split; reflexivity.
Qed.

(** **** The settlement, as the caller sees it *)

Lemma started_pending : serverStarting (started launchArgs) = Pending.
Proof. reflexivity. Qed.

(** A fulfilled promise holds the URLs read from the output accumulated up
    to the chunk that made the app ready. *)
Lemma fulfilled_value (events : list Event) (v : option (list string)) :
  serverStarting (run events (started launchArgs)) = Fulfilled v ->
  exists out rest,
    serverOut (run events (started launchArgs)) = (out ++ rest)%string
    /\ isSome (search SERVER_URL_RE out) = true
    /\ v = Some (urlsOf out).
Proof.
  revert v. induction events as [|ev events IH] using rev_ind; intros v.
  - cbn [IonicDevServer.run fold_left]. rewrite started_pending. discriminate.
  - rewrite run_snoc, step_after by apply Inv_run, Inv_started.
    rewrite after_promise, after_serverOut.
    set (st := run events (started launchArgs)) in *.
    destruct (serverStarting st) as [|v0|r] eqn:E; cbn [orSettled].
    + unfold fulfilment. destruct (readsOutput ev) as [data|].
      * destruct (becomesAppReady st (serverOut st ++ data)) eqn:B.
        -- rewrite rejectAll_settled by discriminate. intros [= <-].
           exists (serverOut st ++ data)%string, EmptyString.
           split; [now rewrite append_empty_r |].
           split; [| reflexivity]. now apply becomesAppReady_flags in B.
        -- rewrite rejectAll_pending. destruct (rejections ev st); discriminate.
      * rewrite rejectAll_pending. destruct (rejections ev st); discriminate.
    + rewrite rejectAll_settled by discriminate. intros [= <-].
      destruct (IH v0 eq_refl) as (out & rest & Hout & Hurl & Hv).
      destruct (readsOutput ev) as [data|].
      * exists out, (rest ++ data)%string.
        now rewrite Hout, append_assoc'.
      * now exists out, rest.
    + rewrite rejectAll_settled by discriminate. discriminate.
Qed.

Lemma errorMessage_initial (channel errorMsg : string) :
  errorMessage channel = Some errorMsg ->
  initial (RejError errorMsg) = Some "E"%char.
Proof.
  unfold getServerErrorMessage.
  destruct (ionic4 && skipErrorMatch channel); [discriminate |].
  destruct (search errorRegex channel); [| discriminate].
  intros [= <-]. reflexivity.
Qed.

Lemma exitMessage_initial (err : string) :
  initial (RejError (exitMessageFor EOL isIonicCliVersionGte launchArgs err))
  = Some "T"%char.
Proof.
  unfold exitMessageFor.
  destruct (errorMessage err) as [m|]; [| reflexivity].
  now destruct (includes "getaddrinfo ENOTFOUND" m
                || includes "listen EADDRNOTAVAIL" m).
Qed.

Lemma multipleInterfaces_initial (out : string) :
  initial (RejError (multipleInterfacesMessage EOL out)) = Some "Y"%char.
Proof.
  unfold multipleInterfacesMessage.
  now destruct (0 <? length (execAll addressRegex 0 out))%nat.
Qed.

(** No handler rejects with the message of the guard. *)
Lemma rejections_initial (ev : Event) (st : DevServer) (r : Rejection) :
  In r (rejections ev st) -> initial r <> Some "U"%char.
Proof.
  assert (He : forall channel, In r (errorPart channel) ->
                               initial r <> Some "U"%char).
  { intros channel. unfold errorPart.
    destruct (errorMessage channel) as [m|] eqn:E; [| intros []].
    intros [<- | []]. now rewrite (errorMessage_initial _ _ E). }
  assert (Hf : forall out, In r (fatal out) -> initial r <> Some "U"%char).
  { intros out. unfold fatal. rewrite in_app_iff. intros [Hm | Herr].
    - destruct (includes _ out); [| destruct Hm].
      destruct Hm as [<- | []]. now rewrite multipleInterfaces_initial.
    - now apply (He out). }
  destruct ev as [data|data|code| |id]; cbn [rejections].
  - apply Hf.
  - rewrite in_app_iff. intros [Hin | Hin]; [| now apply (He _ Hin)].
    destruct ionic4; [now apply (Hf _ Hin) | destruct Hin].
  - intros [<- | []]. unfold spawnRejection.
    destruct code as [c|]; [destruct (String.eqb c "ENOENT") |]; discriminate.
  - intros [<- | []]. now rewrite exitMessage_initial.
  - destruct (timers st !! id) as [cb|]; [| intros []].
    intros [<- | []]. now destruct cb.
Qed.

Lemma rejectAll_cases (rs : list Rejection)
  (p : Settled (option (list string))) :
  rejectAll rs p = p \/ exists r, In r rs /\ rejectAll rs p = Rejected r.
Proof.
  destruct p as [|v|r0]; [| left; apply rejectAll_settled; discriminate
                          | left; apply rejectAll_settled; discriminate].
  rewrite rejectAll_pending. destruct rs as [|r rs]; [now left |].
  right. exists r. split; [now left | reflexivity].
Qed.

Lemma rejected_initial (events : list Event) (r : Rejection) :
  serverStarting (run events (started launchArgs)) = Rejected r ->
  initial r <> Some "U"%char.
Proof.
  revert r. induction events as [|ev events IH] using rev_ind; intros r.
  - cbn [IonicDevServer.run fold_left]. rewrite started_pending. discriminate.
  - rewrite run_snoc, step_after by apply Inv_run, Inv_started.
    rewrite after_promise.
    set (st := run events (started launchArgs)) in *.
    destruct (rejectAll_cases (rejections ev st)
                (orSettled (serverStarting st) (fulfilment ev st)))
      as [-> | (r' & Hin & ->)].
    + destruct (serverStarting st) as [|v0|r0] eqn:E; cbn [orSettled].
      * unfold fulfilment. destruct (readsOutput ev);
          [destruct (becomesAppReady _ _) |]; discriminate.
      * discriminate.
      * intros [= <-]. now apply IH.
    + intros [= <-]. now apply (rejections_initial ev st).
Qed.

Lemma after_serverErr (ev : Event) (st : DevServer) :
  serverErr (after ev st)
  = match ev with
    | StderrData data => (serverErr st ++ data)%string
    | _ => serverErr st
    end.
Proof.
  destruct ev as [data|data|code| |id]; cbn [after].
  - now destruct (afterStdout_fields st data) as (_ & -> & _).
  - unfold afterStderr.
    destruct (afterErrOutput_fields data
                (if ionic4 then afterStdout data st else st))
      as (_ & _ & _ & -> & _).
    destruct ionic4; [| reflexivity].
    now destruct (afterStdout_fields st data) as (_ & -> & _).
  - rewrite afterError_eq.
    now destruct (exec_reject_fields (spawnRejection code) st)
      as (_ & _ & _ & -> & _).
  - now destruct (afterExit_fields st) as (_ & _ & _ & -> & _).
  - now destruct (afterTimer_fields id st) as (_ & _ & _ & -> & _).
Qed.

Lemma run_grows (events : list Event) (st : DevServer) :
  Inv st ->
  (exists later, serverOut (run events st) = (serverOut st ++ later)%string)
  /\ (exists later, serverErr (run events st) = (serverErr st ++ later)%string)
  /\ (exists later, calls (run events st) = calls st ++ later).
Proof.
  revert st. induction events as [|ev events IH]; intros st H.
  - cbn [IonicDevServer.run fold_left].
    split; [exists EmptyString; now rewrite append_empty_r |].
    split; [exists EmptyString; now rewrite append_empty_r |].
    exists []. now rewrite app_nil_r.
  - cbn [IonicDevServer.run fold_left]. rewrite step_after by exact H.
    destruct (IH (after ev st) (Inv_after ev st H))
      as ((o & Ho) & (e & He) & (c & Hc)).
    change (fold_left step events (after ev st))
      with (run events (after ev st)).
    rewrite Ho, He, Hc, after_serverOut, after_serverErr, after_calls.
    split; [| split].
    + destruct (readsOutput ev) as [data|];
        [exists (data ++ o)%string; now rewrite append_assoc' | now exists o].
    + destruct ev as [data|data|code| |id];
        try (now exists e).
      exists (data ++ e)%string. now rewrite append_assoc'.
    + exists (emitted ev st ++ c). now rewrite app_assoc.
Qed.

(** X2.  The readiness flags are never reset and what has been read is never
    dropped: in the state after more events, a flag that was set is still
    set, the accumulated standard output and standard error extend the earlier
    ones, and the calls made extend the earlier calls. *)
Theorem readiness_is_monotone (events more : list Event) :
  let st := run events (started launchArgs) in
  let st' := run (events ++ more) (started launchArgs) in
  (serverReady st = true -> serverReady st' = true)
  /\ (appReady st = true -> appReady st' = true)
  /\ (exists later, serverOut st' = (serverOut st ++ later)%string)
  /\ (exists later, serverErr st' = (serverErr st ++ later)%string)
  /\ (exists later, calls st' = calls st ++ later).
Proof.
  intros st st'. subst st'. rewrite run_app. fold st.
  pose proof (Inv_run events _ Inv_started) as H. fold st in H.
  destruct (flags_stay more st H) as [Hs Ha].
  destruct (run_grows more st H) as (Ho & He & Hc).
  repeat split; assumption.
Qed.

Lemma loggedOn_app (channel : string) (a b : list Call) :
  loggedOn channel (a ++ b) = loggedOn channel a ++ loggedOn channel b.
Proof. apply flat_map_app. Qed.

Lemma loggedOn_Reject (channel : string) (rs : list Rejection) :
  loggedOn channel (map Reject rs) = [].
Proof. induction rs as [|r rs IH]; [reflexivity | exact IH]. Qed.

Lemma loggedOn_stdoutCalls (st : DevServer) (data : string) :
  loggedOn "stdout" (stdoutCalls st data) = [data].
Proof.
  unfold stdoutCalls, serverCalls, appCalls.
  change (loggedOn "stdout" (?c :: ?l)) with (loggedOn "stdout" ([c] ++ l)).
  rewrite !loggedOn_app, loggedOn_Reject.
  destruct (becomesServerReady _ _), (becomesAppReady _ _); reflexivity.
Qed.

Lemma loggedOn_emitted (ev : Event) (st : DevServer) :
  loggedOn "stdout" (emitted ev st)
  = match readsOutput ev with
    | Some data => [data]
    | None => []
    end.
Proof.
  destruct ev as [data|data|code| |id]; cbn [emitted readsOutput].
  - apply loggedOn_stdoutCalls.
  - rewrite loggedOn_app, loggedOn_Reject, app_nil_r.
    destruct ionic4; [apply loggedOn_stdoutCalls | reflexivity].
  - reflexivity.
  - unfold exitCalls. now destruct (negb (serverReady st) && negb (appReady st)).
  - unfold timerCalls. now destruct (timers st !! id).
Qed.

Lemma logged_stdout (events : list Event) :
  let st := run events (started launchArgs) in
  joined (loggedOn "stdout" (calls st)) = serverOut st.
Proof.
  induction events as [|ev events IH] using rev_ind; [reflexivity |].
  cbv zeta in *.
  rewrite run_snoc, step_after by apply Inv_run, Inv_started.
  rewrite after_calls, loggedOn_app, loggedOn_emitted, after_serverOut.
  rewrite joined_app, IH.
  destruct (readsOutput ev) as [data|]; cbn [joined fold_right];
    now rewrite ?append_empty_r.
Qed.

(** X3.  The output the detector reads is handed to the logger as it comes:
    in every reachable state the texts logged on the channel [stdout], in
    order, are the chunks the output handler has read (those of the standard
    output, and under a tool of version 4 or later those of the standard
    error too), and their concatenation is the accumulated output. *)
Theorem output_is_forwarded_verbatim (events : list Event) :
  let st := run events (started launchArgs) in
  loggedOn "stdout" (calls st)
  = flat_map (fun ev => match readsOutput ev with
                        | Some data => [data]
                        | None => []
                        end) events
  /\ joined (loggedOn "stdout" (calls st)) = serverOut st.
Proof.
  cbv zeta. split; [| apply logged_stdout].
  induction events as [|ev events IH] using rev_ind; [reflexivity |].
  rewrite run_snoc, step_after by apply Inv_run, Inv_started.
  rewrite after_calls, loggedOn_app, loggedOn_emitted, flat_map_app, IH.
  cbn [flat_map]. now rewrite app_nil_r.
Qed.

(** **** The port of the launch arguments *)

Lemma afterStdout_port (st : DevServer) (data : string) :
  let out := (serverOut st ++ data)%string in
  launchPort (afterStdout data st)
  = if becomesAppReady st out
    then match search SERVER_URL_RE out with
         | Some url => Number (getPortFromURL url)
         | None => launchPort st
         end
    else launchPort st.
Proof.
  destruct st as [sr ar out err rt tm nt ss lp pr cs].
  unfold afterStdout, afterErrorCheck, afterMultiCheck, afterAppCheck,
    afterServerCheck, afterOutput, becomesAppReady, appReadyShown.
  cbn [serverReady serverOut appReady launchPort].
  destruct sr, ar; crunch; simplify_eq; reflexivity.
Qed.

Lemma exec_reject_port (r : Rejection) (st : DevServer) :
  launchPort (exec (reject r) st) = launchPort st
  /\ ionicLivereloadProcess (exec (reject r) st) = ionicLivereloadProcess st.
Proof.
  destruct st as [sr ar out err rt tm nt ss lp pr cs]. now crunch.
Qed.

Lemma afterErrOutput_port (data : string) (st : DevServer) :
  launchPort (afterErrOutput data st) = launchPort st.
Proof.
  destruct st as [sr ar out err rt tm nt ss lp pr cs].
  unfold afterErrOutput, afterErrorCheck. now crunch.
Qed.

Lemma afterExit_port (st : DevServer) :
  launchPort (afterExit st) = launchPort st
  /\ ionicLivereloadProcess (afterExit st) = false.
Proof.
  destruct st as [sr ar out err rt tm nt ss lp pr cs].
  unfold afterExit. now crunch.
Qed.

Lemma afterTimer_port (id : nat) (st : DevServer) :
  launchPort (afterTimer id st) = launchPort st.
Proof.
  destruct st as [sr ar out err rt tm nt ss lp pr cs].
  unfold afterTimer. now crunch.
Qed.

Lemma after_launchPort (ev : Event) (st : DevServer) :
  launchPort (after ev st)
  = match readsOutput ev with
    | Some data =>
        if becomesAppReady st (serverOut st ++ data)
        then match search SERVER_URL_RE (serverOut st ++ data) with
             | Some url => Number (getPortFromURL url)
             | None => launchPort st
             end
        else launchPort st
    | None => launchPort st
    end.
Proof.
  destruct ev as [data|data|code| |id]; cbn [after readsOutput].
  - apply afterStdout_port.
  - unfold afterStderr. rewrite afterErrOutput_port.
    destruct ionic4; [apply afterStdout_port | reflexivity].
  - rewrite afterError_eq. apply exec_reject_port.
  - apply afterExit_port.
  - apply afterTimer_port.
Qed.

(** X4.  The port of the launch arguments follows the URL of the server:
    until the app is ready [launchArgs.devServerPort] is what the launch
    configuration gave; once the app is ready it is the port
    [getPortFromURL] reads from the local URL, the first of the URLs
    [_resolve] was called with, matched in the output accumulated when the
    app became ready. *)
Theorem devServerPort_follows_the_url (events : list Event) :
  let st := run events (started launchArgs) in
  (appReady st = false -> launchPort st = devServerPort launchArgs)
  /\ (appReady st = true ->
      exists out rest url,
        serverOut st = (out ++ rest)%string
        /\ search SERVER_URL_RE out = Some url
        /\ launchPort st = Number (getPortFromURL url)
        /\ In (Resolve (Some (collectUrls url out))) (calls st)).
Proof.
  induction events as [|ev events IH] using rev_ind.
  - split; [reflexivity | discriminate].
  - cbv zeta in *.
    pose proof (Inv_run events _ Inv_started) as H.
    rewrite run_snoc, step_after by exact H.
    set (st := run events (started launchArgs)) in *.
    destruct (after_flags ev st) as [_ ->].
    rewrite after_launchPort, after_serverOut, after_calls.
    destruct IH as [IHf IHt].
    destruct (appReady st) eqn:Ha.
    + split; [destruct (readsOutput ev); discriminate |]. intros _.
      destruct (IHt eq_refl) as (out & rest & url & Hout & Hurl & Hport & Hin).
      assert (Hb : forall data, becomesAppReady st (serverOut st ++ data) = false).
      { intros data. unfold becomesAppReady. rewrite Ha.
        now rewrite andb_false_r. }
      destruct (readsOutput ev) as [data|].
      * rewrite Hb. exists out, (rest ++ data)%string, url.
        rewrite Hout, append_assoc', in_app_iff. auto.
      * exists out, rest, url. rewrite in_app_iff. auto.
    + destruct (readsOutput ev) as [data|] eqn:Hr; [| split; [auto | discriminate]].
      cbn [orb].
      destruct (becomesAppReady st (serverOut st ++ data)) eqn:Hb;
        [| split; [auto | discriminate]].
      split; [discriminate |]. intros _.
      destruct (becomesAppReady_flags _ _ Hb) as [_ Hs].
      destruct (search SERVER_URL_RE (serverOut st ++ data)) as [url|] eqn:Hu;
        [| discriminate].
      exists (serverOut st ++ data)%string, EmptyString, url.
      rewrite append_empty_r. repeat split; [exact Hu |].
      apply in_app_iff. right. apply emitted_resolve. exists data.
      repeat split; [exact Hr | exact Hb |]. unfold urlsOf. now rewrite Hu.
Qed.

(** **** The standard error and the exit of the process *)

Lemma fulfilled_before_rejections (rs : list Rejection)
  (p : Settled (option (list string))) (v : option (list string)) :
  rejectAll rs p = Fulfilled v -> p = Fulfilled v.
Proof.
  destruct (rejectAll_cases rs p) as [-> | (r & _ & ->)];
    [auto | discriminate].
Qed.

(** X5.  A tool of version 4 or later writes its log to the standard error,
    and there a chunk of the standard error is read as a chunk of the
    standard output is: it gives the same accumulated output and the same
    flags, and fulfils the promise if that one does.  Under an earlier
    version a chunk of the standard error changes neither the accumulated
    output nor the flags and never fulfils the promise.  Either way the
    chunk is appended to the accumulated standard error, which a chunk of
    the standard output leaves alone. *)
Theorem stderr_is_read_under_ionic4 (events : list Event) (data : string) :
  let st := run events (started launchArgs) in
  let onErr := step st (StderrData data) in
  let onOut := step st (StdoutData data) in
  serverErr onErr = (serverErr st ++ data)%string
  /\ serverErr onOut = serverErr st
  /\ (ionic4 = true ->
      serverOut onErr = serverOut onOut
      /\ serverReady onErr = serverReady onOut
      /\ appReady onErr = appReady onOut
      /\ forall v, serverStarting onOut = Fulfilled v ->
                   serverStarting onErr = Fulfilled v)
  /\ (ionic4 = false ->
      serverOut onErr = serverOut st
      /\ serverReady onErr = serverReady st
      /\ appReady onErr = appReady st
      /\ forall v, serverStarting onErr = Fulfilled v ->
                   serverStarting st = Fulfilled v).
Proof.
  intros st onErr onOut. subst onErr onOut.
  pose proof (Inv_run events _ Inv_started) as H. fold st in H.
  rewrite !step_after by exact H.
  rewrite !after_serverErr, !after_serverOut, !after_promise.
  destruct (after_flags (StderrData data) st) as [-> ->].
  destruct (after_flags (StdoutData data) st) as [-> ->].
  unfold fulfilment. cbn [readsOutput rejections].
  split; [reflexivity | split; [reflexivity |]].
  split; intros ->.
  - repeat split. intros v Hv. apply fulfilled_before_rejections in Hv.
    rewrite Hv. apply rejectAll_settled. discriminate.
  - repeat split. intros v Hv. apply fulfilled_before_rejections in Hv.
    now destruct (serverStarting st).
Qed.

(** X6.  When the process exits, its handle is dropped and the promise does
    not stay pending: a pending promise is rejected with an error whose
    message starts with the notice of the unexpected exit; a settled one
    keeps its outcome.  The message is the bare notice when the standard
    error holds no error line; otherwise the notice is followed, after a line
    break, by the hint about the address when the error message holds
    [getaddrinfo ENOTFOUND] or [listen EADDRNOTAVAIL], and by the error
    message when it does not.  The message is also logged, as an error, only
    while the server is not ready. *)
Theorem exit_settles_the_promise (events : list Event) :
  let st := run events (started launchArgs) in
  let st' := step st ProcessExit in
  let notice := "The Ionic live reload server exited unexpectedly"%string in
  let exitMessage :=
    match errorMessage (serverErr st) with
    | None => notice
    | Some errorMsg =>
        if includes "getaddrinfo ENOTFOUND" errorMsg
           || includes "listen EADDRNOTAVAIL" errorMsg
        then (notice ++ EOL ++ invalidAddressMessage)%string
        else (notice ++ EOL ++ errorMsg)%string
    end in
  ionicLivereloadProcess st' = false
  /\ serverStarting st' <> Pending
  /\ (serverStarting st = Pending ->
      serverStarting st' = Rejected (RejError exitMessage))
  /\ (serverStarting st <> Pending -> serverStarting st' = serverStarting st)
  /\ calls st'
     = calls st
       ++ (if serverReady st then [] else [OutputLogger exitMessage ArgTrue])
       ++ [Reject (RejError exitMessage)]
  /\ serverReady st' = serverReady st /\ appReady st' = appReady st.
Proof.
  intros st st' notice exitMessage. subst st'.
  pose proof (Inv_run events _ Inv_started) as H. fold st in H.
  rewrite step_after by exact H. cbn [after].
  assert (Hm : exitMessageFor EOL isIonicCliVersionGte launchArgs (serverErr st)
               = exitMessage).
  { unfold exitMessageFor, exitMessage.
    destruct (errorMessage (serverErr st)) as [m|]; [| reflexivity].
    now destruct (includes "getaddrinfo ENOTFOUND" m
                  || includes "listen EADDRNOTAVAIL" m). }
  destruct (afterExit_fields st) as (-> & -> & _ & _ & _ & -> & ->).
  destruct (afterExit_port st) as [_ ->]. unfold exitCalls. rewrite Hm.
  split; [reflexivity |].
  split; [now destruct (serverStarting st) |].
  split; [now intros -> |].
  split; [now destruct (serverStarting st) |].
  split; [| split; reflexivity].
  destruct H as (Ha & _). destruct (serverReady st), (appReady st);
    try reflexivity. now specialize (Ha eq_refl).
Qed.

(** X7.  For the command [serve] no build and no deployment is awaited: in
    every reachable state the app is ready exactly when the server is; and
    when the chunks of the standard output show the URL of the server and no
    accumulated prefix of them shows a fatal pattern, the promise is
    fulfilled with a non-empty list of URLs. *)
Theorem serve_is_ready_with_the_server (events : list Event)
  (chunks : list string) :
  isServe cliArgs = true ->
  appReady (run events (started launchArgs))
  = serverReady (run events (started launchArgs))
  /\ (isSome (search SERVER_URL_RE (joined chunks)) = true ->
      (forall j, j <= length chunks -> fatal (joined (firstn j chunks)) = []) ->
      exists urls,
        urls <> []
        /\ serverStarting (received chunks) = Fulfilled (Some urls)).
Proof.
  intros Hserve.
  assert (Heq : forall events,
            appReady (run events (started launchArgs))
            = serverReady (run events (started launchArgs))).
  { clear events. intros events.
    induction events as [|ev events IH] using rev_ind; [reflexivity |].
    rewrite run_snoc, step_after by apply Inv_run, Inv_started.
    destruct (after_flags ev (run events (started launchArgs))) as [-> ->].
    rewrite IH. destruct (readsOutput ev) as [data|]; [| reflexivity].
    unfold becomesAppReady, appReadyShown. rewrite Hserve, IH.
    destruct (serverReady _), (isSome _); reflexivity. }
  split; [apply Heq |].
  intros Hshown Hfatal.
  assert (Ha : appReady (received chunks) = true).
  { unfold received. rewrite Heq. now apply server_ready_shown. }
  destruct (resolved_with_urls chunks Ha) as (k & Hk & Hurl & _ & Hf).
  exists (urlsOf (joined (firstn k chunks))).
  split; [now apply urlsOf_nonempty |].
  apply Hf. intros j Hj. apply Hfatal. lia.
Qed.

(** **** The debug console *)

Lemma consoleEvents_stdout (cs : list Call) :
  map CordovaDebugSession.output
    (List.filter (onCategory "stdout") (consoleEvents cs))
  = loggedOn "stdout" cs.
Proof.
  induction cs as [|c cs IH]; [reflexivity |].
  change (c :: cs) with ([c] ++ cs).
  unfold consoleEvents in *. rewrite flat_map_app, List.filter_app, map_app.
  rewrite loggedOn_app, IH. f_equal.
  destruct c as [id cb ms|id|v|r|message [| |channel]]; try reflexivity.
  unfold loggedOn, CordovaDebugSession.outputLogger, onCategory.
  cbn [flat_map app errorArg List.filter CordovaDebugSession.category].
  destruct (String.eqb_spec channel "stdout") as [-> | Hne].
  - cbn. now rewrite append_empty_r.
  - reflexivity.
Qed.

(** X11.  The logger of the debug session sends a message on the category
    [stderr] when its second argument is [true], on the named category when
    it is a string, and on [console] otherwise, and appends a line feed
    except on [stdout] and [stderr].  Through it the chunks the detector
    reads reach the debug console unchanged: in every reachable state the
    texts of the events of the category [stdout], concatenated, are the
    accumulated output. *)
Theorem console_shows_the_output (events : list Event) (message : string)
  (error : CordovaDebugSession.ErrorArg) :
  let st := run events (started launchArgs) in
  let event := CordovaDebugSession.outputLogger message error in
  let raw :=
    String.eqb (CordovaDebugSession.category event) "stdout"
    || String.eqb (CordovaDebugSession.category event) "stderr" in
  CordovaDebugSession.category event
  = match error with
    | CordovaDebugSession.Category name => name
    | CordovaDebugSession.ErrorFlag true => "stderr"%string
    | _ => "console"%string
    end
  /\ CordovaDebugSession.output event
     = (if raw then message else message ++ String LF EmptyString)%string
  /\ joined
       (map CordovaDebugSession.output
          (List.filter (onCategory "stdout") (consoleEvents (calls st))))
     = serverOut st.
Proof.
  intros st event raw. subst event raw.
  split; [now destruct error as [|[|]|name] |].
  split.
  - unfold CordovaDebugSession.outputLogger.
    cbn [CordovaDebugSession.output CordovaDebugSession.category].
    destruct (_ || _); [apply append_empty_r | reflexivity].
  - rewrite consoleEvents_stdout.
    apply (logged_stdout events).
Qed.

End DetectorFacts.

(** *** [MobileTargetManager.isVirtualTarget] *)

(** C10. [isVirtualTarget] is no total classifier: a target string in which
    [device] occurs resolves to [false], also when [emulator] occurs in it; a
    string with [emulator] and without [device] resolves to [true]; a string
    with neither is rejected with the error that says the type of the target
    could not be recognized, followed by the target. *)
Theorem C10_isVirtualTarget_partial (target : string) :
  (occursIn "device" target ->
   MobileTargetManager.isVirtualTarget target = Resolves false)
  /\ (occursIn "emulator" target -> ~ occursIn "device" target ->
      MobileTargetManager.isVirtualTarget target = Resolves true)
  /\ (~ occursIn "device" target -> ~ occursIn "emulator" target ->
      MobileTargetManager.isVirtualTarget target
      = Rejects
          (newError ("Could not recognize type of the target " ++ target))).
Proof.
  unfold MobileTargetManager.isVirtualTarget. repeat split.
  - intros Hd. apply includes_spec in Hd. now rewrite Hd.
  - intros He Hd. apply includes_spec in He. apply includes_false in Hd.
    now rewrite Hd, He.
  - intros Hd He. apply includes_false in Hd. apply includes_false in He.
    rewrite Hd, He. unfold MobileTargetManager.couldNotRecognize, format0.
    simpl. now rewrite append_empty_r.
Qed.

Lemma C10_isVirtualTarget_witness :
  MobileTargetManager.isVirtualTarget "device emulator-5554" = Resolves false
  /\ MobileTargetManager.isVirtualTarget "emulator-5554" = Resolves true
  /\ MobileTargetManager.isVirtualTarget "Pixel_3a"
     = Rejects (newError "Could not recognize type of the target Pixel_3a").
Proof.
  split; [| split].
  - apply (proj1 (C10_isVirtualTarget_partial "device emulator-5554")).
    now exists EmptyString, " emulator-5554"%string.
  - apply (proj1 (proj2 (C10_isVirtualTarget_partial "emulator-5554"))).
    + now exists EmptyString, "-5554"%string.
    + apply includes_false. reflexivity.
  - apply (proj2 (proj2 (C10_isVirtualTarget_partial "Pixel_3a")));
      apply includes_false; reflexivity.
Defined.

(** *** [MobileTargetManager.selectTarget] *)

Lemma strictEq_spec (a b : option string) : strictEq a b = true <-> a = b.
Proof.
  destruct a as [x|], b as [y|]; simpl; try (split; congruence).
  rewrite String.eqb_eq. split; congruence.
Qed.

Lemma label_cases (t : MobileTarget.IMobileTarget) :
  MobileTargetManager.label t = MobileTarget.name t
  \/ MobileTargetManager.label t = MobileTarget.id t.
Proof.
  unfold MobileTargetManager.label, or_else.
  destruct (truthy (MobileTarget.name t)); [now left | now right].
Qed.

Lemma label_matches (t : MobileTarget.IMobileTarget) :
  strictEq (MobileTarget.name t) (MobileTargetManager.label t)
  || strictEq (MobileTarget.id t) (MobileTargetManager.label t) = true.
Proof.
  apply orb_true_iff.
  destruct (label_cases t) as [H | H]; rewrite H; [left | right];
    now apply strictEq_spec.
Qed.

(** [Array.prototype.find] returns the first element that passes the test. *)
Lemma find_first {A : Type} (f : A -> bool) (l : list A) (t : A) :
  List.find f l = Some t
  <-> exists before after,
        l = before ++ t :: after
        /\ f t = true
        /\ forall u, In u before -> f u = false.
Proof.
  split.
  - induction l as [|x l IH]; cbn [List.find]; [discriminate |].
    destruct (f x) eqn:Hx.
    + intros [= ->]. exists [], l. repeat split; [exact Hx | intros u []].
    + intros Hfind. destruct (IH Hfind) as (before & after & -> & Ht & Hb).
      exists (x :: before), after. repeat split; [exact Ht |].
      intros u [<- | Hu]; [exact Hx | now apply Hb].
  - intros (before & after & -> & Ht & Hb).
    induction before as [|x before IH]; cbn [app List.find].
    + now rewrite Ht.
    + rewrite (Hb x (or_introl eq_refl)). apply IH.
      intros u Hu. apply Hb. now right.
Qed.

Lemma find_among {A : Type} (f : A -> bool) (before after : list A) :
  List.find f (before ++ after)
  = match List.find f before with
    | Some x => Some x
    | None => List.find f after
    end.
Proof.
  induction before as [|x before IH]; cbn [app List.find]; [reflexivity |].
  now destruct (f x).
Qed.

Lemma find_same {A : Type} (f g : A -> bool) (l : list A) :
  (forall x, f x = g x) -> List.find f l = List.find g l.
Proof.
  intros Hfg. induction l as [|x l IH]; cbn [List.find]; [reflexivity |].
  now rewrite Hfg, IH.
Qed.

Lemma matches_spec (t : MobileTarget.IMobileTarget) (result : option string) :
  (strictEq (MobileTarget.name t) result
   || strictEq (MobileTarget.id t) result = true
   <-> MobileTarget.name t = result \/ MobileTarget.id t = result)
  /\ (strictEq (MobileTarget.name t) result
      || strictEq (MobileTarget.id t) result = false
      <-> MobileTarget.name t <> result /\ MobileTarget.id t <> result).
Proof.
  assert (Hiff : strictEq (MobileTarget.name t) result
                 || strictEq (MobileTarget.id t) result = true
                 <-> MobileTarget.name t = result \/ MobileTarget.id t = result).
  { rewrite orb_true_iff. now rewrite !strictEq_spec. }
  split; [exact Hiff |].
  destruct (strictEq (MobileTarget.name t) result
            || strictEq (MobileTarget.id t) result).
  - split; [discriminate |]. intros [Hn Hi].
    destruct (proj1 Hiff eq_refl); contradiction.
  - split; [| reflexivity]. intros _.
    split; intros Heq; [assert (false = true) by (apply Hiff; now left)
                       | assert (false = true) by (apply Hiff; now right)];
      discriminate.
Qed.

(** C9, as amended.  When the filtered list holds exactly one target,
    [selectTarget] returns it and the chooser is not shown; when it holds
    more than one, the chooser is shown once, with the labels of the
    candidates in the order of the list (the name, or the id when the name
    is absent or empty), and the target returned is the first of the list
    whose name or id is the answer of the chooser.  This is the candidate
    whose label was chosen exactly when no candidate before it has the
    answer as its name or as its id; one is returned whenever the answer is
    the label of a candidate.  When the chooser is dismissed, the first
    candidate without a name or without an id is returned, and none when
    every candidate has both. *)
Theorem C9_selectTarget (collectTargets : list MobileTarget.IMobileTarget)
  (showQuickPick : list (option string) -> option string)
  (targets : option (list MobileTarget.IMobileTarget))
  (filter : option (MobileTarget.IMobileTarget -> bool)) :
  let targetList :=
    fst (MobileTargetManager.getTargetList collectTargets targets filter) in
  let selected :=
    MobileTargetManager.selectTarget collectTargets showQuickPick targets filter in
  let chosen := showQuickPick (map MobileTargetManager.label targetList) in
  (forall t, targetList = [t] -> selected = (Some t, []))
  /\ (1 < length targetList ->
      snd selected = [map MobileTargetManager.label targetList]
      /\ fst selected
         = List.find
             (fun t =>
                strictEq (MobileTarget.name t) chosen
                || strictEq (MobileTarget.id t) chosen)
             targetList
      /\ (forall t, fst selected = Some t ->
          In t targetList
          /\ (MobileTarget.name t = chosen \/ MobileTarget.id t = chosen))
      /\ (forall t0, In t0 targetList -> chosen = MobileTargetManager.label t0 ->
          exists t, fst selected = Some t)
      /\ (forall t,
            fst selected = Some t
            <-> exists before after,
                  targetList = before ++ t :: after
                  /\ (MobileTarget.name t = chosen
                      \/ MobileTarget.id t = chosen)
                  /\ forall u, In u before ->
                       MobileTarget.name u <> chosen
                       /\ MobileTarget.id u <> chosen)
      /\ (forall before t after,
            targetList = before ++ t :: after ->
            chosen = MobileTargetManager.label t ->
            (forall u, In u before ->
               MobileTarget.name u <> chosen /\ MobileTarget.id u <> chosen) ->
            fst selected = Some t)
      /\ (forall before t after u,
            targetList = before ++ t :: after ->
            In u before ->
            MobileTarget.name u = chosen \/ MobileTarget.id u = chosen ->
            exists first, fst selected = Some first /\ In first before)
      /\ (chosen = None ->
          fst selected
          = List.find
              (fun t =>
                 match MobileTarget.name t, MobileTarget.id t with
                 | Some _, Some _ => false
                 | _, _ => true
                 end)
              targetList))
  /\ (forall t,
        MobileTargetManager.label t
        = if truthy (MobileTarget.name t) then MobileTarget.name t
          else MobileTarget.id t).
Proof.
  intros targetList selected chosen. subst selected.
  unfold MobileTargetManager.selectTarget. fold targetList.
  split; [| split].
  - intros t Ht. rewrite Ht. simpl. now rewrite label_matches.
  - intros Hlen. apply Nat.ltb_lt in Hlen. rewrite Hlen. fold chosen. simpl.
    assert (Hfirst : forall t,
               List.find
                 (fun t => strictEq (MobileTarget.name t) chosen
                           || strictEq (MobileTarget.id t) chosen) targetList
               = Some t
               <-> exists before after,
                     targetList = before ++ t :: after
                     /\ (MobileTarget.name t = chosen
                         \/ MobileTarget.id t = chosen)
                     /\ forall u, In u before ->
                          MobileTarget.name u <> chosen
                          /\ MobileTarget.id u <> chosen).
    { intros t. rewrite find_first. split.
      - intros (before & after & Hl & Ht & Hb). exists before, after.
        split; [exact Hl |]. split; [now apply matches_spec |].
        intros u Hu. now apply matches_spec, Hb.
      - intros (before & after & Hl & Ht & Hb). exists before, after.
        split; [exact Hl |]. split; [now apply matches_spec |].
        intros u Hu. now apply matches_spec, Hb. }
    split; [reflexivity | split; [reflexivity |]].
    split; [| split; [| split; [| split; [| split]]]].
    + intros t Hfind. apply find_some in Hfind as [Hin Hm]. split; [exact Hin |].
      apply orb_true_iff in Hm as [Hm | Hm]; apply strictEq_spec in Hm; auto.
    + intros t0 Hin Hch.
      destruct (List.find _ targetList) as [t|] eqn:Hfind; [now exists t |].
      exfalso. apply (find_none _ _ Hfind) in Hin. simpl in Hin.
      rewrite Hch, label_matches in Hin. discriminate.
    + exact Hfirst.
    + intros before t after Hl Hch Hb. apply Hfirst.
      exists before, after. split; [exact Hl |]. split; [| exact Hb].
      rewrite Hch. destruct (label_cases t) as [<- | <-]; auto.
    + intros before t after u Hl Hu Hm. rewrite Hl, find_among.
      destruct (List.find _ before) as [first|] eqn:Hfind.
      * exists first. split; [reflexivity |]. now apply find_some in Hfind.
      * exfalso. apply (find_none _ _ Hfind) in Hu. cbv beta in Hu.
        apply matches_spec in Hu. destruct Hu, Hm; contradiction.
    + intros Hnone. rewrite Hnone. apply find_same. intros t.
      now destruct (MobileTarget.name t), (MobileTarget.id t).
  - intros t. reflexivity.
Qed.

(** The list of the specification's example, with the chooser picking the
    second label. *)
Lemma C9_selectTarget_witness :
  let A := MobileTarget.mkTarget None (Some "A"%string) false false in
  let B := MobileTarget.mkTarget None (Some "B"%string) false true in
  let C := MobileTarget.mkTarget None (Some "C"%string) false true in
  let pick labels := nth 1 labels None in
  MobileTargetManager.selectTarget [A; B; C] pick None
    (Some (fun t => MobileTarget.isOnline t
                    && strictEq (MobileTarget.id t) (Some "B"%string)))
  = (Some B, [])
  /\ snd (MobileTargetManager.selectTarget [A; B; C] pick None
            (Some MobileTarget.isOnline))
     = [[Some "B"%string; Some "C"%string]].
Proof.
  intros A B C pick. split.
  - apply (proj1 (C9_selectTarget [A; B; C] pick None _)). reflexivity.
  - apply (proj1 (proj2 (C9_selectTarget [A; B; C] pick None
                            (Some MobileTarget.isOnline)))).
    simpl. lia.
Defined.

(** C9 as stated fails when the label that is chosen is also the id of a
    candidate before the one that bears it: of two candidates, the first
    named X with the id Y and the second named Y, the chooser is shown X and
    Y, Y is chosen, and the first candidate is returned.  And when the
    chooser is dismissed, so that no label is chosen, a candidate without a
    name is returned all the same. *)
Lemma C9_earlier_id_is_the_chosen_label :
  let X := MobileTarget.mkTarget (Some "X"%string) (Some "Y"%string) false true in
  let Y := MobileTarget.mkTarget (Some "Y"%string) (Some "Z"%string) false true in
  let B := MobileTarget.mkTarget None (Some "B"%string) false true in
  let C := MobileTarget.mkTarget None (Some "C"%string) false true in
  let second (labels : list (option string)) := nth 1 labels None in
  let dismissed (labels : list (option string)) := @None string in
  MobileTargetManager.selectTarget [] second (Some [X; Y]) None
  = (Some X, [[Some "X"%string; Some "Y"%string]])
  /\ second [Some "X"%string; Some "Y"%string] = MobileTargetManager.label Y
  /\ MobileTargetManager.label X <> MobileTargetManager.label Y
  /\ MobileTargetManager.selectTarget [] dismissed (Some [B; C]) None
     = (Some B, [[Some "B"%string; Some "C"%string]]).
Proof.
  cbv zeta. repeat split. discriminate.
Qed.

(** C3, as amended.  [resolveAndSaveMobileTarget] of the debug session has
    the launch scenario updated only when the requested target is generic, a
    target was resolved and more than one target of its virtual or physical
    class is counted, and then with that target alone; with a count of at
    most one, or with an explicit target, nothing is written.
    [resolveAndroidTarget] of the Android platform applies the
    more-than-one test, over the online targets, in the attach scenario
    only; in the launch scenario it writes the name of the target it returns
    whenever the requested target is generic, whatever the number of
    candidates. *)
Theorem C3_target_saved_when_ambiguous
  (getTargetFromRunArgs : option string)
  (resolveMobileTarget :
     string -> option (MobileTarget.IMobileTarget -> bool) ->
     Outcome (option MobileTarget.IMobileTarget))
  (getTargetsCountByFilter : (MobileTarget.IMobileTarget -> bool) -> Z)
  (args : CordovaDebugSession.RequestArgs) (isAttachRequest : bool)
  (getOnlineTargets : list MobileTarget.IMobileTarget)
  (isVirtualTargetOf : string -> Outcome bool)
  (selectAndPrepareTarget :
     (MobileTarget.IMobileTarget -> bool) ->
     Outcome (option MobileTarget.IMobileTarget))
  (target : option string) :
  let session :=
    CordovaDebugSession.resolveAndSaveMobileTarget getTargetFromRunArgs
      resolveMobileTarget getTargetsCountByFilter args isAttachRequest in
  let count rt :=
    getTargetsCountByFilter
      (fun t => Bool.eqb (MobileTarget.isVirtualTarget t)
                  (MobileTarget.isVirtualTarget rt)) in
  let android :=
    AndroidCordovaPlatform.resolveAndroidTarget getOnlineTargets
      isVirtualTargetOf selectAndPrepareTarget target in
  let online tgt :=
    length (List.filter (AndroidCordovaPlatform.sameClass tgt) getOnlineTargets) in
  (forall written, session = Resolves written ->
     written = []
     \/ exists rt,
          resolveMobileTarget (render (CordovaDebugSession.target args))
            (if isAttachRequest then Some MobileTarget.isOnline else None)
          = Resolves (Some rt)
          /\ isAnyTarget (CordovaDebugSession.target args) = true
          /\ (1 < count rt)%Z
          /\ written
             = [if strictEq (CordovaDebugSession.platform args) (Some "android"%string)
                then MobileTarget.name rt else MobileTarget.id rt])
  /\ (forall rt,
        resolveMobileTarget (render (CordovaDebugSession.target args))
          (if isAttachRequest then Some MobileTarget.isOnline else None)
        = Resolves (Some rt) ->
        (count rt <= 1)%Z -> session = Resolves [])
  /\ (isAnyTarget (CordovaDebugSession.target args) = false ->
      forall written, session = Resolves written -> written = [])
  /\ (forall x,
        In x (AndroidCordovaPlatform.updateLaunchScenario (android true)) ->
        isAnyTarget target = true
        /\ exists tgt,
             AndroidCordovaPlatform.returned (android true) = Resolves (Some tgt)
             /\ 1 < online tgt /\ x = MobileTarget.name tgt)
  /\ (forall tgt,
        truthy target = true -> isAnyTarget target = true ->
        AndroidCordovaPlatform.returned (android false) = Resolves (Some tgt) ->
        AndroidCordovaPlatform.updateLaunchScenario (android false)
        = [MobileTarget.name tgt]).
Proof.
  intros session count android online.
  subst session android. unfold CordovaDebugSession.resolveAndSaveMobileTarget.
  fold (isAnyTarget (CordovaDebugSession.target args)).
  repeat split.
  - intros written.
    destruct (truthy (CordovaDebugSession.target args) && negb (truthy getTargetFromRunArgs));
      [| intros [= <-]; now left].
    destruct (resolveMobileTarget _ _) as [[rt|]|e] eqn:Hres; simpl;
      try (intros [= <-]; now left); try discriminate.
    destruct (isAnyTarget _) eqn:Hany; [| intros [= <-]; now left].
    fold (count rt). destruct (1 <? count rt)%Z eqn:Hc; intros [= <-]; [| now left].
    right. exists rt. apply Z.ltb_lt in Hc. auto.
  - intros rt Hres Hc.
    destruct (truthy (CordovaDebugSession.target args) && negb (truthy getTargetFromRunArgs));
      [| reflexivity].
    rewrite Hres. simpl. destruct (isAnyTarget _); [| reflexivity].
    fold (count rt). apply Z.ltb_ge in Hc. now rewrite Hc.
  - intros Hany written. rewrite Hany.
    destruct (truthy (CordovaDebugSession.target args) && negb (truthy getTargetFromRunArgs));
      [| now intros [= <-]].
    destruct (resolveMobileTarget _ _) as [[rt|]|e]; simpl;
      try (now intros [= <-]); discriminate.
  - revert H. unfold AndroidCordovaPlatform.resolveAndroidTarget.
    fold (isAnyTarget target).
    destruct (truthy target).
    + destruct (isVirtualTargetOf _) as [v|e]; [| intros []].
      destruct (selectAndPrepareTarget _) as [[tgt|]|e]; simpl.
      * destruct (isAnyTarget target); [intros _; reflexivity | intros []].
      * destruct (isAnyTarget target); simpl;
          [unfold AndroidCordovaPlatform.getFirstOnlineAndroidTarget;
           destruct getOnlineTargets; intros [] | intros []].
      * intros [].
    + unfold AndroidCordovaPlatform.getFirstOnlineAndroidTarget.
      destruct getOnlineTargets; intros [].
  - revert H. unfold AndroidCordovaPlatform.resolveAndroidTarget.
    fold (isAnyTarget target).
    destruct (truthy target).
    + destruct (isVirtualTargetOf _) as [v|e]; [| intros []].
      destruct (selectAndPrepareTarget _) as [[tgt|]|e]; simpl.
      * destruct (isAnyTarget target); [| intros []].
        unfold AndroidCordovaPlatform.saveResult. fold (online tgt).
        destruct (1 <? online tgt) eqn:Hc; [| intros []].
        intros [<- | []]. exists tgt. apply Nat.ltb_lt in Hc. auto.
      * destruct (isAnyTarget target); simpl;
          [unfold AndroidCordovaPlatform.getFirstOnlineAndroidTarget;
           destruct getOnlineTargets; intros [] | intros []].
      * intros [].
    + unfold AndroidCordovaPlatform.getFirstOnlineAndroidTarget.
      destruct getOnlineTargets; intros [].
  - intros tgt Ht Hany. unfold AndroidCordovaPlatform.resolveAndroidTarget.
    fold (isAnyTarget target). rewrite Ht, Hany.
    destruct (isVirtualTargetOf _) as [v|e]; [| discriminate].
    destruct (selectAndPrepareTarget _) as [[tgt'|]|e]; simpl;
      try discriminate.
    now intros [= ->].
Qed.

(** Two devices are attached and a generic [device] target is resolved to
    the first: the session saves it.  The same request on the attach path of
    the Android platform saves its name as well. *)
Lemma C3_target_saved_witness :
  let d1 := MobileTarget.mkTarget (Some "Pixel"%string) (Some "id1"%string) false true in
  let d2 := MobileTarget.mkTarget (Some "Nexus"%string) (Some "id2"%string) false true in
  let count f := Z.of_nat (length (List.filter f [d1; d2])) in
  let select f := Resolves (List.find f [d1; d2]) in
  AndroidCordovaPlatform.updateLaunchScenario
    (AndroidCordovaPlatform.resolveAndroidTarget [d1; d2]
       MobileTargetManager.isVirtualTarget select (Some "device"%string) false)
  = [Some "Pixel"%string]
  /\ CordovaDebugSession.resolveAndSaveMobileTarget None
       (fun _ _ => Resolves (Some d1)) count
       (CordovaDebugSession.mkArgs "/project" (Some "android"%string) (Some "device"%string))
       false
     = Resolves [Some "Pixel"%string].
Proof.
  intros d1 d2 count select.
  pose proof (C3_target_saved_when_ambiguous None
                (fun _ _ => Resolves (Some d1)) count
                (CordovaDebugSession.mkArgs "/project" (Some "android"%string)
                   (Some "device"%string))
                false [d1; d2] MobileTargetManager.isVirtualTarget select
                (Some "device"%string)) as H.
  split.
  - apply (proj2 (proj2 (proj2 (proj2 H))) d1); reflexivity.
  - reflexivity.
Defined.

(** C3 as stated fails on the launch path of the Android platform: with one
    device attached, so that exactly one candidate of the physical class
    exists, a launch with the generic [device] target still writes the
    resolved target into the launch scenario. *)
Lemma C3_launch_saves_single_candidate :
  let d := MobileTarget.mkTarget (Some "Pixel"%string) (Some "id1"%string) false true in
  let r :=
    AndroidCordovaPlatform.resolveAndroidTarget [d]
      MobileTargetManager.isVirtualTarget
      (fun f => Resolves (List.find f [d])) (Some "device"%string) false in
  length (List.filter (AndroidCordovaPlatform.sameClass d) [d]) = 1
  /\ AndroidCordovaPlatform.returned r = Resolves (Some d)
  /\ AndroidCordovaPlatform.updateLaunchScenario r = [Some "Pixel"%string].
Proof. repeat split. Qed.

Lemma procNetUnixHeader_columns :
  indexOf (splitWs procNetUnixHeader) "Flags" = 3%Z
  /\ indexOf (splitWs procNetUnixHeader) "St" = 5%Z
  /\ indexOf (splitWs procNetUnixHeader) "Path" = 7%Z.
Proof. repeat split. Qed.

Lemma forLines_skip (body : string -> AndroidCordovaPlatform.LineResult)
  (before : list string) (rest : list string) :
  Forall (fun l => body l = AndroidCordovaPlatform.Continue) before ->
  AndroidCordovaPlatform.forLines body (before ++ rest)
  = AndroidCordovaPlatform.forLines body rest.
Proof.
  induction 1 as [|l before Hl _ IH]; simpl; [reflexivity |].
  now rewrite Hl.
Qed.

Lemma at_index_length (fields : list string) (i : nat) (v : string) :
  at_index fields (Z.of_nat i) = Some v -> i < length fields.
Proof.
  unfold at_index. destruct (Z.of_nat i <? 0)%Z; [discriminate |].
  rewrite Nat2Z.id. apply lookup_lt_Some.
Qed.

(** C4. On a table with the columns of [/proc/net/unix], a line whose
    [Flags] field is [00010000], whose [St] field is [01] and whose [Path]
    field is [@webview_devtools_remote_] followed by the resolved process id
    makes the loop return the path without its leading [@], and so does the
    resolver on a table in which the lines before it are skipped; a line
    whose [St] field is [02] is skipped, and so is a line whose [Path] field
    is neither [@webview_devtools_remote_<pid>] nor
    [@<packageId>_devtools_remote]. *)
Theorem C4_socket_table_parsing (appPackageName pid : option string)
  (typeError : JsError) (line : string) :
  let fields := splitWs line in
  let body :=
    AndroidCordovaPlatform.socketLine appPackageName typeError 3 5 7 pid in
  let socket := ("webview_devtools_remote_" ++ render pid)%string in
  (at_index fields 3 = Some "00010000"%string ->
   at_index fields 5 = Some "01"%string ->
   at_index fields 7 = Some (String "@" socket) ->
   body line = AndroidCordovaPlatform.Return (Some socket)
   /\ forall table before after,
        split (String LF EmptyString) table
        = procNetUnixHeader :: before ++ line :: after ->
        Forall (fun l => body l = AndroidCordovaPlatform.Continue) before ->
        AndroidCordovaPlatform.parseSockets appPackageName typeError pid table
        = Resolves (Some socket))
  /\ (at_index fields 5 = Some "02"%string ->
      body line = AndroidCordovaPlatform.Continue)
  /\ (at_index fields 7 <> Some (String "@" socket) ->
      at_index fields 7
      <> Some ("@" ++ render appPackageName ++ "_devtools_remote")%string ->
      body line = AndroidCordovaPlatform.Continue).
Proof.
  intros fields body socket.
  assert (Hret : at_index fields 3 = Some "00010000"%string ->
                 at_index fields 5 = Some "01"%string ->
                 at_index fields 7 = Some (String "@" socket) ->
                 body line = AndroidCordovaPlatform.Return (Some socket)).
  { intros H3 H5 H7. subst body. unfold AndroidCordovaPlatform.socketLine.
    fold fields. pose proof (at_index_length fields 7 _ H7) as Hlen.
    change (Z.of_nat 7) with 7%Z in Hlen.
    assert ((length fields <? 8) = false) as -> by (apply Nat.ltb_ge; lia).
    rewrite H3, H5, H7. unfold strictEq. rewrite !String.eqb_refl.
    cbn [negb orb String.length Nat.ltb Nat.leb AndroidCordovaPlatform.firstIs].
    rewrite Ascii.eqb_refl. cbn [negb orb].
    assert (includes "_devtools_remote" (String "@" socket) = true) as ->.
    { apply includes_spec. exists "@webview"%string, ("_" ++ render pid)%string.
      reflexivity. }
    reflexivity. }
  split; [| split].
  - intros H3 H5 H7. split; [now apply Hret |].
    intros table before after Hsplit Hbefore.
    unfold AndroidCordovaPlatform.parseSockets. rewrite Hsplit.
    cbn [hd tl].
    destruct procNetUnixHeader_columns as [-> [-> ->]].
    fold body. rewrite (forLines_skip body before _ Hbefore). simpl.
    now rewrite (Hret H3 H5 H7).
  - intros H5. subst body. unfold AndroidCordovaPlatform.socketLine.
    fold fields. destruct (length fields <? 8); [reflexivity |].
    rewrite H5. unfold strictEq.
    replace (String.eqb "02" "01") with false by reflexivity.
    now rewrite orb_true_r.
  - intros Hw Hp. subst body. unfold AndroidCordovaPlatform.socketLine.
    fold fields. destruct (length fields <? 8) eqn:Hlen; [reflexivity |].
    destruct (_ || _); [reflexivity |].
    apply Nat.ltb_ge in Hlen.
    destruct (at_index fields 7) as [pathField|] eqn:H7.
    + destruct ((String.length pathField <? 1)
                || negb (AndroidCordovaPlatform.firstIs "@" pathField));
        [reflexivity |].
      destruct (includes "_devtools_remote" pathField); [| reflexivity].
      cbn [negb].
      destruct (String.eqb pathField
                  ("@webview_devtools_remote_" ++ render pid)) eqn:E1.
      { apply String.eqb_eq in E1. subst pathField. now contradiction Hw. }
      destruct (String.eqb pathField
                  ("@" ++ render appPackageName ++ "_devtools_remote")) eqn:E2.
      { apply String.eqb_eq in E2. subst pathField. now contradiction Hp. }
      reflexivity.
    + unfold at_index in H7. simpl in H7.
      apply lookup_ge_None in H7. change (Z.to_nat 7) with 7 in H7. lia.
Qed.

(** The line of the specification's example, for the process 1234. *)
Lemma C4_socket_table_witness :
  AndroidCordovaPlatform.parseSockets (Some "io.cordova.hello"%string)
    (mkError (Some "TypeError"%string)
       "Cannot read properties of undefined (reading 'length')" None)
    (Some "1234"%string)
    (procNetUnixHeader ++ String LF
       "0000000000000000: 00000002 00000000 00010000 0001 02 11111 @webview_devtools_remote_1234"
     ++ String LF
       "0000000000000000: 00000002 00000000 00010000 0001 01 22222 @webview_devtools_remote_1234")
  = Resolves (Some "webview_devtools_remote_1234"%string).
Proof.
  apply (proj2 (proj1 (C4_socket_table_parsing (Some "io.cordova.hello"%string)
                  (Some "1234"%string)
                  (mkError (Some "TypeError"%string)
                     "Cannot read properties of undefined (reading 'length')"
                     None)
                  "0000000000000000: 00000002 00000000 00010000 0001 01 22222 @webview_devtools_remote_1234")
                 eq_refl eq_refl eq_refl)
           _
           ["0000000000000000: 00000002 00000000 00010000 0001 02 11111 @webview_devtools_remote_1234"%string]
           []).
  - reflexivity.
  - repeat constructor.
Defined.

(** *** Errors of the helpers of [prepareForAttach] *)

(** C6, as amended.  In the read of the manifest only a file-not-found on
    the first path is recovered, by reading the second path: any other error
    of the first read and any error of the second are surfaced.  In
    [findAbstractNameFunction] an error of the [pidof] query whose message is
    not the pid-not-found marker is caught and replaced by an undefined
    process id, with which the socket table is still queried; an error of
    the process listing that follows the marker, and an error of the query
    of the socket table, are surfaced. *)
Theorem C6_helper_errors
  (readFile : string -> Outcome string) (path_join : string -> string -> string)
  (ANDROID_MANIFEST_PATH ANDROID_MANIFEST_PATH_8 : string)
  (manifestPackage : string -> Outcome (option string)) (cwd : string)
  (runAdbCommand : list string -> Outcome string)
  (pidofNotFoundError : string) (PS_FIELDS_SPLITTER_RE : string -> list string)
  (appPackageName : option string) (targetDevice : string)
  (typeError : JsError) :
  let package :=
    AndroidCordovaPlatform.packagePromise readFile path_join
      ANDROID_MANIFEST_PATH ANDROID_MANIFEST_PATH_8 manifestPackage cwd in
  let first := readFile (path_join cwd ANDROID_MANIFEST_PATH) in
  let second := readFile (path_join cwd ANDROID_MANIFEST_PATH_8) in
  let pidof :=
    runAdbCommand
      (AndroidCordovaPlatform.pidofCommandArguments appPackageName targetDevice) in
  let ps :=
    runAdbCommand (AndroidCordovaPlatform.getPidCommandArguments targetDevice) in
  let sockets :=
    runAdbCommand (AndroidCordovaPlatform.getSocketsCommandArguments targetDevice) in
  let findPid :=
    AndroidCordovaPlatform.findPid runAdbCommand pidofNotFoundError
      PS_FIELDS_SPLITTER_RE appPackageName targetDevice in
  let attempt :=
    AndroidCordovaPlatform.findAbstractNameFunction runAdbCommand
      pidofNotFoundError PS_FIELDS_SPLITTER_RE appPackageName targetDevice
      typeError in
  (forall err, first = Rejects err ->
     AndroidCordovaPlatform.isENOENT err = false -> package = Rejects err)
  /\ (forall err err2, first = Rejects err ->
        AndroidCordovaPlatform.isENOENT err = true ->
        second = Rejects err2 -> package = Rejects err2)
  /\ (forall err contents, first = Rejects err ->
        AndroidCordovaPlatform.isENOENT err = true ->
        second = Resolves contents -> package = manifestPackage contents)
  /\ (forall err, pidof = Rejects err -> message err <> pidofNotFoundError ->
        findPid = Resolves None
        /\ attempt
           = andThen sockets
               (AndroidCordovaPlatform.parseSockets appPackageName typeError
                  None))
  /\ (forall err err2, pidof = Rejects err -> message err = pidofNotFoundError ->
        ps = Rejects err2 -> attempt = Rejects err2)
  /\ (forall pid err, findPid = Resolves pid -> sockets = Rejects err ->
        attempt = Rejects err).
Proof.
  intros package first second pidof ps sockets findPid attempt.
  subst package attempt findPid.
  unfold AndroidCordovaPlatform.findAbstractNameFunction,
    AndroidCordovaPlatform.findPid, AndroidCordovaPlatform.packagePromise.
  fold first second pidof ps sockets.
  repeat split.
  - intros err -> Hno. simpl. now rewrite Hno.
  - intros err err2 -> Hyes ->. simpl. now rewrite Hyes.
  - intros err contents -> Hyes ->. simpl. now rewrite Hyes.
  - rewrite H. simpl. apply String.eqb_neq in H0. now rewrite H0.
  - rewrite H. simpl. apply String.eqb_neq in H0. now rewrite H0.
  - intros err err2 -> Hm ->. simpl. apply String.eqb_eq in Hm. now rewrite Hm.
  - intros pid err -> ->. reflexivity.
Qed.

(** The adb server fails on [pidof] and on the listing of the sockets. *)
Lemma C6_helper_errors_witness :
  let offline := newError "error: device offline" in
  let adb (args : list string) : Outcome string := Rejects offline in
  let typeError :=
    mkError (Some "TypeError"%string)
      "Cannot read properties of undefined (reading 'length')" None in
  AndroidCordovaPlatform.findAbstractNameFunction adb
    "/system/bin/sh: pidof: not found" splitWs (Some "io.cordova.hello"%string)
    "emulator-5554" typeError
  = Rejects offline.
Proof.
  intros offline adb typeError.
  apply (proj2 (proj2 (proj2 (proj2 (proj2
           (C6_helper_errors (fun _ => Rejects offline)
              (fun a b => (a ++ b)%string) "a" "b"
              (fun _ => Resolves None) "/project" adb
              "/system/bin/sh: pidof: not found" splitWs
              (Some "io.cordova.hello"%string) "emulator-5554" typeError)))))
           None offline); reflexivity.
Defined.

(** C6 as stated fails on the [pidof] query: the query is rejected with an
    error that is not the marker, the socket table holds no debug socket,
    and the attempt resolves (to [undefined]): the error has been dropped. *)
Lemma C6_pidof_error_dropped :
  let offline := newError "error: device offline" in
  let marker := "/system/bin/sh: pidof: not found"%string in
  let adb (args : list string) : Outcome string :=
    if String.eqb (nth 3 args EmptyString) "pidof" then Rejects offline
    else Resolves procNetUnixHeader in
  let typeError :=
    mkError (Some "TypeError"%string)
      "Cannot read properties of undefined (reading 'length')" None in
  adb (AndroidCordovaPlatform.pidofCommandArguments
         (Some "io.cordova.hello"%string) "emulator-5554")
  = Rejects offline
  /\ String.eqb (message offline) marker = false
  /\ AndroidCordovaPlatform.findAbstractNameFunction adb marker splitWs
       (Some "io.cordova.hello"%string) "emulator-5554" typeError
     = Resolves None.
Proof. repeat split. Qed.

Section RetryFacts.
Context {A : Type}.
Variable func : nat -> Outcome A.
Variable condition : A -> bool.
Variable delay : Z.
Variable failure : string.
Variable isCancellationRequested : nat -> bool.
Hypothesis never : forall i, noMatch condition (func i).

Lemma retry_step (remaining iteration : nat) :
  AndroidCordovaPlatform.retryAsync_from func condition delay failure
    isCancellationRequested remaining iteration
  = if isCancellationRequested iteration
    then (Rejects AndroidCordovaPlatform.cancelError,
          [AndroidCordovaPlatform.Attempt iteration])
    else
      match remaining with
      | O => (Rejects (newError failure),
              [AndroidCordovaPlatform.Attempt iteration])
      | S remaining' =>
          let '(r, steps) :=
            AndroidCordovaPlatform.retryAsync_from func condition delay
              failure isCancellationRequested remaining' (S iteration) in
          (r, AndroidCordovaPlatform.Attempt iteration
                :: AndroidCordovaPlatform.Delay delay :: steps)
      end.
Proof.
  specialize (never iteration). unfold noMatch in never.
  destruct remaining as [|remaining']; simpl;
    destruct (func iteration) as [v|e]; try rewrite never;
    destruct (isCancellationRequested iteration); try reflexivity;
    now destruct (AndroidCordovaPlatform.retryAsync_from _ _ _ _ _ _ _).
Qed.

Lemma retry_exhausted (remaining iteration : nat) :
  (forall i, isCancellationRequested i = false) ->
  AndroidCordovaPlatform.retryAsync_from func condition delay failure
    isCancellationRequested remaining iteration
  = (Rejects (newError failure), schedule delay iteration remaining).
Proof.
  intros Hc. revert iteration.
  induction remaining as [|remaining IH]; intros iteration;
    rewrite retry_step, Hc; [reflexivity |].
  now rewrite IH.
Qed.

Lemma retry_cancelled (d remaining iteration : nat) :
  d <= remaining ->
  (forall i, i < iteration + d -> isCancellationRequested i = false) ->
  isCancellationRequested (iteration + d) = true ->
  AndroidCordovaPlatform.retryAsync_from func condition delay failure
    isCancellationRequested remaining iteration
  = (Rejects AndroidCordovaPlatform.cancelError, schedule delay iteration d).
Proof.
  revert remaining iteration.
  induction d as [|d IH]; intros remaining iteration Hle Hbefore Hat;
    rewrite retry_step.
  - rewrite Nat.add_0_r in Hat. now rewrite Hat.
  - rewrite Hbefore by lia. destruct remaining as [|remaining]; [lia |].
    rewrite (IH remaining (S iteration)); [reflexivity | lia | |].
    + intros i Hi. apply Hbefore. lia.
    + now replace (S iteration + d) with (iteration + S d) by lia.
Qed.

End RetryFacts.

(** C5.  When every attempt at finding the process id and the socket yields
    no match and no cancellation is requested, exactly five attempts are made,
    with a delay of 5000 between each two, and the error surfaced is "Unable
    to find 'localabstract' name of Cordova app"; when the session's token
    reports a cancellation after the attempt [k], no further attempt is made
    and the cancellation error is surfaced. *)
Theorem C5_retry_exhaustion
  (runAdbCommand : nat -> list string -> Outcome string)
  (pidofNotFoundError : string) (PS_FIELDS_SPLITTER_RE : string -> list string)
  (appPackageName : option string) (targetDevice : string)
  (typeError : JsError) (isCancellationRequested : nat -> bool) :
  let attempt i :=
    AndroidCordovaPlatform.findAbstractNameFunction (runAdbCommand i)
      pidofNotFoundError PS_FIELDS_SPLITTER_RE appPackageName targetDevice
      typeError in
  let result :=
    AndroidCordovaPlatform.findAbstractName runAdbCommand pidofNotFoundError
      PS_FIELDS_SPLITTER_RE appPackageName targetDevice typeError
      isCancellationRequested in
  (forall i, noMatch truthy (attempt i)) ->
  ((forall i, isCancellationRequested i = false) ->
   result
   = (Rejects (newError "Unable to find 'localabstract' name of Cordova app"),
      [AndroidCordovaPlatform.Attempt 1; AndroidCordovaPlatform.Delay 5000;
       AndroidCordovaPlatform.Attempt 2; AndroidCordovaPlatform.Delay 5000;
       AndroidCordovaPlatform.Attempt 3; AndroidCordovaPlatform.Delay 5000;
       AndroidCordovaPlatform.Attempt 4; AndroidCordovaPlatform.Delay 5000;
       AndroidCordovaPlatform.Attempt 5]))
  /\ (forall k, 1 <= k <= 5 ->
      (forall i, i < k -> isCancellationRequested i = false) ->
      isCancellationRequested k = true ->
      result = (Rejects AndroidCordovaPlatform.cancelError,
                schedule 5000 1 (k - 1))).
Proof.
  intros attempt result Hnever. subst result.
  unfold AndroidCordovaPlatform.findAbstractName,
    AndroidCordovaPlatform.retryAsync.
  fold attempt. split.
  - intros Hc.
    now rewrite (retry_exhausted attempt truthy 5000 _ _ Hnever (5 - 1) 1 Hc).
  - intros k Hk Hbefore Hat.
    apply (retry_cancelled attempt truthy 5000 _ _ Hnever (k - 1) (5 - 1) 1).
    + lia.
    + intros i Hi. apply Hbefore. lia.
    + now replace (1 + (k - 1)) with k by lia.
Qed.

(** The device stays offline: every command of every attempt fails. *)
Lemma C5_retry_exhaustion_witness :
  let offline := newError "error: device offline" in
  let typeError :=
    mkError (Some "TypeError"%string)
      "Cannot read properties of undefined (reading 'length')" None in
  snd (AndroidCordovaPlatform.findAbstractName (fun _ _ => Rejects offline)
         "/system/bin/sh: pidof: not found" splitWs
         (Some "io.cordova.hello"%string) "emulator-5554" typeError
         (fun _ => false))
  = schedule 5000 1 4
  /\ fst (AndroidCordovaPlatform.findAbstractName (fun _ _ => Rejects offline)
            "/system/bin/sh: pidof: not found" splitWs
            (Some "io.cordova.hello"%string) "emulator-5554" typeError
            (fun _ => false))
     = Rejects (newError "Unable to find 'localabstract' name of Cordova app").
Proof.
  intros offline typeError.
  pose proof (proj1 (C5_retry_exhaustion (fun _ _ => Rejects offline)
                       "/system/bin/sh: pidof: not found" splitWs
                       (Some "io.cordova.hello"%string) "emulator-5554"
                       typeError (fun _ => false) (fun i => I))
                (fun i => eq_refl)) as H.
  now rewrite H.
Defined.

(** *** The detector on concrete runs *)

(** A tool of version 4 writes on the standard error only.  The server
    shows its address in a first chunk of it and the deployment succeeds in
    a second: the promise of [startIonicDevServer] is fulfilled with the
    address. *)
Lemma C1_readiness_order_witness :
  let EOL := String LF EmptyString in
  let launchArgs :=
    IonicDevServer.mkLaunchArgs "/project" None None IonicDevServer.Absent
      None (Some true) in
  let cliArgs := ["run"; "android"]%string in
  let shown :=
    IonicDevServer.StderrData ("Local: http://localhost:8100" ++ EOL) in
  let deployed := IonicDevServer.StderrData "launch success" in
  IonicDevServer.startIonicDevServer EOL (fun _ => 8100%Z) (fun _ _ => true)
    launchArgs cliArgs [shown; deployed]
  = IonicDevServer.Fulfilled ["http://localhost:8100"%string].
Proof.
  intros EOL launchArgs cliArgs shown deployed.
  destruct (C1_readiness_order EOL (fun _ => 8100%Z) (fun _ _ => true)
              launchArgs cliArgs [] [shown] [deployed] [])
    as [_ H].
  destruct H as (_ & _ & _ & before & ev & rest & data & H);
    [vm_compute; reflexivity | vm_compute; reflexivity |].
  cbv zeta in H.
  destruct H as (Hsplit & _ & Hf & Ht & _ & _ & _ & _ & Hm).
  destruct before as [|b0 [|b1 before]]; cbn [app] in Hsplit.
  - exfalso. injection Hsplit as <- _. revert Ht. vm_compute. discriminate.
  - injection Hsplit as <- <- _.
    match type of Hm with
    | match ?t with _ => _ end =>
        assert (Hr : t = []) by (vm_compute; reflexivity); rewrite Hr in Hm
    end.
    destruct Hm as [_ Hm].
    etransitivity; [etransitivity; [| exact Hm] |]; vm_compute; reflexivity.
  - exfalso. injection Hsplit as _ _ Hsplit.
    destruct before; discriminate.
Defined.

(** C1 as stated fails when a fatal pattern comes first: the output shows the
    address of the server and then the success of the deployment, both flags
    get set, but the promise stays rejected by the error line of the first
    chunk. *)
Lemma C1_rejected_before_ready :
  let EOL := String LF EmptyString in
  let launchArgs :=
    IonicDevServer.mkLaunchArgs "/project" None None IonicDevServer.Absent
      None (Some true) in
  let cliArgs := ["run"; "android"]%string in
  let chunks := [("error: boom" ++ EOL)%string;
                 ("Local: http://localhost:8100" ++ EOL)%string;
                 "launch success"%string] in
  let st := received EOL (fun _ => 8100%Z) (fun _ _ => false) launchArgs
              cliArgs chunks in
  let failure :=
    IonicDevServer.RejError
      ("Error in the Ionic live reload server: " ++ EOL ++ "error: boom") in
  IonicDevServer.isSome
    (search IonicDevServer.SERVER_URL_RE (joined (firstn 2 chunks))) = true
  /\ appReadyShown cliArgs (joined chunks) = true
  /\ IonicDevServer.serverReady st = true
  /\ IonicDevServer.appReady st = true
  /\ In (IonicDevServer.Resolve (Some ["http://localhost:8100"%string]))
        (IonicDevServer.calls st)
  /\ IonicDevServer.serverStarting st = IonicDevServer.Rejected failure
  /\ IonicDevServer.startIonicDevServer EOL (fun _ => 8100%Z)
       (fun _ _ => false) launchArgs cliArgs
       (map IonicDevServer.StdoutData chunks)
     = IonicDevServer.Rejected failure.
Proof.
  vm_compute. repeat split.
  repeat (first [left; reflexivity | right]).
Qed.

(** An error line that holds the message of the network probe: a tool of
    version 4 or later gives no error message and leaves the promise pending;
    an earlier tool rejects with the line. *)
Lemma C2_network_probe_witness :
  let EOL := String LF EmptyString in
  let launchArgs :=
    IonicDevServer.mkLaunchArgs "/project" None None IonicDevServer.Absent
      None (Some true) in
  let cliArgs := ["run"; "android"]%string in
  let data := "error: utils-network error while checking"%string in
  let after version :=
    IonicDevServer.step EOL (fun _ => 8100%Z) (fun _ _ => version)
      launchArgs cliArgs (IonicDevServer.started launchArgs)
      (IonicDevServer.StdoutData data) in
  (IonicDevServer.getServerErrorMessage EOL (fun _ _ => true) launchArgs data
   = None
   /\ forall r, IonicDevServer.serverStarting (after true)
                <> IonicDevServer.Rejected r)
  /\ IonicDevServer.serverStarting (after false)
     = IonicDevServer.Rejected
         (IonicDevServer.RejError
            ("Error in the Ionic live reload server: " ++ EOL ++ data)).
Proof.
  intros EOL launchArgs cliArgs data after.
  destruct (C2_network_probe_message EOL (fun _ => 8100%Z) (fun _ _ => true)
              launchArgs cliArgs [] data) as (H4 & _ & _).
  destruct (C2_network_probe_message EOL (fun _ => 8100%Z) (fun _ _ => false)
              launchArgs cliArgs [] data) as (_ & H3 & _).
  split.
  - destruct (H4 eq_refl) as (Hm & _ & Hev).
    { now exists "error: "%string, EmptyString. }
    split; [exact Hm |].
    intros r Hr.
    destruct (Hev (IonicDevServer.StdoutData data) (or_introl eq_refl))
      as [_ Hstay].
    specialize (Hstay eq_refl r Hr). discriminate Hstay.
  - destruct (H3 eq_refl) as [_ Hrej].
    destruct (Hrej data eq_refl) as [_ Hp].
    apply Hp; reflexivity.
Defined.

(** C2 as stated fails for an earlier version: the message of the probe, on
    a line of its own, holds no match of the error pattern, so that the
    handler gives no error message and the promise stays pending. *)
Lemma C2_probe_message_is_no_error :
  let EOL := String LF EmptyString in
  let launchArgs :=
    IonicDevServer.mkLaunchArgs "/project" None None IonicDevServer.Absent
      None (Some true) in
  let cliArgs := ["run"; "android"]%string in
  let data := ("utils-network error while checking" ++ EOL)%string in
  let st := received EOL (fun _ => 8100%Z) (fun _ _ => false) launchArgs
              cliArgs [data] in
  IonicDevServer.isIonic4 (fun _ _ => false) launchArgs = false
  /\ includes benign data = true
  /\ IonicDevServer.getServerErrorMessage EOL (fun _ _ => false) launchArgs
       data = None
  /\ IonicDevServer.serverStarting st = IonicDevServer.Pending
  /\ List.filter
       (fun c => match c with IonicDevServer.Reject _ => true | _ => false end)
       (IonicDevServer.calls st) = [].
Proof. vm_compute. repeat split. Qed.

(** A delay of 5000 ms is configured and the server shows its address: the
    server-ready timer, armed with the delay, is disarmed and the app-ready
    one armed with it; when this one expires the promise is rejected with a
    text that names the deployment and the delay. *)
Lemma C7_readiness_timeouts_witness :
  let EOL := String LF EmptyString in
  let delay := IonicDevServer.mkNumber false "5000" in
  let launchArgs :=
    IonicDevServer.mkLaunchArgs "/project" None None IonicDevServer.Absent
      (Some delay) (Some true) in
  let cliArgs := ["run"; "android"]%string in
  let shown :=
    IonicDevServer.StdoutData ("Local: http://localhost:8100" ++ EOL) in
  let run events :=
    IonicDevServer.run EOL (fun _ => 8100%Z) (fun _ _ => true) launchArgs
      cliArgs events (IonicDevServer.started launchArgs) in
  List.filter isTimerCall (IonicDevServer.calls (run [shown]))
  = [IonicDevServer.SetTimeout 0 IonicDevServer.ServerReadyTimedOut delay;
     IonicDevServer.ClearTimeout 0;
     IonicDevServer.SetTimeout 1 IonicDevServer.AppReadyTimedOut delay]
  /\ IonicDevServer.serverStarting
       (run [shown; IonicDevServer.TimerExpired 1])
     = IonicDevServer.Rejected
         (IonicDevServer.RejText
            "Building and deploying the app timed out (5000 ms)").
Proof.
  intros EOL delay launchArgs cliArgs shown run.
  destruct (C7_readiness_timeouts EOL (fun _ => 8100%Z) (fun _ _ => true)
              launchArgs cliArgs [shown] (IonicDevServer.TimerExpired 1))
    as (Hh & _ & _ & _ & _ & _ & Hfire & _).
  split.
  - etransitivity; [exact Hh |]. vm_compute. reflexivity.
  - destruct (Hfire 1 IonicDevServer.AppReadyTimedOut)
      as (_ & _ & _ & _ & Hp); [vm_compute; reflexivity |].
    etransitivity; [etransitivity; [| apply Hp] |]; vm_compute; reflexivity.
Defined.

(** Under a tool of version 4 the message about several interfaces arrives
    on the standard error, with two numbered lines: the promise is rejected
    with a message that holds both lines. *)
Lemma C8_multiple_interfaces_witness :
  let EOL := String LF EmptyString in
  let launchArgs :=
    IonicDevServer.mkLaunchArgs "/project" None None IonicDevServer.Absent
      None (Some true) in
  let cliArgs := ["run"; "android"]%string in
  let data := ("Multiple network interfaces detected" ++ EOL
               ++ "1) 10.0.0.1" ++ EOL ++ "2) 10.0.0.2" ++ EOL)%string in
  let st :=
    IonicDevServer.step EOL (fun _ => 8100%Z) (fun _ _ => true) launchArgs
      cliArgs (IonicDevServer.started launchArgs)
      (IonicDevServer.StderrData data) in
  let message := IonicDevServer.multipleInterfacesMessage EOL data in
  IonicDevServer.serverStarting st
  = IonicDevServer.Rejected (IonicDevServer.RejError message)
  /\ occursIn "1) 10.0.0.1" message
  /\ occursIn "2) 10.0.0.2" message.
Proof.
  intros EOL launchArgs cliArgs data st message.
  destruct (C8_multiple_interfaces EOL (fun _ => 8100%Z) (fun _ _ => true)
              launchArgs cliArgs [] (IonicDevServer.StderrData data) data
              eq_refl eq_refl)
    as (_ & _ & _ & _ & Hp & _ & _ & _ & Hline).
  split; [exact (proj1 (Hp eq_refl eq_refl)) |].
  split.
  - apply (Hline ("Multiple network interfaces detected" ++ EOL)%string
             "1) 10.0.0.1"%string
             (EOL ++ "2) 10.0.0.2" ++ EOL)%string); try reflexivity.
    + right. now exists "Multiple network interfaces detected"%string, LF.
    + exists "1"%string, "10.0.0.1"%string.
      split; [reflexivity | split; [discriminate | split; reflexivity]].
  - apply (Hline ("Multiple network interfaces detected" ++ EOL
                  ++ "1) 10.0.0.1" ++ EOL)%string
             "2) 10.0.0.2"%string EOL); try reflexivity.
    + right.
      now exists ("Multiple network interfaces detected" ++ EOL
                  ++ "1) 10.0.0.1")%string, LF.
    + exists "2"%string, "10.0.0.2"%string.
      split; [reflexivity | split; [discriminate | split; reflexivity]].
Defined.

(** C8 as stated fails when the numbered lines arrive in a later chunk than
    the message: the promise is rejected at the message, with a text that
    holds none of the lines the output goes on with. *)
Lemma C8_addresses_in_later_chunk :
  let EOL := String LF EmptyString in
  let launchArgs :=
    IonicDevServer.mkLaunchArgs "/project" None None IonicDevServer.Absent
      None (Some true) in
  let cliArgs := ["run"; "android"]%string in
  let chunks := [("Multiple network interfaces detected" ++ EOL)%string;
                 ("1) 10.0.0.1" ++ EOL ++ "2) 10.0.0.2" ++ EOL)%string] in
  let st := received EOL (fun _ => 8100%Z) (fun _ _ => true) launchArgs
              cliArgs chunks in
  let message :=
    IonicDevServer.multipleInterfacesMessage EOL (joined (firstn 1 chunks)) in
  IonicDevServer.serverOut st = joined chunks
  /\ includes "Multiple network interfaces detected" (joined chunks) = true
  /\ execAll IonicDevServer.addressRegex 0 (joined chunks)
     = ["1) 10.0.0.1"; "2) 10.0.0.2"]%string
  /\ IonicDevServer.serverStarting st
     = IonicDevServer.Rejected (IonicDevServer.RejError message)
  /\ includes "1) 10.0.0.1" message = false
  /\ includes "2) 10.0.0.2" message = false.
Proof. vm_compute. repeat split. Qed.

(** *** [startIonicDevServer], as its caller sees it *)

Lemma thenUrls_pending (p : IonicDevServer.Settled (option (list string))) :
  IonicDevServer.thenUrls p = IonicDevServer.Pending
  <-> p = IonicDevServer.Pending.
Proof.
  destruct p as [|[[|url urls]|]|r]; cbn; split; congruence.
Qed.

(** X1.  The promise of [startIonicDevServer] settles once: when the events
    delivered so far have fulfilled or rejected it, no later output, error,
    exit or expiry changes its outcome. *)
Theorem startIonicDevServer_settles_once (EOL : string)
  (getPortFromURL : string -> Z) (isIonicCliVersionGte : string -> string -> bool)
  (launchArgs : IonicDevServer.LaunchArgs) (cliArgs : list string)
  (events more : list IonicDevServer.Event) :
  let result :=
    IonicDevServer.startIonicDevServer EOL getPortFromURL isIonicCliVersionGte
      launchArgs cliArgs in
  result events <> IonicDevServer.Pending ->
  result (events ++ more) = result events.
Proof.
  intros result. subst result. unfold IonicDevServer.startIonicDevServer.
  destruct (IonicDevServer.prepareCliArgs launchArgs cliArgs) as [r|cliArgs'];
    [reflexivity |].
  intros Hp. rewrite run_app, settled_stays; [reflexivity | |].
  - apply Inv_run, Inv_started.
  - intros E. apply Hp. now apply thenUrls_pending.
Qed.

(** An error line rejects the promise; the URL of the server and the success
    of the deployment, the exit of the process and the expiry of a timer that
    come later leave it rejected with that line. *)
Lemma startIonicDevServer_settles_once_witness :
  let EOL := String LF EmptyString in
  let launchArgs :=
    IonicDevServer.mkLaunchArgs "/project" None None IonicDevServer.Absent
      None (Some true) in
  let cliArgs := ["run"; "android"]%string in
  let events := [IonicDevServer.StdoutData ("error: boom" ++ EOL)] in
  let more :=
    [IonicDevServer.StdoutData ("Local: http://localhost:8100" ++ EOL);
     IonicDevServer.StdoutData "launch success";
     IonicDevServer.ProcessExit; IonicDevServer.TimerExpired 1] in
  IonicDevServer.startIonicDevServer EOL (fun _ => 8100%Z) (fun _ _ => false)
    launchArgs cliArgs (events ++ more)
  = IonicDevServer.Rejected
      (IonicDevServer.RejError
         ("Error in the Ionic live reload server: " ++ EOL ++ "error: boom")).
Proof.
  intros EOL launchArgs cliArgs events more.
  etransitivity.
  - apply (startIonicDevServer_settles_once EOL (fun _ => 8100%Z)
             (fun _ _ => false) launchArgs cliArgs events more).
    vm_compute. discriminate.
  - vm_compute. reflexivity.
Defined.

Lemma prepareCliArgs_rejection (launchArgs : IonicDevServer.LaunchArgs)
  (cliArgs : list string) (r : IonicDevServer.Rejection) :
  IonicDevServer.prepareCliArgs launchArgs cliArgs = inl r ->
  r = IonicDevServer.RejError IonicDevServer.portMessage.
Proof.
  unfold IonicDevServer.prepareCliArgs.
  destruct (match IonicDevServer.runArguments launchArgs with
            | Some l => (length l =? 0)%nat
            | None => true
            end); [| discriminate].
  destruct (IonicDevServer.devServerPort launchArgs) as [| |n];
    [discriminate | congruence |].
  destruct ((0 <=? n) && (n <=? 65535))%Z; [discriminate | congruence].
Qed.

(** X8.  The promise of [startIonicDevServer] is never rejected with the
    error of the guard in its continuation (the server address could not be
    determined): whenever [serverStarting] is fulfilled, it is fulfilled with
    the list made of the local URL matched in the accumulated output and of
    the external URLs, which is not empty, and the promise returned is
    fulfilled with these URLs, each without its escape sequences. *)
Theorem guard_of_the_continuation_never_fires (EOL : string)
  (getPortFromURL : string -> Z) (isIonicCliVersionGte : string -> string -> bool)
  (launchArgs : IonicDevServer.LaunchArgs) (cliArgs : list string)
  (events : list IonicDevServer.Event) :
  let result :=
    IonicDevServer.startIonicDevServer EOL getPortFromURL isIonicCliVersionGte
      launchArgs cliArgs events in
  result <> IonicDevServer.Rejected (IonicDevServer.RejError unableToDetermine)
  /\ forall urls,
       result = IonicDevServer.Fulfilled urls ->
       urls <> []
       /\ exists out url,
            search IonicDevServer.SERVER_URL_RE out = Some url
            /\ urls = map IonicDevServer.stripAnsi
                        (IonicDevServer.collectUrls url out).
Proof.
  intros result. subst result. unfold IonicDevServer.startIonicDevServer.
  destruct (IonicDevServer.prepareCliArgs launchArgs cliArgs)
    as [r|cliArgs'] eqn:Hargs.
  - apply prepareCliArgs_rejection in Hargs as ->.
    split; [intros [= E]; discriminate E | discriminate].
  - destruct (IonicDevServer.serverStarting _) as [|v|r] eqn:Hs;
      cbn [IonicDevServer.thenUrls].
    + split; discriminate.
    + apply fulfilled_value in Hs as (out & rest & _ & Hurl & ->).
      unfold urlsOf in *.
      destruct (search IonicDevServer.SERVER_URL_RE out) as [url|] eqn:Hu;
        [| discriminate].
      cbn [IonicDevServer.onFulfilled IonicDevServer.collectUrls].
      split; [discriminate |]. intros urls [= <-].
      split; [discriminate |]. now exists out, url.
    + apply rejected_initial in Hs.
      split; [| discriminate]. intros [= ->]. now apply Hs.
Qed.

(** X9.  The port of the launch configuration is checked before anything is
    started, and only when the configuration has no run arguments of its own:
    then a [devServerPort] that is no number between 0 and 65535 rejects the
    promise with the message about the port, whatever the process does, and
    otherwise the address (when it is set and not empty) and the port (when
    it is set) are appended to the command line, in this order.  With run
    arguments the command line is left as it is, and the port is not
    checked. *)
Theorem devServerPort_is_checked_first (EOL : string)
  (getPortFromURL : string -> Z) (isIonicCliVersionGte : string -> string -> bool)
  (launchArgs : IonicDevServer.LaunchArgs) (cliArgs : list string)
  (events : list IonicDevServer.Event) :
  let noRunArguments :=
    match IonicDevServer.runArguments launchArgs with
    | Some (_ :: _) => false
    | _ => true
    end in
  let address :=
    match IonicDevServer.devServerAddress launchArgs with
    | Some (String c a) => ["--address"%string; String c a]
    | _ => []
    end in
  let result :=
    IonicDevServer.startIonicDevServer EOL getPortFromURL isIonicCliVersionGte
      launchArgs cliArgs events in
  let started cliArgs' :=
    IonicDevServer.thenUrls
      (IonicDevServer.serverStarting
         (IonicDevServer.run EOL getPortFromURL isIonicCliVersionGte launchArgs
            cliArgs' events (IonicDevServer.started launchArgs))) in
  match noRunArguments, IonicDevServer.devServerPort launchArgs with
  | false, _ => result = started cliArgs
  | true, IonicDevServer.Absent => result = started (cliArgs ++ address)
  | true, IonicDevServer.NotANumber =>
      result = IonicDevServer.Rejected
                 (IonicDevServer.RejError IonicDevServer.portMessage)
  | true, IonicDevServer.Number n =>
      if ((0 <=? n) && (n <=? 65535))%Z
      then result
           = started ((cliArgs ++ address) ++ ["--port"%string; toStringZ n])
      else result
           = IonicDevServer.Rejected
               (IonicDevServer.RejError IonicDevServer.portMessage)
  end.
Proof.
  intros noRunArguments address result started. subst result started.
  unfold IonicDevServer.startIonicDevServer, IonicDevServer.prepareCliArgs.
  subst noRunArguments address.
  destruct launchArgs as [cwd [[|x l]|] [[|c a]|] [| |n] timeout reload];
    cbn [IonicDevServer.runArguments IonicDevServer.devServerAddress
         IonicDevServer.devServerPort length Nat.eqb truthy render];
    rewrite ?app_nil_r; try reflexivity;
    destruct ((0 <=? n) && (n <=? 65535))%Z; reflexivity.
Qed.

(** *** [ansiRegex] *)

Lemma removeAll_length (m : string -> option string) (s : string) :
  forall skip, String.length (removeAll m skip s) <= String.length s.
Proof.
  induction s as [|c s IH]; intros skip; [reflexivity |].
  cbn [removeAll String.length].
  destruct skip as [|n]; [| specialize (IH n); lia].
  destruct (m (String c s)) as [rest|].
  - destruct (String.length rest <? S (String.length s))%nat.
    + specialize (IH (S (String.length s) - String.length rest - 1)). lia.
    + cbn [String.length]. specialize (IH 0). lia.
  - cbn [String.length]. specialize (IH 0). lia.
Qed.

(** X10.  Stripping the escape sequences leaves alone a URL that holds
    neither ESC nor CSI, and never makes a URL longer. *)
Theorem stripAnsi_keeps_plain_text (url : string) :
  (allChars (fun c => negb (isEscape c)) url = true ->
   IonicDevServer.stripAnsi url = url)
  /\ String.length (IonicDevServer.stripAnsi url) <= String.length url.
Proof.
  split; [| apply removeAll_length].
  unfold IonicDevServer.stripAnsi.
  induction url as [|c url IH]; [reflexivity |].
  cbn [allChars]. intros [Hc Hurl]%andb_true_iff.
  cbn [removeAll]. unfold IonicDevServer.ansiRegex at 1. cbn [mChar].
  unfold isEscape in Hc. apply negb_true_iff in Hc. rewrite Hc.
  now rewrite IH.
Qed.

(** The command [serve]: the chunk that shows the URL of the server fulfils
    the promise. *)
Lemma serve_is_ready_with_the_server_witness :
  let EOL := String LF EmptyString in
  let launchArgs :=
    IonicDevServer.mkLaunchArgs "/project" None None IonicDevServer.Absent
      None (Some true) in
  let chunks := [("Local: http://localhost:8100" ++ EOL)%string] in
  exists urls,
    urls <> []
    /\ IonicDevServer.serverStarting
         (received EOL (fun _ => 8100%Z) (fun _ _ => true) launchArgs
            ["serve"%string] chunks)
       = IonicDevServer.Fulfilled (Some urls).
Proof.
  intros EOL launchArgs chunks.
  destruct (serve_is_ready_with_the_server EOL (fun _ => 8100%Z)
              (fun _ _ => true) launchArgs ["serve"%string] [] chunks eq_refl)
    as [_ H].
  apply H; [vm_compute; reflexivity |].
  intros j Hj. assert (Hj' : j = 0 \/ j = 1) by (simpl in Hj; lia).
  destruct Hj' as [-> | ->]; vm_compute; reflexivity.
Defined.

(** *** Patterns without metacharacters *)

Lemma toLowerCase_app (a b : string) :
  toLowerCase (a ++ b) = (toLowerCase a ++ toLowerCase b)%string.
Proof. induction a as [|c a IH]; simpl; [reflexivity | now rewrite IH]. Qed.

Lemma occursIn_toLowerCase (sub s : string) :
  occursIn sub s -> occursIn (toLowerCase sub) (toLowerCase s).
Proof.
  intros (a & b & ->). exists (toLowerCase a), (toLowerCase b).
  now rewrite !toLowerCase_app.
Qed.

(** A literal under the [i] flag matches at the start of a text when its
    lower-case form starts the lower-case form of the text. *)
Lemma mLit_eqCI_startsWith {R} (lit : string) (k : string -> option R)
  (s : string) :
  (forall rest, is_Some (k rest)) ->
  is_Some (mLit eqCI lit k s)
  <-> startsWith (toLowerCase lit) (toLowerCase s) = true.
Proof.
  intros Hk. revert s. induction lit as [|a lit IH]; intros s.
  - cbn. split; [reflexivity | intros _; apply Hk].
  - destruct s as [|c s]; cbn [mLit mChar toLowerCase startsWith].
    + split; [intros [x Hx]; discriminate | discriminate].
    + unfold eqCI. destruct (Ascii.eqb (lowerChar a) (lowerChar c)).
      * apply IH.
      * split; [intros [x Hx]; discriminate | discriminate].
Qed.

Lemma mLit_eqCS_startsWith {R} (lit : string) (k : string -> option R)
  (s : string) :
  (forall rest, is_Some (k rest)) ->
  is_Some (mLit eqCS lit k s) <-> startsWith lit s = true.
Proof.
  intros Hk. revert s. induction lit as [|a lit IH]; intros s.
  - cbn. split; [reflexivity | intros _; apply Hk].
  - destruct s as [|c s]; cbn [mLit mChar startsWith].
    + split; [intros [x Hx]; discriminate | discriminate].
    + unfold eqCS. destruct (Ascii.eqb a c).
      * apply IH.
      * split; [intros [x Hx]; discriminate | discriminate].
Qed.

Lemma search_includes {R} (m : string -> option R) (sub : string) :
  (forall s, is_Some (m s) <-> startsWith sub s = true) ->
  forall s, is_Some (search m s) <-> includes sub s = true.
Proof.
  intros Hm s. induction s as [|c s IH]; cbn [search includes];
    rewrite orElse_is_Some, Hm, orb_true_iff.
  - split; intros [H | H]; auto; [destruct H as [x Hx] |]; discriminate.
  - now rewrite IH.
Qed.

Lemma search_includes_lower {R} (m : string -> option R) (sub : string) :
  (forall s, is_Some (m s) <-> startsWith sub (toLowerCase s) = true) ->
  forall s, is_Some (search m s) <-> includes sub (toLowerCase s) = true.
Proof.
  intros Hm s. induction s as [|c s IH]; cbn [search].
  - rewrite orElse_is_Some, Hm. cbn [toLowerCase includes].
    rewrite orb_true_iff.
    split; intros [H | H]; auto; [destruct H as [x Hx] |]; discriminate.
  - rewrite orElse_is_Some, Hm, IH. cbn [toLowerCase includes].
    now rewrite orb_true_iff.
Qed.

Lemma test_is_Some (m : string -> option string) (s : string) :
  IonicDevServer.test m s = true <-> is_Some (search m s).
Proof.
  unfold IonicDevServer.test. destruct (search m s) as [x|].
  - split; [now exists x | reflexivity].
  - split; [discriminate | intros [x Hx]; discriminate].
Qed.

(** The test of a literal under the [i] flag: the lower-case form of the
    literal occurs in the lower-case form of the text. *)
Lemma test_eqCI (lit s : string) :
  IonicDevServer.test (mLit eqCI lit IonicDevServer.accept) s = true
  <-> occursIn (toLowerCase lit) (toLowerCase s).
Proof.
  rewrite test_is_Some, <- includes_spec.
  apply search_includes_lower. intros s'. apply mLit_eqCI_startsWith.
  intros rest. now exists rest.
Qed.

(** *** [CordovaDebugSession] *)

(** X12.  [getTargetType] names a target by what its lower-case form holds:
    [emulator] when [emulator] occurs in it, else [chrome] when [chrom]
    occurs, else [device].  So a target the target manager takes for a
    virtual one is reported as an emulator. *)
Theorem getTargetType_classifies (target : string) :
  let lower := toLowerCase target in
  (CordovaDebugSession.getTargetType target = "emulator"%string
   <-> occursIn "emulator" lower)
  /\ (CordovaDebugSession.getTargetType target = "chrome"%string
      <-> ~ occursIn "emulator" lower /\ occursIn "chrom" lower)
  /\ (CordovaDebugSession.getTargetType target = "device"%string
      <-> ~ occursIn "emulator" lower /\ ~ occursIn "chrom" lower)
  /\ (MobileTargetManager.isVirtualTarget target = Resolves true ->
      CordovaDebugSession.getTargetType target = "emulator"%string).
Proof.
  intros lower.
  pose proof (test_eqCI "emulator" target) as He.
  pose proof (test_eqCI "chrom" target) as Hc.
  change (toLowerCase "emulator") with "emulator"%string in He.
  change (toLowerCase "chrom") with "chrom"%string in Hc.
  fold lower in He, Hc.
  assert (Hcases :
            (CordovaDebugSession.getTargetType target = "emulator"%string
             <-> occursIn "emulator" lower)
            /\ (CordovaDebugSession.getTargetType target = "chrome"%string
                <-> ~ occursIn "emulator" lower /\ occursIn "chrom" lower)
            /\ (CordovaDebugSession.getTargetType target = "device"%string
                <-> ~ occursIn "emulator" lower /\ ~ occursIn "chrom" lower)).
  { unfold CordovaDebugSession.getTargetType.
    destruct (IonicDevServer.test (mLit eqCI "emulator" IonicDevServer.accept)
                target);
      [| destruct (IonicDevServer.test (mLit eqCI "chrom" IonicDevServer.accept)
                     target)];
      cbn; repeat split; intros; try discriminate; try tauto;
      intuition discriminate. }
  destruct Hcases as (H1 & H2 & H3).
  split; [exact H1 | split; [exact H2 | split; [exact H3 |]]].
  intros Hv. apply H1. unfold MobileTargetManager.isVirtualTarget in Hv.
  destruct (includes "device" target); [discriminate |].
  destruct (includes "emulator" target) eqn:E; [| discriminate].
  apply includes_spec in E.
  now apply (occursIn_toLowerCase "emulator").
Qed.

(** X13.  The first call of [initializeSettings] leaves a target in the
    arguments: the one of the configuration when it is set and not empty,
    otherwise [chrome] for the platform [browser] and [emulator] for any
    other platform, which [getTargetType] reports as such; the substitution
    is logged on the console.  The working directory and the platform are
    not touched.  Once its flag is set the function does nothing, so a
    second call changes neither the arguments nor anything else. *)
Theorem initializeSettings_leaves_a_target (trace runtimeVersion : bool)
  (args : CordovaDebugSession.RequestArgs) :
  let first :=
    CordovaDebugSession.initializeSettings false trace runtimeVersion args in
  let args' := snd (fst first) in
  let fallback :=
    if strictEq (CordovaDebugSession.platform args) (Some "browser"%string)
    then "chrome"%string else "emulator"%string in
  fst (fst first) = true
  /\ truthy (CordovaDebugSession.target args') = true
  /\ CordovaDebugSession.cwd args' = CordovaDebugSession.cwd args
  /\ CordovaDebugSession.platform args' = CordovaDebugSession.platform args
  /\ (truthy (CordovaDebugSession.target args) = true ->
      args' = args
      /\ forall e, ~ In (CordovaDebugSession.Output e) (snd first))
  /\ (truthy (CordovaDebugSession.target args) = false ->
      CordovaDebugSession.target args' = Some fallback
      /\ CordovaDebugSession.getTargetType fallback = fallback
      /\ In (CordovaDebugSession.Output
               (CordovaDebugSession.mkOutputEvent
                  ("Parameter target is not set - " ++ fallback
                   ++ " will be used" ++ String LF EmptyString)
                  "console"))
            (snd first))
  /\ (forall trace' runtimeVersion' someArgs,
        CordovaDebugSession.initializeSettings true trace' runtimeVersion'
          someArgs
        = (true, someArgs, [])).
Proof.
  intros first args' fallback. subst first args' fallback.
  unfold CordovaDebugSession.initializeSettings. cbn [negb].
  destruct args as [cwd platform target].
  cbn [CordovaDebugSession.target CordovaDebugSession.platform
       CordovaDebugSession.cwd].
  unfold CordovaDebugSession.PlatformType.Browser,
    CordovaDebugSession.TargetType.Emulator.
  destruct (truthy target) eqn:Ht;
    cbn [negb fst snd CordovaDebugSession.target CordovaDebugSession.platform
         CordovaDebugSession.cwd].
  - split; [reflexivity |]. split; [exact Ht |].
    split; [reflexivity |]. split; [reflexivity |].
    split; [| split; [discriminate | reflexivity]].
    intros _. split; [reflexivity |].
    intros e. rewrite in_app_iff. intros [Hin | Hin].
    + cbn in Hin. intuition discriminate.
    + destruct runtimeVersion; cbn in Hin; intuition discriminate.
  - split; [reflexivity |].
    split; [now destruct (strictEq platform (Some "browser"%string)) |].
    split; [reflexivity |]. split; [reflexivity |].
    split; [discriminate |]. split; [| reflexivity].
    intros _. split; [reflexivity |].
    split; [now destruct (strictEq platform (Some "browser"%string)) |].
    rewrite in_app_iff. right. left.
    unfold CordovaDebugSession.outputLogger.
    destruct (strictEq platform (Some "browser"%string)); reflexivity.
Qed.

(** X14.  [showError] answers nothing for an error named as the
    cancellation is; for any other error it answers with a text that is not
    empty: the message of the error, or when the message is empty its name,
    or when both are empty the word [Error]. *)
Theorem showError_is_silent_on_cancellation (error : JsError) :
  (CordovaDebugSession.showError error = None
   <-> CordovaDebugSession.nameOf error = "tokenCanceled"%string)
  /\ (forall text,
        CordovaDebugSession.showError error = Some text ->
        text <> EmptyString
        /\ (message error <> EmptyString -> text = message error)
        /\ (message error = EmptyString ->
            CordovaDebugSession.nameOf error <> EmptyString ->
            text = CordovaDebugSession.nameOf error)
        /\ (message error = EmptyString ->
            CordovaDebugSession.nameOf error = EmptyString ->
            text = "Error"%string)).
Proof.
  unfold CordovaDebugSession.showError.
  destruct (String.eqb_spec (CordovaDebugSession.nameOf error) "tokenCanceled")
    as [Hc | Hc].
  - split; [tauto | discriminate].
  - split; [split; [discriminate | tauto] |].
    intros text [= <-].
    destruct (String.eqb_spec (message error) EmptyString) as [Hm | Hm];
      cbn [negb];
      [destruct (String.eqb_spec (CordovaDebugSession.nameOf error) EmptyString)
         as [Hn | Hn]; cbn [negb] |];
      repeat split; intros; try congruence; try discriminate.
Qed.

(** *** The choice of the platform *)

Lemma format0_unknown_platform (platformString : string) :
  format0 "Unknown Platform: {0}" platformString
  = ("Unknown Platform: " ++ platformString)%string.
Proof. cbn. now rewrite append_empty_r. Qed.

Ltac split_platform p :=
  repeat match goal with
         | |- context [String.eqb p ?lit] =>
             destruct (String.eqb_spec p lit) as [-> | ?]
         end.

(** X15.  [resolveCordovaPlatform] constructs the Android platform for
    [android] and the iOS platform for [ios] unless the target is one of the
    simulation, and then the browser platform; the browser platform for
    [windows] with a target of the simulation, and for the platforms served
    in a browser whatever the target.  It throws for [windows] with any other
    target (debugging is not supported) and for every other platform name
    (unknown platform, with the name), and only then; the names are compared
    as they are written. *)
Theorem resolveCordovaPlatform_cases (isSimulateTarget : string -> bool)
  (platformString targetString : string) :
  let resolved :=
    CordovaPlatformResolver.resolveCordovaPlatform isSimulateTarget
      platformString targetString in
  let simulated := isSimulateTarget targetString in
  (resolved = inr CordovaPlatformResolver.AndroidCordovaPlatform
   <-> platformString = "android"%string /\ simulated = false)
  /\ (resolved = inr CordovaPlatformResolver.IOSCordovaPlatform
      <-> platformString = "ios"%string /\ simulated = false)
  /\ (resolved = inr CordovaPlatformResolver.BrowserCordovaPlatform
      <-> In platformString servedPlatforms
          \/ (In platformString ["android"; "ios"; "windows"]%string
              /\ simulated = true))
  /\ (resolved
      = inl (newError "Debugging windows platform is not supported.")
      <-> platformString = "windows"%string /\ simulated = false)
  /\ (resolved = inl (newError ("Unknown Platform: " ++ platformString))
      <-> ~ In platformString
            (["android"; "ios"; "windows"]%string ++ servedPlatforms)).
Proof.
  intros resolved simulated. subst resolved simulated.
  unfold CordovaPlatformResolver.resolveCordovaPlatform, servedPlatforms.
  rewrite format0_unknown_platform.
  unfold CordovaPlatformResolver.PlatformType.Android,
    CordovaPlatformResolver.PlatformType.IOS,
    CordovaPlatformResolver.PlatformType.Windows,
    CordovaPlatformResolver.PlatformType.Serve,
    CordovaPlatformResolver.PlatformType.AmazonFireos,
    CordovaPlatformResolver.PlatformType.Blackberry10,
    CordovaPlatformResolver.PlatformType.Firefoxos,
    CordovaPlatformResolver.PlatformType.Ubuntu,
    CordovaPlatformResolver.PlatformType.Wp8,
    CordovaPlatformResolver.PlatformType.Browser.
  cbn [In app].
  split_platform platformString; cbn [orb String.eqb Ascii.eqb Bool.eqb];
    destruct (isSimulateTarget targetString);
    repeat split; intros; try discriminate; try reflexivity;
    try (exfalso; intuition congruence); try (intuition congruence).
Qed.

Ltac unfold_platform_names :=
  unfold CordovaDebugSession.PlatformType.Android,
    CordovaDebugSession.PlatformType.IOS,
    CordovaDebugSession.PlatformType.Windows,
    CordovaDebugSession.PlatformType.Serve,
    CordovaDebugSession.PlatformType.AmazonFireos,
    CordovaDebugSession.PlatformType.Blackberry10,
    CordovaDebugSession.PlatformType.Firefoxos,
    CordovaDebugSession.PlatformType.Ubuntu,
    CordovaDebugSession.PlatformType.Wp8,
    CordovaDebugSession.PlatformType.Browser,
    CordovaPlatformResolver.PlatformType.Android,
    CordovaPlatformResolver.PlatformType.IOS,
    CordovaPlatformResolver.PlatformType.Windows,
    CordovaPlatformResolver.PlatformType.Serve,
    CordovaPlatformResolver.PlatformType.AmazonFireos,
    CordovaPlatformResolver.PlatformType.Blackberry10,
    CordovaPlatformResolver.PlatformType.Firefoxos,
    CordovaPlatformResolver.PlatformType.Ubuntu,
    CordovaPlatformResolver.PlatformType.Wp8,
    CordovaPlatformResolver.PlatformType.Browser.

(** X16.  [resolvePlatform] of the debug session agrees with
    [resolveCordovaPlatform] wherever that one constructs a platform: it
    constructs the platform of the corresponding class.  It is the more
    permissive of the two: a target of the simulation gives the browser
    platform for every platform name, also an unknown or a missing one, and
    [windows] gives the browser platform with any target; it rejects, with
    the unknown platform and its name, only for a target that is not of the
    simulation and a platform outside the ten names.  What fails before the
    choice is the outcome. *)
Theorem resolvePlatform_is_the_more_permissive
  (isSimulateTarget : option string -> bool) (platformOptions : Outcome unit)
  (args : CordovaDebugSession.RequestArgs) :
  let session :=
    CordovaDebugSession.resolvePlatform isSimulateTarget platformOptions args in
  let simulated := isSimulateTarget (CordovaDebugSession.target args) in
  let known := (["android"; "ios"; "windows"]%string ++ servedPlatforms) in
  (forall err, platformOptions = Rejects err -> session = Rejects err)
  /\ (platformOptions = Resolves tt ->
      (simulated = true ->
       session = Resolves CordovaDebugSession.BrowserPlatform)
      /\ (CordovaDebugSession.platform args = Some "windows"%string ->
          session = Resolves CordovaDebugSession.BrowserPlatform)
      /\ (simulated = false ->
          forall p, CordovaDebugSession.platform args = Some p ->
                    ~ In p known ->
                    session = Rejects (newError ("Unknown Platform: " ++ p)))
      /\ (simulated = false -> CordovaDebugSession.platform args = None ->
          session = Rejects (newError "Unknown Platform: undefined"))
      /\ (forall err, session = Rejects err ->
          simulated = false
          /\ forall p, CordovaDebugSession.platform args = Some p ->
                       ~ In p known)
      /\ (forall p t class,
            CordovaDebugSession.platform args = Some p ->
            CordovaDebugSession.target args = Some t ->
            CordovaPlatformResolver.resolveCordovaPlatform
              (fun target => isSimulateTarget (Some target)) p t
            = inr class ->
            session = Resolves (sessionPlatform class))).
Proof.
  intros session simulated known. subst session simulated known.
  unfold CordovaDebugSession.resolvePlatform, servedPlatforms.
  split; [now intros err -> |].
  intros ->. cbn [andThen].
  rewrite format0_unknown_platform.
  unfold CordovaPlatformResolver.resolveCordovaPlatform.
  unfold_platform_names.
  destruct args as [cwd platform target].
  cbn [CordovaDebugSession.platform CordovaDebugSession.target In app].
  destruct (isSimulateTarget target) eqn:Hsim.
  - repeat split; intros; simplify_eq; try reflexivity.
    match goal with H : _ = inr _ |- _ => revert H end.
    rewrite Hsim.
    split_platform p; cbn [orb String.eqb Ascii.eqb Bool.eqb];
      intros; simplify_eq; reflexivity.
  - destruct platform as [p|]; cbn [strictEq render].
    + split_platform p; cbn [orb String.eqb Ascii.eqb Bool.eqb];
        repeat split; intros; simplify_eq; try reflexivity;
        try (exfalso; intuition congruence);
        try (intros HIn; intuition congruence);
        match goal with
        | H : _ = inr _ |- _ =>
            revert H; rewrite ?Hsim;
            cbn [orb String.eqb Ascii.eqb Bool.eqb];
            repeat match goal with
                   | Hne : ?a <> ?b |- context [String.eqb ?a ?b] =>
                       rewrite (proj2 (String.eqb_neq a b) Hne)
                   end;
            cbn [orb]; intros; simplify_eq; reflexivity
        end.
    + repeat split; intros; simplify_eq; reflexivity.
Qed.

(** *** [AndroidCordovaPlatform]: the launch *)

Lemma resolveAndroidTarget_ids
  (getOnlineTargets : list MobileTarget.IMobileTarget)
  (isVirtualTargetOf : string -> Outcome bool)
  (selectAndPrepareTarget :
     (MobileTarget.IMobileTarget -> bool)
     -> Outcome (option MobileTarget.IMobileTarget))
  (target : option string) (isAttachScenario : bool) (t : MobileTarget.IMobileTarget) :
  let r :=
    AndroidCordovaPlatform.resolveAndroidTarget getOnlineTargets
      isVirtualTargetOf selectAndPrepareTarget target isAttachScenario in
  AndroidCordovaPlatform.returned r = Resolves (Some t) ->
  AndroidCordovaPlatform.configTarget r = MobileTarget.id t.
Proof.
  intros r. subst r. unfold AndroidCordovaPlatform.resolveAndroidTarget,
    AndroidCordovaPlatform.getFirstOnlineAndroidTarget.
  destruct (truthy target).
  - destruct (isVirtualTargetOf (render target)) as [v|e];
      [destruct (selectAndPrepareTarget _) as [[t'|]|e] |];
      [| destruct (isAttachScenario && _); [destruct getOnlineTargets |] | |];
      cbn; intros; simplify_eq; reflexivity.
  - destruct getOnlineTargets; cbn; intros; simplify_eq; reflexivity.
Qed.

(** X17.  [resolveAndroidTarget] keeps the target of the configuration in
    step with its answer: when it resolves to a target, [configArgs.target]
    is the id of that target afterwards; when it resolves to nothing or is
    rejected, [configArgs.target] is untouched and nothing is written to the
    launch scenario.  Without a target in the configuration it resolves to
    the first online target, and is rejected, with the error that says so,
    when no target is online; nothing is written then either. *)
Theorem resolveAndroidTarget_records_the_id
  (getOnlineTargets : list MobileTarget.IMobileTarget)
  (isVirtualTargetOf : string -> Outcome bool)
  (selectAndPrepareTarget :
     (MobileTarget.IMobileTarget -> bool)
     -> Outcome (option MobileTarget.IMobileTarget))
  (target : option string) (isAttachScenario : bool) :
  let r :=
    AndroidCordovaPlatform.resolveAndroidTarget getOnlineTargets
      isVirtualTargetOf selectAndPrepareTarget target isAttachScenario in
  (forall t, AndroidCordovaPlatform.returned r = Resolves (Some t) ->
             AndroidCordovaPlatform.configTarget r = MobileTarget.id t)
  /\ (AndroidCordovaPlatform.returned r = Resolves None ->
      AndroidCordovaPlatform.configTarget r = target
      /\ AndroidCordovaPlatform.updateLaunchScenario r = [])
  /\ (forall err, AndroidCordovaPlatform.returned r = Rejects err ->
      AndroidCordovaPlatform.configTarget r = target
      /\ AndroidCordovaPlatform.updateLaunchScenario r = [])
  /\ (truthy target = false ->
      AndroidCordovaPlatform.updateLaunchScenario r = []
      /\ AndroidCordovaPlatform.returned r
         = match getOnlineTargets with
           | firstDevice :: _ => Resolves (Some firstDevice)
           | [] =>
               Rejects
                 (newError
                    "The 'target' parameter in the debug configuration is undefined, and there are no any online debuggable targets")
           end).
Proof.
  intros r. subst r. unfold AndroidCordovaPlatform.resolveAndroidTarget,
    AndroidCordovaPlatform.getFirstOnlineAndroidTarget.
  destruct (truthy target).
  - destruct (isVirtualTargetOf (render target)) as [v|e];
      [destruct (selectAndPrepareTarget _) as [[t|]|e] |];
      [| destruct (isAttachScenario && _); [destruct getOnlineTargets |] | |];
      cbn; repeat split; intros; simplify_eq; reflexivity.
  - destruct getOnlineTargets; cbn; repeat split; intros; simplify_eq;
      reflexivity.
Qed.

Lemma indexOf_from_In (x : string) (l : list string) (i : Z) :
  (0 <= i)%Z ->
  ((-1 <? indexOf_from i x l)%Z = true <-> In x l).
Proof.
  revert i. induction l as [|y l IH]; intros i Hi; cbn [indexOf_from In].
  - split; [discriminate | tauto].
  - destruct (String.eqb_spec y x) as [-> | Hne].
    + split; [auto | intros _; apply Z.ltb_lt; lia].
    + rewrite IH by lia. split; [auto | intros [H | H]; [congruence | exact H]].
Qed.

Lemma indexOf_In (x : string) (l : list string) :
  (-1 <? indexOf l x)%Z = true <-> In x l.
Proof. now apply indexOf_from_In. Qed.

Lemma mStar_accepts (p : ascii -> bool) (rest : string) :
  is_Some (mStar p IonicDevServer.accept rest).
Proof. apply mStar_is_Some. now exists rest. Qed.

(** The test of the run: [ERROR] occurs in the standard output, or [error:]
    in the standard error with its letters in lower case. *)
Lemma errorMatch_spec (runOutput stderr : string) :
  AndroidCordovaPlatform.errorMatch runOutput stderr = true
  <-> occursIn "ERROR" runOutput \/ occursIn "error:" (toLowerCase stderr).
Proof.
  unfold AndroidCordovaPlatform.errorMatch.
  rewrite orb_true_iff, !test_is_Some, <- !includes_spec.
  rewrite (search_includes _ "ERROR"),
    (search_includes_lower _ "error:"); [reflexivity | |].
  - intros s. apply (mLit_eqCI_startsWith "error:"), mStar_accepts.
  - intros s. apply mLit_eqCS_startsWith, mStar_accepts.
Qed.

(** X18.  The arguments [getCommandLineArgsForAndroidTarget] gives always
    start with [--verbose] and never hold [--livereload].  When the target
    is resolved they go on with [--emulator] for a virtual target and
    [--device] for another, and with the id of the target, which is the
    target of the launch arguments afterwards, and nothing is logged.  When
    no target is found, or the resolution fails, the failure is logged as an
    error and not raised: the arguments are [--verbose] alone, and the target
    of the launch arguments becomes the id of the first online target, or
    [emulator] when none is online. *)
Theorem android_target_arguments
  (getOnlineTargets : list MobileTarget.IMobileTarget)
  (isVirtualTargetOf : string -> Outcome bool)
  (selectAndPrepareTarget :
     (MobileTarget.IMobileTarget -> bool)
     -> Outcome (option MobileTarget.IMobileTarget))
  (target : option string) :
  let resolved :=
    AndroidCordovaPlatform.returned
      (AndroidCordovaPlatform.resolveAndroidTarget getOnlineTargets
         isVirtualTargetOf selectAndPrepareTarget target false) in
  let t :=
    AndroidCordovaPlatform.getCommandLineArgsForAndroidTarget
      getOnlineTargets isVirtualTargetOf selectAndPrepareTarget target in
  let fallback :=
    match getOnlineTargets with
    | firstDevice :: _ => MobileTarget.id firstDevice
    | [] => Some "emulator"%string
    end in
  (exists rest, AndroidCordovaPlatform.targetArgs t = "--verbose"%string :: rest)
  /\ ~ In "--livereload"%string (AndroidCordovaPlatform.targetArgs t)
  /\ (forall device, resolved = Resolves (Some device) ->
      AndroidCordovaPlatform.targetArgs t
      = ["--verbose";
         if MobileTarget.isVirtualTarget device then "--emulator"
         else "--device";
         "--target=" ++ render (MobileTarget.id device)]%string
      /\ AndroidCordovaPlatform.launchTarget t = MobileTarget.id device
      /\ AndroidCordovaPlatform.targetLog t = [])
  /\ ((forall device, resolved <> Resolves (Some device)) ->
      AndroidCordovaPlatform.targetArgs t = ["--verbose"%string]
      /\ AndroidCordovaPlatform.launchTarget t = fallback
      /\ exists failure,
           AndroidCordovaPlatform.targetLog t
           = [(failure, true);
              ("Continue using standard CLI workflow."%string, false)]).
Proof.
  intros resolved t fallback.
  pose proof (resolveAndroidTarget_ids getOnlineTargets isVirtualTargetOf
                selectAndPrepareTarget target false) as Hid.
  subst resolved t fallback.
  unfold AndroidCordovaPlatform.getCommandLineArgsForAndroidTarget,
    AndroidCordovaPlatform.useDefaultCLI.
  destruct (AndroidCordovaPlatform.returned _) as [[device|]|err] eqn:Hr;
    cbn [AndroidCordovaPlatform.targetArgs AndroidCordovaPlatform.launchTarget
         AndroidCordovaPlatform.targetLog].
  - split; [eexists; reflexivity |].
    split.
    { cbn [In]. intros [H | [H | [H | []]]]; [discriminate | | ].
      - destruct (MobileTarget.isVirtualTarget device); discriminate.
      - apply (f_equal (fun s => String.get 2 s)) in H. discriminate. }
    split; [| intros H; now contradiction (H device)].
    intros d [= <-]. repeat split. now apply Hid.
  - split; [eexists; reflexivity |].
    split; [cbn [In]; intros [H | []]; discriminate |].
    split; [discriminate |]. intros _. repeat split. eexists; reflexivity.
  - split; [eexists; reflexivity |].
    split; [cbn [In]; intros [H | []]; discriminate |].
    split; [discriminate |]. intros _. repeat split. eexists; reflexivity.
Qed.

Lemma android_target_args_clean
  (getOnlineTargets : list MobileTarget.IMobileTarget)
  (isVirtualTargetOf : string -> Outcome bool)
  (selectAndPrepareTarget :
     (MobileTarget.IMobileTarget -> bool)
     -> Outcome (option MobileTarget.IMobileTarget))
  (target : option string) :
  let t :=
    AndroidCordovaPlatform.getCommandLineArgsForAndroidTarget
      getOnlineTargets isVirtualTargetOf selectAndPrepareTarget target in
  ~ In "--livereload"%string (AndroidCordovaPlatform.targetArgs t)
  /\ ~ In (AndroidCordovaPlatform.NO_LIVERELOAD_WARNING, false)
         (AndroidCordovaPlatform.targetLog t).
Proof.
  intros t. subst t.
  unfold AndroidCordovaPlatform.getCommandLineArgsForAndroidTarget.
  destruct (AndroidCordovaPlatform.returned _) as [[device|]|err];
    cbn [AndroidCordovaPlatform.targetArgs AndroidCordovaPlatform.targetLog In].
  - split; [| tauto]. intros [H | [H | [H | []]]]; [discriminate | |].
    + destruct (MobileTarget.isVirtualTarget device); discriminate.
    + apply (f_equal (fun s => String.get 2 s)) in H. discriminate.
  - split; intros H; intuition discriminate.
  - split; intros H; intuition discriminate.
Qed.

(** X19.  The command line of [launchApp] is [run android] followed by the
    run arguments of the launch configuration when there are some, else by
    those of the workspace when there are some, else by the arguments for the
    target, and then by [--livereload] when live reload is asked for an Ionic
    Angular project (for another project a warning is logged instead).  The
    Ionic dev server is started exactly when the command line holds
    [--livereload], and its outcome is the outcome of the launch.  Otherwise
    the command is run: its rejection is the outcome; when it ends, the
    launch fails with the error about the run exactly when [ERROR] occurs in
    its standard output or [error:], in any case of its letters, in its
    standard error, and else the success is logged. *)
Theorem android_launch
  (getOnlineTargets : list MobileTarget.IMobileTarget)
  (isVirtualTargetOf : string -> Outcome bool)
  (selectAndPrepareTarget :
     (MobileTarget.IMobileTarget -> bool)
     -> Outcome (option MobileTarget.IMobileTarget))
  (isIonicAngularProject : bool)
  (startIonicDevServer : list string -> Outcome (list string))
  (cordovaRunCommand : list string -> Outcome (string * string))
  (target : option string) (launchRunArguments : option (list string))
  (ionicLiveReload : bool) (runArguments : option (list string)) :
  let launch :=
    AndroidCordovaPlatform.launchApp getOnlineTargets isVirtualTargetOf
      selectAndPrepareTarget isIonicAngularProject startIonicDevServer
      cordovaRunCommand target launchRunArguments ionicLiveReload
      runArguments in
  let t :=
    AndroidCordovaPlatform.getCommandLineArgsForAndroidTarget
      getOnlineTargets isVirtualTargetOf selectAndPrepareTarget target in
  let args := AndroidCordovaPlatform.commandLine launch in
  let liveReload := ionicLiveReload && isIonicAngularProject in
  args
  = (["run"; "android"]%string
     ++ match launchRunArguments, runArguments with
        | Some (x :: l), _ => x :: l
        | _, Some (x :: l) => x :: l
        | _, _ =>
            AndroidCordovaPlatform.targetArgs t
            ++ (if liveReload then ["--livereload"%string] else [])
        end)
  /\ (AndroidCordovaPlatform.devServerStarted launch = true
      <-> In "--livereload"%string args)
  /\ (AndroidCordovaPlatform.nonEmpty launchRunArguments = false ->
      AndroidCordovaPlatform.nonEmpty runArguments = false ->
      (AndroidCordovaPlatform.devServerStarted launch = liveReload)
      /\ (In (AndroidCordovaPlatform.NO_LIVERELOAD_WARNING, false)
             (AndroidCordovaPlatform.launchLog launch)
          <-> ionicLiveReload = true /\ isIonicAngularProject = false))
  /\ (AndroidCordovaPlatform.devServerStarted launch = true ->
      AndroidCordovaPlatform.launched launch
      = andThen (startIonicDevServer args) (fun _ => Resolves tt))
  /\ (AndroidCordovaPlatform.devServerStarted launch = false ->
      match cordovaRunCommand args with
      | Rejects err => AndroidCordovaPlatform.launched launch = Rejects err
      | Resolves (runOutput, stderr) =>
          (AndroidCordovaPlatform.launched launch
           = Rejects (newError "Error running android")
           <-> occursIn "ERROR" runOutput
               \/ occursIn "error:" (toLowerCase stderr))
          /\ (AndroidCordovaPlatform.launched launch = Resolves tt
              <-> ~ (occursIn "ERROR" runOutput
                     \/ occursIn "error:" (toLowerCase stderr)))
          /\ (AndroidCordovaPlatform.launched launch = Resolves tt ->
              exists log,
                AndroidCordovaPlatform.launchLog launch
                = log ++ [("App successfully launched"%string, false)])
      end).
Proof.
  intros launch t args liveReload.
  destruct (android_target_args_clean getOnlineTargets isVirtualTargetOf
              selectAndPrepareTarget target) as [Hclean Hlog].
  fold t in Hclean, Hlog.
  subst args launch liveReload.
  unfold AndroidCordovaPlatform.launchApp. fold t.
  set (chosen :=
         if AndroidCordovaPlatform.nonEmpty launchRunArguments then _ else _).
  assert (Hargs :
            fst (fst chosen)
            = (["run"; "android"]%string
               ++ match launchRunArguments, runArguments with
                  | Some (x :: l), _ => x :: l
                  | _, Some (x :: l) => x :: l
                  | _, _ =>
                      AndroidCordovaPlatform.targetArgs t
                      ++ (if ionicLiveReload && isIonicAngularProject
                          then ["--livereload"%string] else [])
                  end)).
  { subst chosen.
    destruct launchRunArguments as [[|x l]|], runArguments as [[|y l']|];
      cbn [AndroidCordovaPlatform.nonEmpty AndroidCordovaPlatform.elements
           fst snd]; try reflexivity;
      destruct ionicLiveReload, isIonicAngularProject;
      cbn [andb fst snd]; rewrite ?app_nil_r, <- ?app_assoc; reflexivity. }
  assert (Hdefault :
            AndroidCordovaPlatform.nonEmpty launchRunArguments = false ->
            AndroidCordovaPlatform.nonEmpty runArguments = false ->
            ((-1 <? indexOf (fst (fst chosen)) "--livereload")%Z
             = ionicLiveReload && isIonicAngularProject)
            /\ (In (AndroidCordovaPlatform.NO_LIVERELOAD_WARNING, false)
                   (snd chosen)
                <-> ionicLiveReload = true /\ isIonicAngularProject = false)
            /\ forall more,
                 In (AndroidCordovaPlatform.NO_LIVERELOAD_WARNING, false)
                    (snd chosen
                     ++ [("App successfully launched"%string, more)])
                 <-> In (AndroidCordovaPlatform.NO_LIVERELOAD_WARNING, false)
                        (snd chosen)).
  { intros H1 H2. subst chosen. rewrite H1, H2.
    assert (Hmore : forall l more,
              In (AndroidCordovaPlatform.NO_LIVERELOAD_WARNING, false)
                 (l ++ [("App successfully launched"%string, more)])
              <-> In (AndroidCordovaPlatform.NO_LIVERELOAD_WARNING, false) l).
    { intros l more. rewrite in_app_iff. cbn [In].
      split; [intros [H | [H | []]]; [exact H | discriminate H] | auto]. }
    destruct ionicLiveReload, isIonicAngularProject; cbn [andb fst snd];
      (split; [| split; [| intros more; apply Hmore]]).
    - apply indexOf_In. rewrite !in_app_iff. right. now left.
    - split; [intros H; contradiction | intros [_ H]; discriminate].
    - apply not_true_is_false. rewrite indexOf_In, in_app_iff. cbn [In].
      intros [[H | [H | []]] | H]; [discriminate | discriminate | contradiction].
    - rewrite in_app_iff. cbn [In]. split; [auto | intros _; right; now left].
    - apply not_true_is_false. rewrite indexOf_In, in_app_iff. cbn [In].
      intros [[H | [H | []]] | H]; [discriminate | discriminate | contradiction].
    - split; [intros H; contradiction | intros [H _]; discriminate].
    - apply not_true_is_false. rewrite indexOf_In, in_app_iff. cbn [In].
      intros [[H | [H | []]] | H]; [discriminate | discriminate | contradiction].
    - split; [intros H; contradiction | intros [H _]; discriminate]. }
  clearbody chosen. destruct chosen as [[args target'] log].
  cbn [fst snd] in Hargs, Hdefault.
  destruct (-1 <? indexOf args "--livereload")%Z eqn:Hlive.
  - cbn [AndroidCordovaPlatform.commandLine
         AndroidCordovaPlatform.devServerStarted
         AndroidCordovaPlatform.launched AndroidCordovaPlatform.launchLog].
    split; [exact Hargs |].
    split; [split; [intros _; now apply indexOf_In | reflexivity] |].
    split; [intros H1 H2; destruct (Hdefault H1 H2) as (<- & Hw & _); now split |].
    split; [reflexivity | discriminate].
  - assert (Hnot : ~ In "--livereload"%string args).
    { intros Hin. apply indexOf_In in Hin. congruence. }
    destruct (cordovaRunCommand args) as [[runOutput stderr]|err] eqn:Hrun.
    + pose proof (errorMatch_spec runOutput stderr) as Hm.
      destruct (AndroidCordovaPlatform.errorMatch runOutput stderr);
        cbn [AndroidCordovaPlatform.commandLine
             AndroidCordovaPlatform.devServerStarted
             AndroidCordovaPlatform.launched AndroidCordovaPlatform.launchLog];
        rewrite Hrun.
      * split; [exact Hargs |].
        split; [split; [discriminate | intros H; now contradiction Hnot] |].
        split; [intros H1 H2; destruct (Hdefault H1 H2) as (<- & Hw & _);
                now split |].
        split; [discriminate |]. intros _.
        split; [tauto |].
        split; [split; [discriminate | intros H; tauto] | discriminate].
      * split; [exact Hargs |].
        split; [split; [discriminate | intros H; now contradiction Hnot] |].
        split; [intros H1 H2; destruct (Hdefault H1 H2) as (<- & Hw & Hmore);
                split; [reflexivity | now rewrite Hmore] |].
        split; [discriminate |]. intros _.
        split; [split; [discriminate | intros H; apply Hm in H; discriminate] |].
        split; [split; [intros _ H; apply Hm in H; discriminate | reflexivity] |].
        intros _. now exists log.
    + cbn [AndroidCordovaPlatform.commandLine
           AndroidCordovaPlatform.devServerStarted
           AndroidCordovaPlatform.launched AndroidCordovaPlatform.launchLog].
      rewrite Hrun.
      split; [exact Hargs |].
      split; [split; [discriminate | intros H; now contradiction Hnot] |].
      split; [intros H1 H2; destruct (Hdefault H1 H2) as (<- & Hw & _); now split |].
      split; [discriminate | reflexivity].
Qed.

(** *** [AndroidCordovaPlatform]: the preparation of the attachment *)

(** X20.  [prepareForAttach] is fulfilled exactly when the five steps all
    succeed: the list of the devices, the resolution of the target to a
    device, the reading of the package name, the search of the abstract name
    for that package on that device, and the forwarding of the port to that
    name on that device.  The forwarding is recorded exactly then, with the
    identifier of the device and the port.  When the list of the devices
    fails, the error is thrown inside the executor and the promise of the
    target stays pending: the attachment then settles only if the package
    name fails, and never otherwise.  When no target is found, the list of
    the devices is logged as an error and, the package name read, the
    attachment is rejected with the target named. *)
Theorem prepareForAttach_outcomes
  (devices : Outcome string) (resolution : AndroidCordovaPlatform.Resolution)
  (packageName : Outcome (option string)) (packageFirst : bool)
  (abstractNameOf : option string -> option string -> Outcome (option string))
  (runAdbCommand : list string -> Outcome string) (port : string) :
  let attach :=
    AndroidCordovaPlatform.prepareForAttach devices resolution packageName
      packageFirst abstractNameOf runAdbCommand port in
  let promise := AndroidCordovaPlatform.attached attach in
  let fulfilled := AndroidCordovaPlatform.Settles (Resolves tt) in
  (promise = fulfilled
   <-> exists devicesOutput device appPackageName abstractName forwarded,
         devices = Resolves devicesOutput
         /\ AndroidCordovaPlatform.returned resolution = Resolves (Some device)
         /\ packageName = Resolves appPackageName
         /\ abstractNameOf appPackageName (MobileTarget.id device)
            = Resolves abstractName
         /\ runAdbCommand
              ["-s"; render (MobileTarget.id device); "forward";
               "tcp:" ++ port; "localabstract:" ++ render abstractName]%string
            = Resolves forwarded)
  /\ (promise = fulfilled
      <-> exists device,
            AndroidCordovaPlatform.returned resolution = Resolves (Some device)
            /\ AndroidCordovaPlatform.adbPortForwardingInfo attach
               = Some (MobileTarget.id device, port))
  /\ (promise <> fulfilled ->
      AndroidCordovaPlatform.adbPortForwardingInfo attach = None)
  /\ (forall err,
        devices = Rejects err ->
        promise
        = match packageName with
          | Rejects error => AndroidCordovaPlatform.Settles (Rejects error)
          | Resolves _ => AndroidCordovaPlatform.NeverSettles
          end)
  /\ (forall devicesOutput,
        devices = Resolves devicesOutput ->
        AndroidCordovaPlatform.returned resolution = Resolves None ->
        In (devicesOutput, true) (AndroidCordovaPlatform.attachLog attach)
        /\ forall appPackageName,
             packageName = Resolves appPackageName ->
             promise
             = AndroidCordovaPlatform.Settles
                 (Rejects
                    (newError
                       ("Unable to find target "
                        ++ render
                             (AndroidCordovaPlatform.configTarget
                                resolution)))))
  /\ (promise = AndroidCordovaPlatform.NeverSettles
      <-> (exists err, devices = Rejects err)
          /\ exists appPackageName, packageName = Resolves appPackageName).
Proof.
  intros attach promise fulfilled. subst attach promise fulfilled.
  unfold AndroidCordovaPlatform.prepareForAttach,
    AndroidCordovaPlatform.resolveTagetPromise,
    AndroidCordovaPlatform.forwardSocketCommandArguments.
  destruct devices as [devicesOutput|err];
    [destruct (AndroidCordovaPlatform.returned resolution)
       as [[device|]|err] |];
    destruct packageName as [appPackageName|err'];
    cbn [AndroidCordovaPlatform.targetPromise
         AndroidCordovaPlatform.loggedErrors map app];
    try (destruct (abstractNameOf appPackageName (MobileTarget.id device))
           as [abstractName|err''] eqn:Hname;
         [destruct (runAdbCommand _) as [forwarded|err'''] eqn:Hforward |]);
    cbn [AndroidCordovaPlatform.attached
         AndroidCordovaPlatform.adbPortForwardingInfo
         AndroidCordovaPlatform.attachLog In];
    repeat split;
    try discriminate; try congruence;
    try (intros; simplify_eq; eauto 10; fail);
    try (intros; firstorder (simplify_eq; eauto; congruence); fail).
Qed.

(** *** [AndroidCordovaPlatform]: the listing of the processes *)

Lemma at_index_beyond (l : list string) (i : Z) :
  (Z.of_nat (length l) <? i)%Z = true -> at_index l i = None.
Proof.
  intros H. apply Z.ltb_lt in H. unfold at_index.
  destruct (i <? 0)%Z; [reflexivity |].
  apply lookup_ge_None. lia.
Qed.

Lemma forLines_psLine_named (splitter : string -> list string)
  (name : string) (nameIdx pidIdx : Z) (lines : list string) :
  let fields line :=
    List.filter (fun field => negb (String.eqb field EmptyString))
      (splitter (trim line)) in
  AndroidCordovaPlatform.forLines
    (AndroidCordovaPlatform.psLine splitter (Some name) nameIdx pidIdx) lines
  = Resolves
      match
        List.find
          (fun line => strictEq (at_index (fields line) nameIdx) (Some name))
          lines
      with
      | Some line => at_index (fields line) pidIdx
      | None => None
      end.
Proof.
  intros fields. induction lines as [|line lines IH]; [reflexivity |].
  cbn [AndroidCordovaPlatform.forLines List.find].
  unfold AndroidCordovaPlatform.psLine at 1. fold (fields line).
  destruct (Z.of_nat (length (fields line)) <? nameIdx)%Z eqn:Hshort.
  - rewrite (at_index_beyond _ _ Hshort). cbn [strictEq]. exact IH.
  - destruct (strictEq (at_index (fields line) nameIdx) (Some name));
      [reflexivity | exact IH].
Qed.

Lemma forLines_psLine_resolves (splitter : string -> list string)
  (appPackageName : option string) (nameIdx pidIdx : Z) (lines : list string) :
  exists pid,
    AndroidCordovaPlatform.forLines
      (AndroidCordovaPlatform.psLine splitter appPackageName nameIdx pidIdx)
      lines
    = Resolves pid.
Proof.
  induction lines as [|line lines IH]; [now exists None |].
  cbn [AndroidCordovaPlatform.forLines].
  unfold AndroidCordovaPlatform.psLine at 1.
  destruct (_ <? nameIdx)%Z; [exact IH |].
  destruct (strictEq _ appPackageName); [eauto | exact IH].
Qed.

(** X21.  The reading of the listing of [ps] never fails.  For a package
    that has a name, it gives the [PID] field of the first line after the
    header whose [NAME] field is the package, and nothing when there is no
    such line: the test on the number of the fields changes nothing.  So it
    gives nothing when the header has no [NAME] column; and it gives nothing
    either, whatever the lines, when the header has no [PID] column.  For a
    package without a name and a header without [NAME] column, the first
    line after the header is taken for the process. *)
Theorem parsePs_returns_the_first_named
  (PS_FIELDS_SPLITTER_RE : string -> list string)
  (appPackageName : option string) (psResult : string) :
  let lines := split (String LF EmptyString) psResult in
  let keys := PS_FIELDS_SPLITTER_RE (hd EmptyString lines) in
  let fields line :=
    List.filter (fun field => negb (String.eqb field EmptyString))
      (PS_FIELDS_SPLITTER_RE (trim line)) in
  let nameField line := at_index (fields line) (indexOf keys "NAME") in
  let pidField line := at_index (fields line) (indexOf keys "PID") in
  let parsed :=
    AndroidCordovaPlatform.parsePs PS_FIELDS_SPLITTER_RE appPackageName
      psResult in
  (exists pid, parsed = Resolves pid)
  /\ (forall name,
        appPackageName = Some name ->
        parsed
        = Resolves
            match
              List.find (fun line => strictEq (nameField line) (Some name))
                (tl lines)
            with
            | Some line => pidField line
            | None => None
            end)
  /\ (forall name,
        appPackageName = Some name -> indexOf keys "NAME" = (-1)%Z ->
        parsed = Resolves None)
  /\ (indexOf keys "PID" = (-1)%Z -> parsed = Resolves None)
  /\ (appPackageName = None -> indexOf keys "NAME" = (-1)%Z ->
      forall line rest,
        tl lines = line :: rest -> parsed = Resolves (pidField line)).
Proof.
  intros lines keys fields nameField pidField parsed.
  subst parsed nameField pidField.
  unfold AndroidCordovaPlatform.parsePs. fold lines. fold keys.
  split; [apply forLines_psLine_resolves |].
  split; [intros name ->; apply forLines_psLine_named |].
  split; [| split].
  - intros name -> Hname. rewrite forLines_psLine_named, Hname.
    induction (tl lines) as [|line rest IH]; [reflexivity |].
    cbn [List.find]. unfold at_index at 1. cbn [Z.ltb Z.compare strictEq].
    exact IH.
  - intros Hpid. rewrite Hpid.
    induction (tl lines) as [|line rest IH]; [reflexivity |].
    cbn [AndroidCordovaPlatform.forLines].
    unfold AndroidCordovaPlatform.psLine at 1.
    destruct (_ <? _)%Z; [exact IH |].
    destruct (strictEq _ appPackageName); [reflexivity | exact IH].
  - intros -> Hname line rest ->. rewrite Hname.
    cbn [AndroidCordovaPlatform.forLines].
    unfold AndroidCordovaPlatform.psLine.
    destruct (_ <? -1)%Z eqn:Hshort; [apply Z.ltb_lt in Hshort; lia |].
    reflexivity.
Qed.

(** *** [IOSCordovaPlatform]: the build flag *)

Lemma findIndex_from_existsb (p : string -> bool) (l : list string) (i : Z) :
  (0 <= i)%Z ->
  (-1 <? IOSCordovaPlatform.findIndex_from i p l)%Z = existsb p l.
Proof.
  revert i. induction l as [|y l IH]; intros i Hi; cbn; [reflexivity |].
  destruct (p y); cbn; [apply Z.ltb_lt; lia | apply IH; lia].
Qed.

Lemma hasBuildFlag_spec (runArgs : list string) :
  (-1 <? IOSCordovaPlatform.findIndex
           (fun arg => includes "--buildFlag" arg) runArgs)%Z = true
  <-> exists arg, In arg runArgs /\ occursIn "--buildFlag" arg.
Proof.
  unfold IOSCordovaPlatform.findIndex.
  rewrite findIndex_from_existsb by lia. rewrite existsb_exists.
  split; intros (arg & Hin & H); exists arg; split; try exact Hin;
    now apply includes_spec.
Qed.

Lemma addBuildFlagToArgs_flagged (runArgs : list string) :
  exists arg,
    In arg (IOSCordovaPlatform.addBuildFlagToArgs runArgs)
    /\ occursIn "--buildFlag" arg.
Proof.
  unfold IOSCordovaPlatform.addBuildFlagToArgs.
  destruct (_ <? _)%Z eqn:Hflag; cbn [negb].
  - now apply hasBuildFlag_spec.
  - exists "--buildFlag=-UseModernBuildSystem=0"%string. split; [now left |].
    now exists EmptyString, "=-UseModernBuildSystem=0"%string.
Qed.

(** X22.  The arguments that [addBuildFlagToArgs] returns always hold an
    argument in which [--buildFlag] occurs; they are the arguments given when
    these hold one already, and else the arguments given after the flag of
    the old build system.  So the flag is added once: the function changes
    nothing in what it has returned. *)
Theorem addBuildFlagToArgs_adds_the_flag_once (runArgs : list string) :
  let args := IOSCordovaPlatform.addBuildFlagToArgs runArgs in
  let flagged l := exists arg, In arg l /\ occursIn "--buildFlag" arg in
  flagged args
  /\ IOSCordovaPlatform.addBuildFlagToArgs args = args
  /\ (flagged runArgs -> args = runArgs)
  /\ (~ flagged runArgs ->
      args = "--buildFlag=-UseModernBuildSystem=0"%string :: runArgs).
Proof.
  intros args flagged. subst args flagged. cbv beta.
  split; [apply addBuildFlagToArgs_flagged |].
  split.
  - pose proof (addBuildFlagToArgs_flagged runArgs) as H.
    apply hasBuildFlag_spec in H.
    unfold IOSCordovaPlatform.addBuildFlagToArgs at 1. now rewrite H.
  - unfold IOSCordovaPlatform.addBuildFlagToArgs.
    destruct (_ <? _)%Z eqn:Hflag; cbn [negb].
    + split; [reflexivity |]. intros H. exfalso. apply H.
      now apply hasBuildFlag_spec.
    + split; [| reflexivity]. intros H. apply hasBuildFlag_spec in H.
      congruence.
Qed.

(** *** [IOSCordovaPlatform]: the list of the simulators *)





Lemma indexOfEntry_from_In (x : string) (l : list (option string)) (i : Z) :
  (0 <= i)%Z ->
  (0 <=? IOSCordovaPlatform.indexOfEntry_from i x l)%Z = true
  <-> In (Some x) l.
Proof.
  revert i. induction l as [|y l IH]; intros i Hi; cbn.
  - split; [discriminate | tauto].
  - destruct y as [y|]; cbn [strictEq].
    + destruct (String.eqb_spec y x) as [-> | Hne].
      * split; [now left | intros _; apply Z.leb_le; lia].
      * rewrite IH by lia. split; [now right | intros [[= E] | H]; congruence].
    + rewrite IH by lia. split; [now right | intros [E | H]; congruence].
Qed.

(** X24.  [checkIfTargetIsiOSSimulator] throws, without running anything,
    for the target [emulator].  For another target, its promise is that of
    the command that lists the simulators when this one fails; when the list
    is read, it is rejected with the error about the target exactly when the
    target is an entry of the list, and fulfilled exactly when it is not. *)
Theorem checkIfTargetIsiOSSimulator_rejects_the_listed
  (cordovaRunCommand : nat -> list string -> Outcome (string * string))
  (target : string) :
  let checked :=
    IOSCordovaPlatform.checkIfTargetIsiOSSimulator cordovaRunCommand target in
  let listed := cordovaRunCommand 0%nat IOSCordovaPlatform.listCommand in
  (target = "emulator"%string ->
   checked = IOSCordovaPlatform.Throws IOSCordovaPlatform.invalidTarget)
  /\ (target <> "emulator"%string ->
      (forall err,
         listed = Rejects err ->
         checked = IOSCordovaPlatform.Returns (Rejects err))
      /\ (forall output stderr,
            listed = Resolves (output, stderr) ->
            (checked
             = IOSCordovaPlatform.Returns
                 (Rejects IOSCordovaPlatform.invalidTarget)
             <-> In (Some target) (IOSCordovaPlatform.emulators output))
            /\ (checked = IOSCordovaPlatform.Returns (Resolves tt)
                <-> ~ In (Some target) (IOSCordovaPlatform.emulators output)))).
Proof.
  intros checked listed. subst checked listed.
  unfold IOSCordovaPlatform.checkIfTargetIsiOSSimulator,
    CordovaDebugSession.TargetType.Emulator.
  split; [intros ->; reflexivity |].
  intros Hne. apply String.eqb_neq in Hne. rewrite Hne.
  split; [intros err ->; reflexivity |].
  intros output stderr ->. cbn [andThen fst].
  pose proof (indexOfEntry_from_In target (IOSCordovaPlatform.emulators output)
                0 (Z.le_refl 0)) as Hin.
  fold (IOSCordovaPlatform.indexOfEntry (IOSCordovaPlatform.emulators output)
          target) in Hin.
  destruct (0 <=? _)%Z;
    (split; split; intros H; try discriminate H; try reflexivity;
     try (now apply Hin);
     try (exfalso; apply H; now apply Hin);
     try (apply Hin in H; discriminate H);
     try (intros H'; apply Hin in H'; discriminate H')).
Qed.

(** *** [IOSCordovaPlatform]: the launch *)

Lemma toLowerCase_not_emulator (target : string) :
  toLowerCase target <> "emulator"%string ->
  String.eqb target "emulator" = false.
Proof.
  intros H. apply String.eqb_neq. intros ->. now apply H.
Qed.

Ltac ios_projections :=
  cbn [IOSCordovaPlatform.launched IOSCordovaPlatform.commands
       IOSCordovaPlatform.devServerArgs IOSCordovaPlatform.debugProxyPort
       IOSCordovaPlatform.launchLog IOSCordovaPlatform.settlement
       IOSCordovaPlatform.voided].




Lemma flagged_app (prefix args : list string) :
  (exists arg, In arg args /\ occursIn "--buildFlag" arg) ->
  exists arg, In arg (prefix ++ args) /\ occursIn "--buildFlag" arg.
Proof.
  intros (arg & Hin & H). exists arg. split; [| exact H].
  apply in_app_iff. now right.
Qed.

(** The cases of a statement about the command lines of the launch, once
    the launch is known: [Heqb] tells whether the target is the device,
    [Hshape] and [Hflag] the shape of the arguments and their build flag,
    [Hnot] that they hold no live reload. *)
Ltac ios_lines Heqb Hshape Hflag Hnot :=
  ios_projections;
  repeat split; intros;
  repeat match goal with
         | H : _ /\ _ |- _ => destruct H
         | H : _ \/ _ |- _ => destruct H
         | H : In _ (_ :: _) |- _ => destruct H
         | H : In _ [] |- _ => destruct H
         end;
  simplify_eq;
  try contradiction; try congruence; try assumption; try reflexivity;
  try (eexists; split; [reflexivity |]; rewrite ?Heqb; first
         [ reflexivity | exact Hshape | now apply String.eqb_eq ]);
  try (left; discriminate); try (right; reflexivity);
  try (exfalso; apply String.eqb_neq in Heqb; congruence);
  try exact Hnot;
  try match goal with
      | Hl : In "--livereload"%string ?a
        |- ~ In ?a [IOSCordovaPlatform.listCommand] =>
          let Heq := fresh in
          intros [Heq | []]; rewrite <- Heq in Hl;
          unfold IOSCordovaPlatform.listCommand in Hl; cbn [In] in Hl;
          intuition discriminate
      end;
  try (unfold IOSCordovaPlatform.listCommand, not; cbn [In];
       intuition discriminate).

(** X26.  The command lines of the launch on iOS.  Apart from the list of
    the simulators, every command line, run or given to the Ionic dev
    server, is [run ios --device] for the target [device] and [emulate ios],
    followed by [--] for an Ionic Angular project, for another target; then
    come the run arguments of the launch configuration when there are some,
    else those of the workspace when there are some, with the flag of the
    old build system put in front unless they hold a build flag, else that
    flag alone, followed for a live reload of an Ionic Angular project by
    [--livereload], and by [--external] on a device.  So every such command
    line holds a build flag.  The command line goes to the Ionic dev server,
    whose outcome is that of the launch, exactly when it holds
    [--livereload]; a command line that is run holds none.  The debug proxy
    is started only for the target [device], after the run, on the port of
    the launch arguments or 9221, and its outcome is that of the launch. *)
Theorem ios_launch_command_lines
  (osPlatform : string) (typeError : JsError) (isIonicAngularProject : bool)
  (startIonicDevServer : list string -> IOSCordovaPlatform.DevServerStart)
  (cordovaRunCommand : nat -> list string -> Outcome (string * string))
  (startDebugProxy : Z -> Outcome unit)
  (target : option string) (launchRunArguments : option (list string))
  (ionicLiveReload : bool) (iosDebugProxyPort : option Z)
  (runArguments : option (list string)) :
  let launch :=
    IOSCordovaPlatform.launchApp osPlatform typeError isIonicAngularProject
      startIonicDevServer cordovaRunCommand startDebugProxy target
      launchRunArguments ionicLiveReload iosDebugProxyPort runArguments in
  let flagged args := exists arg, In arg args /\ occursIn "--buildFlag" arg in
  let port := IonicDevServer.orDefault iosDebugProxyPort 9221 in
  let tail live :=
    match launchRunArguments, runArguments with
    | Some (x :: l), _ => IOSCordovaPlatform.addBuildFlagToArgs (x :: l)
    | _, Some (x :: l) => IOSCordovaPlatform.addBuildFlagToArgs (x :: l)
    | _, _ =>
        "--buildFlag=-UseModernBuildSystem=0"%string
          :: (if ionicLiveReload && isIonicAngularProject then live else [])
    end in
  let launches args :=
    (In args (IOSCordovaPlatform.commands launch)
     /\ args <> IOSCordovaPlatform.listCommand)
    \/ IOSCordovaPlatform.devServerArgs launch = Some args in
  (forall args,
     launches args ->
     flagged args
     /\ exists t,
          target = Some t
          /\ args
             = if String.eqb (toLowerCase t) "device"
               then ["run"; "ios"; "--device"]%string
                    ++ tail ["--livereload"; "--external"]%string
               else ["emulate"; "ios"]%string
                    ++ (if isIonicAngularProject then ["--"%string] else [])
                    ++ tail ["--livereload"%string])
  /\ (forall args,
        IOSCordovaPlatform.devServerArgs launch = Some args ->
        In "--livereload"%string args
        /\ IOSCordovaPlatform.launched launch
           = IOSCordovaPlatform.voided (startIonicDevServer args)
        /\ IOSCordovaPlatform.debugProxyPort launch = None
        /\ ~ In args (IOSCordovaPlatform.commands launch))
  /\ (forall args,
        In args (IOSCordovaPlatform.commands launch) ->
        ~ In "--livereload"%string args)
  /\ (forall p,
        IOSCordovaPlatform.debugProxyPort launch = Some p ->
        p = port
        /\ IOSCordovaPlatform.launched launch
           = IOSCordovaPlatform.settlement (startDebugProxy port)
        /\ exists t, target = Some t /\ toLowerCase t = "device"%string)
  /\ (forall t,
        target = Some t -> toLowerCase t = "device"%string ->
        IOSCordovaPlatform.launched launch = IOSCordovaPlatform.Fulfilled ->
        IOSCordovaPlatform.devServerArgs launch <> None
        \/ IOSCordovaPlatform.debugProxyPort launch = Some port).
Proof.
  intros launch flagged port tail launches.
  subst launch flagged port launches.
  unfold IOSCordovaPlatform.launchApp.
  destruct (String.eqb_spec osPlatform "darwin") as [Hmac | Hmac]; cbn [negb];
    [| ios_lines I I I I].
  destruct target as [t|]; [| ios_lines I I I I].
  unfold CordovaDebugSession.TargetType.Device,
    CordovaDebugSession.TargetType.Emulator.
  destruct (String.eqb (toLowerCase t) "device") eqn:Heqb.
  - set (chosen := if AndroidCordovaPlatform.nonEmpty launchRunArguments
                   then _ else _).
    assert (Hshape :
              fst chosen
              = (["run"; "ios"; "--device"]%string
                 ++ tail ["--livereload"; "--external"]%string)).
    { subst chosen tail.
      destruct launchRunArguments as [[|x l]|], runArguments as [[|y l']|];
        cbn [AndroidCordovaPlatform.nonEmpty AndroidCordovaPlatform.elements
             fst snd]; try reflexivity;
        destruct ionicLiveReload, isIonicAngularProject; reflexivity. }
    assert (Hflag : exists arg, In arg (fst chosen) /\ occursIn "--buildFlag" arg).
    { rewrite Hshape. apply flagged_app. subst tail.
      destruct launchRunArguments as [[|x l]|], runArguments as [[|y l']|];
        try apply addBuildFlagToArgs_flagged;
        (exists "--buildFlag=-UseModernBuildSystem=0"%string;
         split; [now left |];
         now exists EmptyString, "=-UseModernBuildSystem=0"%string). }
    clearbody chosen tail. destruct chosen as [args log]. cbn [fst snd] in *.
    destruct (-1 <? indexOf args "--livereload")%Z eqn:Hlive.
    + apply indexOf_In in Hlive. ios_lines Heqb Hshape Hflag I.
    + assert (Hnot : ~ In "--livereload"%string args).
      { intros Hin. apply indexOf_In in Hin. congruence. }
      destruct (cordovaRunCommand 0%nat args);
        ios_lines Heqb Hshape Hflag Hnot.
  - unfold IOSCordovaPlatform.checkIfTargetIsiOSSimulator,
      CordovaDebugSession.TargetType.Emulator.
    destruct (String.eqb_spec (toLowerCase t) "emulator") as [Hemu | Hemu].
    + rewrite String.eqb_refl. ios_lines Heqb I I I.
    + rewrite (toLowerCase_not_emulator t Hemu).
      destruct (cordovaRunCommand 0%nat IOSCordovaPlatform.listCommand)
        as [[output stderr] | err]; cbn [andThen fst];
        [| ios_lines Heqb I I I].
      destruct (0 <=? _)%Z; [ios_lines Heqb I I I |].
      set (chosen := if AndroidCordovaPlatform.nonEmpty launchRunArguments
                     then _ else _).
      assert (Hshape :
                fst chosen
                = (["emulate"; "ios"]%string
                   ++ (if isIonicAngularProject then ["--"%string] else [])
                   ++ tail ["--livereload"%string])).
      { subst chosen tail.
        destruct launchRunArguments as [[|x l]|], runArguments as [[|y l']|];
          cbn [AndroidCordovaPlatform.nonEmpty AndroidCordovaPlatform.elements
               fst snd]; rewrite <- ?app_assoc; try reflexivity;
          destruct ionicLiveReload, isIonicAngularProject; reflexivity. }
      assert (Hflag : exists arg,
                 In arg (fst chosen) /\ occursIn "--buildFlag" arg).
      { rewrite Hshape. apply flagged_app, flagged_app. subst tail.
        destruct launchRunArguments as [[|x l]|], runArguments as [[|y l']|];
          try apply addBuildFlagToArgs_flagged;
          (exists "--buildFlag=-UseModernBuildSystem=0"%string;
           split; [now left |];
           now exists EmptyString, "=-UseModernBuildSystem=0"%string). }
      clearbody chosen tail. destruct chosen as [args log]. cbn [fst snd] in *.
      destruct (-1 <? indexOf args "--livereload")%Z eqn:Hlive.
      * apply indexOf_In in Hlive. ios_lines Heqb Hshape Hflag I.
      * assert (Hnot : ~ In "--livereload"%string args).
        { intros Hin. apply indexOf_In in Hin. congruence. }
        destruct (cordovaRunCommand 1%nat args);
          ios_lines Heqb Hshape Hflag Hnot.
Qed.

(** *** [AndroidCordovaPlatform]: the target that is resolved *)

(** X27.  When [selectAndPrepareTarget] answers with a target that passes
    the filter it was given, the target [resolveAndroidTarget] resolves for a
    request is of the class [isVirtualTarget] tells for the request, is
    online in the attach scenario, and bears the request as its name or its
    id unless the request is the generic [emulator] or [device].  The one
    exception is the attach scenario with a generic request for which nothing
    is selected: the first online target is resolved then, whatever its
    class. *)
Theorem resolveAndroidTarget_respects_the_request
  (getOnlineTargets : list MobileTarget.IMobileTarget)
  (isVirtualTargetOf : string -> Outcome bool)
  (selectAndPrepareTarget :
     (MobileTarget.IMobileTarget -> bool)
     -> Outcome (option MobileTarget.IMobileTarget))
  (target : string) (isAttachScenario : bool)
  (device : MobileTarget.IMobileTarget) :
  (forall filter selected,
     selectAndPrepareTarget filter = Resolves (Some selected) ->
     filter selected = true) ->
  target <> EmptyString ->
  AndroidCordovaPlatform.returned
    (AndroidCordovaPlatform.resolveAndroidTarget getOnlineTargets
       isVirtualTargetOf selectAndPrepareTarget (Some target) isAttachScenario)
  = Resolves (Some device) ->
  let generic :=
    String.eqb (toLowerCase target) "emulator"
    || String.eqb (toLowerCase target) "device" in
  exists virtual,
    isVirtualTargetOf target = Resolves virtual
    /\ ((MobileTarget.isVirtualTarget device = virtual
         /\ (isAttachScenario = true -> MobileTarget.isOnline device = true)
         /\ (generic = false ->
             MobileTarget.name device = Some target
             \/ MobileTarget.id device = Some target))
        \/ (isAttachScenario = true /\ generic = true
            /\ exists others, getOnlineTargets = device :: others)).
Proof.
  intros Hselect Htarget Hreturned generic. subst generic.
  revert Hreturned. unfold AndroidCordovaPlatform.resolveAndroidTarget.
  assert (Htruthy : truthy (Some target) = true).
  { destruct target; [contradiction | reflexivity]. }
  rewrite Htruthy. cbn [render].
  destruct (isVirtualTargetOf target) as [virtual | err]; [| discriminate].
  destruct (selectAndPrepareTarget _) as [[selected|]|err] eqn:Hsel;
    cbn [AndroidCordovaPlatform.returned]; [| | discriminate].
  - intros [= ->]. exists virtual. split; [reflexivity |]. left.
    apply Hselect in Hsel.
    apply andb_true_iff in Hsel as [Hsel Hattach].
    apply andb_true_iff in Hsel as [Hclass Hnamed].
    apply Bool.eqb_prop in Hclass.
    split; [now symmetry |]. split.
    + intros ->. exact Hattach.
    + intros Hgeneric. rewrite Hgeneric in Hnamed.
      apply orb_true_iff in Hnamed as [H | H];
        apply strictEq_spec in H; [now left | now right].
  - destruct isAttachScenario; cbn [andb]; [| discriminate].
    destruct (_ || _) eqn:Hgeneric; [| discriminate].
    unfold AndroidCordovaPlatform.getFirstOnlineAndroidTarget.
    destruct getOnlineTargets as [|firstDevice others];
      cbn [AndroidCordovaPlatform.returned]; [discriminate |].
    intros [= ->]. exists virtual. split; [reflexivity |]. right.
    split; [reflexivity |]. split; [reflexivity |]. now exists others.
Qed.

(** One emulator runs and the list is searched with the filter: a launch on
    its id resolves it, a virtual target that bears the request as its id. *)
Lemma resolveAndroidTarget_respects_the_request_witness :
  let d :=
    MobileTarget.mkTarget (Some "Pixel_API_30"%string)
      (Some "emulator-5554"%string) true true in
  exists virtual,
    MobileTargetManager.isVirtualTarget "emulator-5554" = Resolves virtual
    /\ ((MobileTarget.isVirtualTarget d = virtual
         /\ (false = true -> MobileTarget.isOnline d = true)
         /\ (String.eqb (toLowerCase "emulator-5554") "emulator"
             || String.eqb (toLowerCase "emulator-5554") "device" = false ->
             MobileTarget.name d = Some "emulator-5554"%string
             \/ MobileTarget.id d = Some "emulator-5554"%string))
        \/ (false = true
            /\ String.eqb (toLowerCase "emulator-5554") "emulator"
               || String.eqb (toLowerCase "emulator-5554") "device" = true
            /\ exists others, [d] = d :: others)).
Proof.
  intros d.
  apply (resolveAndroidTarget_respects_the_request [d]
           MobileTargetManager.isVirtualTarget
           (fun filter => Resolves (List.find filter [d]))
           "emulator-5554" false d).
  - intros filter selected [= Hfound].
    cbn [List.find] in Hfound.
    destruct (filter d) eqn:Hd; [| discriminate].
    now injection Hfound as <-.
  - discriminate.
  - reflexivity.
Defined.
